(** * weiban_spider: the module/lesson traversal loop of [main]

    A shallow embedding of the traversal engine of [src/weiban_spider.py]
    (the body of [main], lines 362-858) and the statements that relate it to
    the written specification.

    Conventions of the embedding.
    - A Python [str] is a Rocq [string] holding its UTF-8 encoding (a [str]
      with a lone surrogate has none and is left out).  Substring tests work
      on the bytes.  Where the characters matter ([str.strip], [str.split],
      [int], [str.lower]) the text is decoded to its code points, and the
      character classes are those of Python 3.11 (Unicode 14.0): the blanks
      of [str.isspace], the decimal digits, the lower-case mappings with the
      final-sigma rule.  [int] follows Python's grammar for base 10: blanks
      around the numeral (tab to carriage return, space, and the blanks
      outside ASCII), an optional sign, digits with single underscores
      between them, and at most 4300 digits, the limit the interpreter
      starts with.
    - Every awaited Playwright call is an event of [browserE]; what the
      browser answers is left to an instance of [Browser].  A call answers
      with a value or raises.  [page.frames], [page.url], [frame.url] and
      [page.main_frame] are synchronous properties and are read from the
      world without an event.
    - [print], [traceback.print_exc] and [asyncio.sleep] are left out: they
      neither raise nor change what the loop does next.
    - Python's local variables that survive an exception handler and are read
      afterwards ([module_index], [completed_count], [title_button]) are the
      state [locals] of the monad; the others are bound where assigned. *)

From Stdlib Require Import ZArith List Bool Ascii String Lia Arith.
From Stdlib Require Import DecimalString DecimalZ DecimalPos DecimalFacts.
Import ListNotations.
Local Open Scope string_scope.
Local Open Scope list_scope.
Local Open Scope Z_scope.

(** ** Python strings *)

Module PyStr.

(** [needle in hay] for strings. *)
Fixpoint contains (needle hay : string) : bool :=
  match hay with
  | EmptyString => String.prefix needle EmptyString
  | String _ rest => String.prefix needle hay || contains needle rest
  end.

(** The character [c] occurs in [s]. *)
Fixpoint has (c : ascii) (s : string) : bool :=
  match s with
  | EmptyString => false
  | String a rest => Ascii.eqb c a || has c rest
  end.

(** *** The characters of a string

    The code points that a UTF-8 text stands for; a byte that starts no
    well-formed sequence is read as U+FFFD. *)

Definition REPLACEMENT : N := 0xFFFD.

(** A continuation byte and the six bits it carries. *)
Definition cont (c : ascii) : option N :=
  let b := N_of_ascii c in
  if (0x80 <=? b)%N && (b <=? 0xBF)%N then Some (b - 0x80)%N else None.

Definition seq2 (b0 x1 : N) : option N :=
  if (0xC2 <=? b0)%N && (b0 <=? 0xDF)%N then Some ((b0 - 0xC0) * 64 + x1)%N
  else None.

Definition seq3 (b0 x1 x2 : N) : option N :=
  if (0xE0 <=? b0)%N && (b0 <=? 0xEF)%N then
    let p := ((b0 - 0xE0) * 4096 + x1 * 64 + x2)%N in
    if (0x800 <=? p)%N && negb ((0xD800 <=? p)%N && (p <=? 0xDFFF)%N)
    then Some p else None
  else None.

Definition seq4 (b0 x1 x2 x3 : N) : option N :=
  if (0xF0 <=? b0)%N && (b0 <=? 0xF4)%N then
    let p := ((b0 - 0xF0) * 262144 + x1 * 4096 + x2 * 64 + x3)%N in
    if (0x10000 <=? p)%N && (p <=? 0x10FFFF)%N then Some p else None
  else None.

Fixpoint decode (s : string) : list N :=
  match s with
  | EmptyString => []
  | String c0 r0 =>
      let b0 := N_of_ascii c0 in
      if (b0 <? 0x80)%N then b0 :: decode r0
      else
        match r0 with
        | String c1 r1 =>
            match cont c1 with
            | Some x1 =>
                match seq2 b0 x1 with
                | Some p => p :: decode r1
                | None =>
                    match r1 with
                    | String c2 r2 =>
                        match cont c2 with
                        | Some x2 =>
                            match seq3 b0 x1 x2 with
                            | Some p => p :: decode r2
                            | None =>
                                match r2 with
                                | String c3 r3 =>
                                    match cont c3 with
                                    | Some x3 =>
                                        match seq4 b0 x1 x2 x3 with
                                        | Some p => p :: decode r3
                                        | None => REPLACEMENT :: decode r0
                                        end
                                    | None => REPLACEMENT :: decode r0
                                    end
                                | EmptyString => REPLACEMENT :: decode r0
                                end
                            end
                        | None => REPLACEMENT :: decode r0
                        end
                    | EmptyString => REPLACEMENT :: decode r0
                    end
                end
            | None => REPLACEMENT :: decode r0
            end
        | EmptyString => [REPLACEMENT]
        end
  end.

(** [s.isascii()] *)
Fixpoint isascii (s : string) : bool :=
  match s with
  | EmptyString => true
  | String c rest => (N_of_ascii c <? 0x80)%N && isascii rest
  end.

(** The characters of an ASCII text. *)
Definition points (s : string) : list N := map N_of_ascii (list_ascii_of_string s).

Definition encode_point (p : N) : string :=
  if (p <? 0x80)%N then String (ascii_of_N p) EmptyString
  else if (p <? 0x800)%N then
    String (ascii_of_N (0xC0 + p / 64))
      (String (ascii_of_N (0x80 + p mod 64)) EmptyString)
  else if (p <? 0x10000)%N then
    String (ascii_of_N (0xE0 + p / 4096))
      (String (ascii_of_N (0x80 + (p / 64) mod 64))
         (String (ascii_of_N (0x80 + p mod 64)) EmptyString))
  else
    String (ascii_of_N (0xF0 + p / 262144))
      (String (ascii_of_N (0x80 + (p / 4096) mod 64))
         (String (ascii_of_N (0x80 + (p / 64) mod 64))
            (String (ascii_of_N (0x80 + p mod 64)) EmptyString))).

Fixpoint encode (s : list N) : string :=
  match s with
  | [] => EmptyString
  | p :: rest => (encode_point p ++ encode rest)%string
  end.

Definition in_range (lo hi p : N) : bool := ((lo <=? p) && (p <=? hi))%N.

Definition in_ranges (ranges : list (N * N)) (p : N) : bool :=
  existsb (fun r => in_range (fst r) (snd r) p) ranges.

(** The character [p] occurs in [s]. *)
Definition has_point (p : N) (s : list N) : bool := existsb (N.eqb p) s.

Definition SLASH : N := 47.
Definition MINUS : N := 45.
Definition PLUS : N := 43.
Definition UNDERSCORE : N := 95.

(** *** [str.strip] and [str.split] *)

(** The characters for which [str.isspace] holds. *)
Definition SPACES : list (N * N) :=
  ([
   (0x9, 0xD); (0x1C, 0x20); (0x85, 0x85); (0xA0, 0xA0); (0x1680, 0x1680);
   (0x2000, 0x200A); (0x2028, 0x2029); (0x202F, 0x202F); (0x205F, 0x205F); (0x3000, 0x3000)
  ])%N.

Definition isspace (p : N) : bool := in_ranges SPACES p.

Fixpoint lstrip_by (blank : N -> bool) (s : list N) : list N :=
  match s with
  | [] => []
  | p :: rest => if blank p then lstrip_by blank rest else s
  end.

Fixpoint rstrip_by (blank : N -> bool) (s : list N) : list N :=
  match s with
  | [] => []
  | p :: rest =>
      match rstrip_by blank rest with
      | [] => if blank p then [] else [p]
      | r => p :: r
      end
  end.

Definition strip_by (blank : N -> bool) (s : list N) : list N :=
  lstrip_by blank (rstrip_by blank s).

(** [s.strip()] *)
Definition strip (s : list N) : list N := strip_by isspace s.

(** [s.split(sep)] for a one-character separator. *)
Fixpoint split (sep : N) (s : list N) : list (list N) :=
  match s with
  | [] => [[]]
  | p :: rest =>
      if (p =? sep)%N then [] :: split sep rest
      else match split sep rest with
           | h :: t => (p :: h) :: t
           | [] => [[p]]
           end
  end.

(** *** [int] *)

(** The zero of every run of ten decimal digits. *)
Definition DECIMAL_ZEROS : list N :=
  ([
   0x30; 0x660; 0x6F0; 0x7C0; 0x966; 0x9E6; 0xA66; 0xAE6; 0xB66; 0xBE6; 0xC66; 0xCE6;
   0xD66; 0xDE6; 0xE50; 0xED0; 0xF20; 0x1040; 0x1090; 0x17E0; 0x1810; 0x1946; 0x19D0;
   0x1A80; 0x1A90; 0x1B50; 0x1BB0; 0x1C40; 0x1C50; 0xA620; 0xA8D0; 0xA900; 0xA9D0; 0xA9F0;
   0xAA50; 0xABF0; 0xFF10; 0x104A0; 0x10D30; 0x11066; 0x110F0; 0x11136; 0x111D0; 0x112F0;
   0x11450; 0x114D0; 0x11650; 0x116C0; 0x11730; 0x118E0; 0x11950; 0x11C50; 0x11D50;
   0x11DA0; 0x16A60; 0x16AC0; 0x16B50; 0x1D7CE; 0x1D7D8; 0x1D7E2; 0x1D7EC; 0x1D7F6;
   0x1E140; 0x1E2F0; 0x1E950; 0x1FBF0
  ])%N.

(** The value of a decimal digit. *)
Definition decimal (p : N) : option Z :=
  match find (fun z => in_range z (z + 9) p) DECIMAL_ZEROS with
  | Some z => Some (Z.of_N (p - z))
  | None => None
  end.

Definition is_decimal (p : N) : bool :=
  match decimal p with
  | Some _ => true
  | None => false
  end.

(** The blanks that [int] skips around the numeral: tab to carriage return
    and the space, and the blanks outside ASCII. *)
Definition int_space (p : N) : bool :=
  in_range 9 13 p || (p =? 32)%N || ((127 <=? p)%N && isspace p).

(** The digits after the first one: [digit] or [_ digit], repeated. *)
Fixpoint digits_tail (acc : Z) (s : list N) : option Z :=
  match s with
  | [] => Some acc
  | p :: rest =>
      match decimal p with
      | Some d => digits_tail (10 * acc + d) rest
      | None =>
          if (p =? UNDERSCORE)%N then
            match rest with
            | p' :: rest' =>
                match decimal p' with
                | Some d => digits_tail (10 * acc + d) rest'
                | None => None
                end
            | [] => None
            end
          else None
      end
  end.

Definition digits (s : list N) : option Z :=
  match s with
  | p :: rest =>
      match decimal p with
      | Some d => digits_tail d rest
      | None => None
      end
  | [] => None
  end.

(** [sys.get_int_max_str_digits()] as the interpreter starts. *)
Definition INT_MAX_STR_DIGITS : nat := 4300.

Definition count_digits (s : list N) : nat := List.length (filter is_decimal s).

(** A numeral of more digits than the limit is refused. *)
Definition limited (s : list N) : option Z :=
  match digits s with
  | Some v => if (INT_MAX_STR_DIGITS <? count_digits s)%nat then None else Some v
  | None => None
  end.

(** [int(s)]: [None] stands for [ValueError]. *)
Definition int (s : list N) : option Z :=
  match strip_by int_space s with
  | p :: rest =>
      if (p =? MINUS)%N then option_map Z.opp (limited rest)
      else if (p =? PLUS)%N then limited rest
      else limited (p :: rest)
  | [] => None
  end.

(** *** [str.lower] *)

(** The characters [first], [first + step], ..., [last] are lowered by
    adding [delta]. *)
Record run : Type := mkRun {
  run_first : N;
  run_last : N;
  run_step : N;
  run_delta : Z
}.

Definition LOWER_RUNS : list run :=
  [
   mkRun 0x41 0x5A 1 32; mkRun 0xC0 0xD6 1 32; mkRun 0xD8 0xDE 1 32; mkRun 0x100 0x12E 2 1;
   mkRun 0x132 0x136 2 1; mkRun 0x139 0x147 2 1; mkRun 0x14A 0x176 2 1;
   mkRun 0x178 0x178 1 (-121); mkRun 0x179 0x17D 2 1; mkRun 0x181 0x181 1 210;
   mkRun 0x182 0x184 2 1; mkRun 0x186 0x186 1 206; mkRun 0x187 0x187 1 1;
   mkRun 0x189 0x18A 1 205; mkRun 0x18B 0x18B 1 1; mkRun 0x18E 0x18E 1 79;
   mkRun 0x18F 0x18F 1 202; mkRun 0x190 0x190 1 203; mkRun 0x191 0x191 1 1;
   mkRun 0x193 0x193 1 205; mkRun 0x194 0x194 1 207; mkRun 0x196 0x196 1 211;
   mkRun 0x197 0x197 1 209; mkRun 0x198 0x198 1 1; mkRun 0x19C 0x19C 1 211;
   mkRun 0x19D 0x19D 1 213; mkRun 0x19F 0x19F 1 214; mkRun 0x1A0 0x1A4 2 1;
   mkRun 0x1A6 0x1A6 1 218; mkRun 0x1A7 0x1A7 1 1; mkRun 0x1A9 0x1A9 1 218;
   mkRun 0x1AC 0x1AC 1 1; mkRun 0x1AE 0x1AE 1 218; mkRun 0x1AF 0x1AF 1 1;
   mkRun 0x1B1 0x1B2 1 217; mkRun 0x1B3 0x1B5 2 1; mkRun 0x1B7 0x1B7 1 219;
   mkRun 0x1B8 0x1B8 1 1; mkRun 0x1BC 0x1BC 1 1; mkRun 0x1C4 0x1C4 1 2;
   mkRun 0x1C5 0x1C5 1 1; mkRun 0x1C7 0x1C7 1 2; mkRun 0x1C8 0x1C8 1 1;
   mkRun 0x1CA 0x1CA 1 2; mkRun 0x1CB 0x1DB 2 1; mkRun 0x1DE 0x1EE 2 1;
   mkRun 0x1F1 0x1F1 1 2; mkRun 0x1F2 0x1F4 2 1; mkRun 0x1F6 0x1F6 1 (-97);
   mkRun 0x1F7 0x1F7 1 (-56); mkRun 0x1F8 0x21E 2 1; mkRun 0x220 0x220 1 (-130);
   mkRun 0x222 0x232 2 1; mkRun 0x23A 0x23A 1 10795; mkRun 0x23B 0x23B 1 1;
   mkRun 0x23D 0x23D 1 (-163); mkRun 0x23E 0x23E 1 10792; mkRun 0x241 0x241 1 1;
   mkRun 0x243 0x243 1 (-195); mkRun 0x244 0x244 1 69; mkRun 0x245 0x245 1 71;
   mkRun 0x246 0x24E 2 1; mkRun 0x370 0x372 2 1; mkRun 0x376 0x376 1 1;
   mkRun 0x37F 0x37F 1 116; mkRun 0x386 0x386 1 38; mkRun 0x388 0x38A 1 37;
   mkRun 0x38C 0x38C 1 64; mkRun 0x38E 0x38F 1 63; mkRun 0x391 0x3A1 1 32;
   mkRun 0x3A3 0x3AB 1 32; mkRun 0x3CF 0x3CF 1 8; mkRun 0x3D8 0x3EE 2 1;
   mkRun 0x3F4 0x3F4 1 (-60); mkRun 0x3F7 0x3F7 1 1; mkRun 0x3F9 0x3F9 1 (-7);
   mkRun 0x3FA 0x3FA 1 1; mkRun 0x3FD 0x3FF 1 (-130); mkRun 0x400 0x40F 1 80;
   mkRun 0x410 0x42F 1 32; mkRun 0x460 0x480 2 1; mkRun 0x48A 0x4BE 2 1;
   mkRun 0x4C0 0x4C0 1 15; mkRun 0x4C1 0x4CD 2 1; mkRun 0x4D0 0x52E 2 1;
   mkRun 0x531 0x556 1 48; mkRun 0x10A0 0x10C5 1 7264; mkRun 0x10C7 0x10C7 1 7264;
   mkRun 0x10CD 0x10CD 1 7264; mkRun 0x13A0 0x13EF 1 38864; mkRun 0x13F0 0x13F5 1 8;
   mkRun 0x1C90 0x1CBA 1 (-3008); mkRun 0x1CBD 0x1CBF 1 (-3008); mkRun 0x1E00 0x1E94 2 1;
   mkRun 0x1E9E 0x1E9E 1 (-7615); mkRun 0x1EA0 0x1EFE 2 1; mkRun 0x1F08 0x1F0F 1 (-8);
   mkRun 0x1F18 0x1F1D 1 (-8); mkRun 0x1F28 0x1F2F 1 (-8); mkRun 0x1F38 0x1F3F 1 (-8);
   mkRun 0x1F48 0x1F4D 1 (-8); mkRun 0x1F59 0x1F5F 2 (-8); mkRun 0x1F68 0x1F6F 1 (-8);
   mkRun 0x1F88 0x1F8F 1 (-8); mkRun 0x1F98 0x1F9F 1 (-8); mkRun 0x1FA8 0x1FAF 1 (-8);
   mkRun 0x1FB8 0x1FB9 1 (-8); mkRun 0x1FBA 0x1FBB 1 (-74); mkRun 0x1FBC 0x1FBC 1 (-9);
   mkRun 0x1FC8 0x1FCB 1 (-86); mkRun 0x1FCC 0x1FCC 1 (-9); mkRun 0x1FD8 0x1FD9 1 (-8);
   mkRun 0x1FDA 0x1FDB 1 (-100); mkRun 0x1FE8 0x1FE9 1 (-8); mkRun 0x1FEA 0x1FEB 1 (-112);
   mkRun 0x1FEC 0x1FEC 1 (-7); mkRun 0x1FF8 0x1FF9 1 (-128); mkRun 0x1FFA 0x1FFB 1 (-126);
   mkRun 0x1FFC 0x1FFC 1 (-9); mkRun 0x2126 0x2126 1 (-7517);
   mkRun 0x212A 0x212A 1 (-8383); mkRun 0x212B 0x212B 1 (-8262); mkRun 0x2132 0x2132 1 28;
   mkRun 0x2160 0x216F 1 16; mkRun 0x2183 0x2183 1 1; mkRun 0x24B6 0x24CF 1 26;
   mkRun 0x2C00 0x2C2F 1 48; mkRun 0x2C60 0x2C60 1 1; mkRun 0x2C62 0x2C62 1 (-10743);
   mkRun 0x2C63 0x2C63 1 (-3814); mkRun 0x2C64 0x2C64 1 (-10727); mkRun 0x2C67 0x2C6B 2 1;
   mkRun 0x2C6D 0x2C6D 1 (-10780); mkRun 0x2C6E 0x2C6E 1 (-10749);
   mkRun 0x2C6F 0x2C6F 1 (-10783); mkRun 0x2C70 0x2C70 1 (-10782); mkRun 0x2C72 0x2C72 1 1;
   mkRun 0x2C75 0x2C75 1 1; mkRun 0x2C7E 0x2C7F 1 (-10815); mkRun 0x2C80 0x2CE2 2 1;
   mkRun 0x2CEB 0x2CED 2 1; mkRun 0x2CF2 0x2CF2 1 1; mkRun 0xA640 0xA66C 2 1;
   mkRun 0xA680 0xA69A 2 1; mkRun 0xA722 0xA72E 2 1; mkRun 0xA732 0xA76E 2 1;
   mkRun 0xA779 0xA77B 2 1; mkRun 0xA77D 0xA77D 1 (-35332); mkRun 0xA77E 0xA786 2 1;
   mkRun 0xA78B 0xA78B 1 1; mkRun 0xA78D 0xA78D 1 (-42280); mkRun 0xA790 0xA792 2 1;
   mkRun 0xA796 0xA7A8 2 1; mkRun 0xA7AA 0xA7AA 1 (-42308); mkRun 0xA7AB 0xA7AB 1 (-42319);
   mkRun 0xA7AC 0xA7AC 1 (-42315); mkRun 0xA7AD 0xA7AD 1 (-42305);
   mkRun 0xA7AE 0xA7AE 1 (-42308); mkRun 0xA7B0 0xA7B0 1 (-42258);
   mkRun 0xA7B1 0xA7B1 1 (-42282); mkRun 0xA7B2 0xA7B2 1 (-42261);
   mkRun 0xA7B3 0xA7B3 1 928; mkRun 0xA7B4 0xA7C2 2 1; mkRun 0xA7C4 0xA7C4 1 (-48);
   mkRun 0xA7C5 0xA7C5 1 (-42307); mkRun 0xA7C6 0xA7C6 1 (-35384); mkRun 0xA7C7 0xA7C9 2 1;
   mkRun 0xA7D0 0xA7D0 1 1; mkRun 0xA7D6 0xA7D8 2 1; mkRun 0xA7F5 0xA7F5 1 1;
   mkRun 0xFF21 0xFF3A 1 32; mkRun 0x10400 0x10427 1 40; mkRun 0x104B0 0x104D3 1 40;
   mkRun 0x10570 0x1057A 1 39; mkRun 0x1057C 0x1058A 1 39; mkRun 0x1058C 0x10592 1 39;
   mkRun 0x10594 0x10595 1 39; mkRun 0x10C80 0x10CB2 1 64; mkRun 0x118A0 0x118BF 1 32;
   mkRun 0x16E40 0x16E5F 1 32; mkRun 0x1E900 0x1E921 1 34
  ].

Definition in_run (p : N) (r : run) : bool :=
  in_range (run_first r) (run_last r) p
  && (((p - run_first r) mod run_step r) =? 0)%N.

Definition lower_point (p : N) : N :=
  match find (in_run p) LOWER_RUNS with
  | Some r => Z.to_N (Z.of_N p + run_delta r)
  | None => p
  end.

(** The cased characters that are not case-ignorable, and the
    case-ignorable ones: the context of a capital sigma. *)
Definition CASED : list (N * N) :=
  ([
   (0x41, 0x5A); (0x61, 0x7A); (0xAA, 0xAA); (0xB5, 0xB5); (0xBA, 0xBA); (0xC0, 0xD6);
   (0xD8, 0xF6); (0xF8, 0x1BA); (0x1BC, 0x1BF); (0x1C4, 0x293); (0x295, 0x2AF);
   (0x370, 0x373); (0x376, 0x377); (0x37B, 0x37D); (0x37F, 0x37F); (0x386, 0x386);
   (0x388, 0x38A); (0x38C, 0x38C); (0x38E, 0x3A1); (0x3A3, 0x3F5); (0x3F7, 0x481);
   (0x48A, 0x52F); (0x531, 0x556); (0x560, 0x588); (0x10A0, 0x10C5); (0x10C7, 0x10C7);
   (0x10CD, 0x10CD); (0x10D0, 0x10FA); (0x10FD, 0x10FF); (0x13A0, 0x13F5);
   (0x13F8, 0x13FD); (0x1C80, 0x1C88); (0x1C90, 0x1CBA); (0x1CBD, 0x1CBF);
   (0x1D00, 0x1D2B); (0x1D6B, 0x1D77); (0x1D79, 0x1D9A); (0x1E00, 0x1F15);
   (0x1F18, 0x1F1D); (0x1F20, 0x1F45); (0x1F48, 0x1F4D); (0x1F50, 0x1F57);
   (0x1F59, 0x1F59); (0x1F5B, 0x1F5B); (0x1F5D, 0x1F5D); (0x1F5F, 0x1F7D);
   (0x1F80, 0x1FB4); (0x1FB6, 0x1FBC); (0x1FBE, 0x1FBE); (0x1FC2, 0x1FC4);
   (0x1FC6, 0x1FCC); (0x1FD0, 0x1FD3); (0x1FD6, 0x1FDB); (0x1FE0, 0x1FEC);
   (0x1FF2, 0x1FF4); (0x1FF6, 0x1FFC); (0x2102, 0x2102); (0x2107, 0x2107);
   (0x210A, 0x2113); (0x2115, 0x2115); (0x2119, 0x211D); (0x2124, 0x2124);
   (0x2126, 0x2126); (0x2128, 0x2128); (0x212A, 0x212D); (0x212F, 0x2134);
   (0x2139, 0x2139); (0x213C, 0x213F); (0x2145, 0x2149); (0x214E, 0x214E);
   (0x2160, 0x217F); (0x2183, 0x2184); (0x24B6, 0x24E9); (0x2C00, 0x2C7B);
   (0x2C7E, 0x2CE4); (0x2CEB, 0x2CEE); (0x2CF2, 0x2CF3); (0x2D00, 0x2D25);
   (0x2D27, 0x2D27); (0x2D2D, 0x2D2D); (0xA640, 0xA66D); (0xA680, 0xA69B);
   (0xA722, 0xA76F); (0xA771, 0xA787); (0xA78B, 0xA78E); (0xA790, 0xA7CA);
   (0xA7D0, 0xA7D1); (0xA7D3, 0xA7D3); (0xA7D5, 0xA7D9); (0xA7F5, 0xA7F6);
   (0xA7FA, 0xA7FA); (0xAB30, 0xAB5A); (0xAB60, 0xAB68); (0xAB70, 0xABBF);
   (0xFB00, 0xFB06); (0xFB13, 0xFB17); (0xFF21, 0xFF3A); (0xFF41, 0xFF5A);
   (0x10400, 0x1044F); (0x104B0, 0x104D3); (0x104D8, 0x104FB); (0x10570, 0x1057A);
   (0x1057C, 0x1058A); (0x1058C, 0x10592); (0x10594, 0x10595); (0x10597, 0x105A1);
   (0x105A3, 0x105B1); (0x105B3, 0x105B9); (0x105BB, 0x105BC); (0x10C80, 0x10CB2);
   (0x10CC0, 0x10CF2); (0x118A0, 0x118DF); (0x16E40, 0x16E7F); (0x1D400, 0x1D454);
   (0x1D456, 0x1D49C); (0x1D49E, 0x1D49F); (0x1D4A2, 0x1D4A2); (0x1D4A5, 0x1D4A6);
   (0x1D4A9, 0x1D4AC); (0x1D4AE, 0x1D4B9); (0x1D4BB, 0x1D4BB); (0x1D4BD, 0x1D4C3);
   (0x1D4C5, 0x1D505); (0x1D507, 0x1D50A); (0x1D50D, 0x1D514); (0x1D516, 0x1D51C);
   (0x1D51E, 0x1D539); (0x1D53B, 0x1D53E); (0x1D540, 0x1D544); (0x1D546, 0x1D546);
   (0x1D54A, 0x1D550); (0x1D552, 0x1D6A5); (0x1D6A8, 0x1D6C0); (0x1D6C2, 0x1D6DA);
   (0x1D6DC, 0x1D6FA); (0x1D6FC, 0x1D714); (0x1D716, 0x1D734); (0x1D736, 0x1D74E);
   (0x1D750, 0x1D76E); (0x1D770, 0x1D788); (0x1D78A, 0x1D7A8); (0x1D7AA, 0x1D7C2);
   (0x1D7C4, 0x1D7CB); (0x1DF00, 0x1DF09); (0x1DF0B, 0x1DF1E); (0x1E900, 0x1E943);
   (0x1F130, 0x1F149); (0x1F150, 0x1F169); (0x1F170, 0x1F189)
  ])%N.

Definition CASE_IGNORABLE : list (N * N) :=
  ([
   (0x27, 0x27); (0x2E, 0x2E); (0x3A, 0x3A); (0x5E, 0x5E); (0x60, 0x60); (0xA8, 0xA8);
   (0xAD, 0xAD); (0xAF, 0xAF); (0xB4, 0xB4); (0xB7, 0xB8); (0x2B0, 0x36F); (0x374, 0x375);
   (0x37A, 0x37A); (0x384, 0x385); (0x387, 0x387); (0x483, 0x489); (0x559, 0x559);
   (0x55F, 0x55F); (0x591, 0x5BD); (0x5BF, 0x5BF); (0x5C1, 0x5C2); (0x5C4, 0x5C5);
   (0x5C7, 0x5C7); (0x5F4, 0x5F4); (0x600, 0x605); (0x610, 0x61A); (0x61C, 0x61C);
   (0x640, 0x640); (0x64B, 0x65F); (0x670, 0x670); (0x6D6, 0x6DD); (0x6DF, 0x6E8);
   (0x6EA, 0x6ED); (0x70F, 0x70F); (0x711, 0x711); (0x730, 0x74A); (0x7A6, 0x7B0);
   (0x7EB, 0x7F5); (0x7FA, 0x7FA); (0x7FD, 0x7FD); (0x816, 0x82D); (0x859, 0x85B);
   (0x888, 0x888); (0x890, 0x891); (0x898, 0x89F); (0x8C9, 0x902); (0x93A, 0x93A);
   (0x93C, 0x93C); (0x941, 0x948); (0x94D, 0x94D); (0x951, 0x957); (0x962, 0x963);
   (0x971, 0x971); (0x981, 0x981); (0x9BC, 0x9BC); (0x9C1, 0x9C4); (0x9CD, 0x9CD);
   (0x9E2, 0x9E3); (0x9FE, 0x9FE); (0xA01, 0xA02); (0xA3C, 0xA3C); (0xA41, 0xA42);
   (0xA47, 0xA48); (0xA4B, 0xA4D); (0xA51, 0xA51); (0xA70, 0xA71); (0xA75, 0xA75);
   (0xA81, 0xA82); (0xABC, 0xABC); (0xAC1, 0xAC5); (0xAC7, 0xAC8); (0xACD, 0xACD);
   (0xAE2, 0xAE3); (0xAFA, 0xAFF); (0xB01, 0xB01); (0xB3C, 0xB3C); (0xB3F, 0xB3F);
   (0xB41, 0xB44); (0xB4D, 0xB4D); (0xB55, 0xB56); (0xB62, 0xB63); (0xB82, 0xB82);
   (0xBC0, 0xBC0); (0xBCD, 0xBCD); (0xC00, 0xC00); (0xC04, 0xC04); (0xC3C, 0xC3C);
   (0xC3E, 0xC40); (0xC46, 0xC48); (0xC4A, 0xC4D); (0xC55, 0xC56); (0xC62, 0xC63);
   (0xC81, 0xC81); (0xCBC, 0xCBC); (0xCBF, 0xCBF); (0xCC6, 0xCC6); (0xCCC, 0xCCD);
   (0xCE2, 0xCE3); (0xD00, 0xD01); (0xD3B, 0xD3C); (0xD41, 0xD44); (0xD4D, 0xD4D);
   (0xD62, 0xD63); (0xD81, 0xD81); (0xDCA, 0xDCA); (0xDD2, 0xDD4); (0xDD6, 0xDD6);
   (0xE31, 0xE31); (0xE34, 0xE3A); (0xE46, 0xE4E); (0xEB1, 0xEB1); (0xEB4, 0xEBC);
   (0xEC6, 0xEC6); (0xEC8, 0xECD); (0xF18, 0xF19); (0xF35, 0xF35); (0xF37, 0xF37);
   (0xF39, 0xF39); (0xF71, 0xF7E); (0xF80, 0xF84); (0xF86, 0xF87); (0xF8D, 0xF97);
   (0xF99, 0xFBC); (0xFC6, 0xFC6); (0x102D, 0x1030); (0x1032, 0x1037); (0x1039, 0x103A);
   (0x103D, 0x103E); (0x1058, 0x1059); (0x105E, 0x1060); (0x1071, 0x1074);
   (0x1082, 0x1082); (0x1085, 0x1086); (0x108D, 0x108D); (0x109D, 0x109D);
   (0x10FC, 0x10FC); (0x135D, 0x135F); (0x1712, 0x1714); (0x1732, 0x1733);
   (0x1752, 0x1753); (0x1772, 0x1773); (0x17B4, 0x17B5); (0x17B7, 0x17BD);
   (0x17C6, 0x17C6); (0x17C9, 0x17D3); (0x17D7, 0x17D7); (0x17DD, 0x17DD);
   (0x180B, 0x180F); (0x1843, 0x1843); (0x1885, 0x1886); (0x18A9, 0x18A9);
   (0x1920, 0x1922); (0x1927, 0x1928); (0x1932, 0x1932); (0x1939, 0x193B);
   (0x1A17, 0x1A18); (0x1A1B, 0x1A1B); (0x1A56, 0x1A56); (0x1A58, 0x1A5E);
   (0x1A60, 0x1A60); (0x1A62, 0x1A62); (0x1A65, 0x1A6C); (0x1A73, 0x1A7C);
   (0x1A7F, 0x1A7F); (0x1AA7, 0x1AA7); (0x1AB0, 0x1ACE); (0x1B00, 0x1B03);
   (0x1B34, 0x1B34); (0x1B36, 0x1B3A); (0x1B3C, 0x1B3C); (0x1B42, 0x1B42);
   (0x1B6B, 0x1B73); (0x1B80, 0x1B81); (0x1BA2, 0x1BA5); (0x1BA8, 0x1BA9);
   (0x1BAB, 0x1BAD); (0x1BE6, 0x1BE6); (0x1BE8, 0x1BE9); (0x1BED, 0x1BED);
   (0x1BEF, 0x1BF1); (0x1C2C, 0x1C33); (0x1C36, 0x1C37); (0x1C78, 0x1C7D);
   (0x1CD0, 0x1CD2); (0x1CD4, 0x1CE0); (0x1CE2, 0x1CE8); (0x1CED, 0x1CED);
   (0x1CF4, 0x1CF4); (0x1CF8, 0x1CF9); (0x1D2C, 0x1D6A); (0x1D78, 0x1D78);
   (0x1D9B, 0x1DFF); (0x1FBD, 0x1FBD); (0x1FBF, 0x1FC1); (0x1FCD, 0x1FCF);
   (0x1FDD, 0x1FDF); (0x1FED, 0x1FEF); (0x1FFD, 0x1FFE); (0x200B, 0x200F);
   (0x2018, 0x2019); (0x2024, 0x2024); (0x2027, 0x2027); (0x202A, 0x202E);
   (0x2060, 0x2064); (0x2066, 0x206F); (0x2071, 0x2071); (0x207F, 0x207F);
   (0x2090, 0x209C); (0x20D0, 0x20F0); (0x2C7C, 0x2C7D); (0x2CEF, 0x2CF1);
   (0x2D6F, 0x2D6F); (0x2D7F, 0x2D7F); (0x2DE0, 0x2DFF); (0x2E2F, 0x2E2F);
   (0x3005, 0x3005); (0x302A, 0x302D); (0x3031, 0x3035); (0x303B, 0x303B);
   (0x3099, 0x309E); (0x30FC, 0x30FE); (0xA015, 0xA015); (0xA4F8, 0xA4FD);
   (0xA60C, 0xA60C); (0xA66F, 0xA672); (0xA674, 0xA67D); (0xA67F, 0xA67F);
   (0xA69C, 0xA69F); (0xA6F0, 0xA6F1); (0xA700, 0xA721); (0xA770, 0xA770);
   (0xA788, 0xA78A); (0xA7F2, 0xA7F4); (0xA7F8, 0xA7F9); (0xA802, 0xA802);
   (0xA806, 0xA806); (0xA80B, 0xA80B); (0xA825, 0xA826); (0xA82C, 0xA82C);
   (0xA8C4, 0xA8C5); (0xA8E0, 0xA8F1); (0xA8FF, 0xA8FF); (0xA926, 0xA92D);
   (0xA947, 0xA951); (0xA980, 0xA982); (0xA9B3, 0xA9B3); (0xA9B6, 0xA9B9);
   (0xA9BC, 0xA9BD); (0xA9CF, 0xA9CF); (0xA9E5, 0xA9E6); (0xAA29, 0xAA2E);
   (0xAA31, 0xAA32); (0xAA35, 0xAA36); (0xAA43, 0xAA43); (0xAA4C, 0xAA4C);
   (0xAA70, 0xAA70); (0xAA7C, 0xAA7C); (0xAAB0, 0xAAB0); (0xAAB2, 0xAAB4);
   (0xAAB7, 0xAAB8); (0xAABE, 0xAABF); (0xAAC1, 0xAAC1); (0xAADD, 0xAADD);
   (0xAAEC, 0xAAED); (0xAAF3, 0xAAF4); (0xAAF6, 0xAAF6); (0xAB5B, 0xAB5F);
   (0xAB69, 0xAB6B); (0xABE5, 0xABE5); (0xABE8, 0xABE8); (0xABED, 0xABED);
   (0xFB1E, 0xFB1E); (0xFBB2, 0xFBC2); (0xFE00, 0xFE0F); (0xFE13, 0xFE13);
   (0xFE20, 0xFE2F); (0xFE52, 0xFE52); (0xFE55, 0xFE55); (0xFEFF, 0xFEFF);
   (0xFF07, 0xFF07); (0xFF0E, 0xFF0E); (0xFF1A, 0xFF1A); (0xFF3E, 0xFF3E);
   (0xFF40, 0xFF40); (0xFF70, 0xFF70); (0xFF9E, 0xFF9F); (0xFFE3, 0xFFE3);
   (0xFFF9, 0xFFFB); (0x101FD, 0x101FD); (0x102E0, 0x102E0); (0x10376, 0x1037A);
   (0x10780, 0x10785); (0x10787, 0x107B0); (0x107B2, 0x107BA); (0x10A01, 0x10A03);
   (0x10A05, 0x10A06); (0x10A0C, 0x10A0F); (0x10A38, 0x10A3A); (0x10A3F, 0x10A3F);
   (0x10AE5, 0x10AE6); (0x10D24, 0x10D27); (0x10EAB, 0x10EAC); (0x10F46, 0x10F50);
   (0x10F82, 0x10F85); (0x11001, 0x11001); (0x11038, 0x11046); (0x11070, 0x11070);
   (0x11073, 0x11074); (0x1107F, 0x11081); (0x110B3, 0x110B6); (0x110B9, 0x110BA);
   (0x110BD, 0x110BD); (0x110C2, 0x110C2); (0x110CD, 0x110CD); (0x11100, 0x11102);
   (0x11127, 0x1112B); (0x1112D, 0x11134); (0x11173, 0x11173); (0x11180, 0x11181);
   (0x111B6, 0x111BE); (0x111C9, 0x111CC); (0x111CF, 0x111CF); (0x1122F, 0x11231);
   (0x11234, 0x11234); (0x11236, 0x11237); (0x1123E, 0x1123E); (0x112DF, 0x112DF);
   (0x112E3, 0x112EA); (0x11300, 0x11301); (0x1133B, 0x1133C); (0x11340, 0x11340);
   (0x11366, 0x1136C); (0x11370, 0x11374); (0x11438, 0x1143F); (0x11442, 0x11444);
   (0x11446, 0x11446); (0x1145E, 0x1145E); (0x114B3, 0x114B8); (0x114BA, 0x114BA);
   (0x114BF, 0x114C0); (0x114C2, 0x114C3); (0x115B2, 0x115B5); (0x115BC, 0x115BD);
   (0x115BF, 0x115C0); (0x115DC, 0x115DD); (0x11633, 0x1163A); (0x1163D, 0x1163D);
   (0x1163F, 0x11640); (0x116AB, 0x116AB); (0x116AD, 0x116AD); (0x116B0, 0x116B5);
   (0x116B7, 0x116B7); (0x1171D, 0x1171F); (0x11722, 0x11725); (0x11727, 0x1172B);
   (0x1182F, 0x11837); (0x11839, 0x1183A); (0x1193B, 0x1193C); (0x1193E, 0x1193E);
   (0x11943, 0x11943); (0x119D4, 0x119D7); (0x119DA, 0x119DB); (0x119E0, 0x119E0);
   (0x11A01, 0x11A0A); (0x11A33, 0x11A38); (0x11A3B, 0x11A3E); (0x11A47, 0x11A47);
   (0x11A51, 0x11A56); (0x11A59, 0x11A5B); (0x11A8A, 0x11A96); (0x11A98, 0x11A99);
   (0x11C30, 0x11C36); (0x11C38, 0x11C3D); (0x11C3F, 0x11C3F); (0x11C92, 0x11CA7);
   (0x11CAA, 0x11CB0); (0x11CB2, 0x11CB3); (0x11CB5, 0x11CB6); (0x11D31, 0x11D36);
   (0x11D3A, 0x11D3A); (0x11D3C, 0x11D3D); (0x11D3F, 0x11D45); (0x11D47, 0x11D47);
   (0x11D90, 0x11D91); (0x11D95, 0x11D95); (0x11D97, 0x11D97); (0x11EF3, 0x11EF4);
   (0x13430, 0x13438); (0x16AF0, 0x16AF4); (0x16B30, 0x16B36); (0x16B40, 0x16B43);
   (0x16F4F, 0x16F4F); (0x16F8F, 0x16F9F); (0x16FE0, 0x16FE1); (0x16FE3, 0x16FE4);
   (0x1AFF0, 0x1AFF3); (0x1AFF5, 0x1AFFB); (0x1AFFD, 0x1AFFE); (0x1BC9D, 0x1BC9E);
   (0x1BCA0, 0x1BCA3); (0x1CF00, 0x1CF2D); (0x1CF30, 0x1CF46); (0x1D167, 0x1D169);
   (0x1D173, 0x1D182); (0x1D185, 0x1D18B); (0x1D1AA, 0x1D1AD); (0x1D242, 0x1D244);
   (0x1DA00, 0x1DA36); (0x1DA3B, 0x1DA6C); (0x1DA75, 0x1DA75); (0x1DA84, 0x1DA84);
   (0x1DA9B, 0x1DA9F); (0x1DAA1, 0x1DAAF); (0x1E000, 0x1E006); (0x1E008, 0x1E018);
   (0x1E01B, 0x1E021); (0x1E023, 0x1E024); (0x1E026, 0x1E02A); (0x1E130, 0x1E13D);
   (0x1E2AE, 0x1E2AE); (0x1E2EC, 0x1E2EF); (0x1E8D0, 0x1E8D6); (0x1E944, 0x1E94B);
   (0x1F3FB, 0x1F3FF); (0xE0001, 0xE0001); (0xE0020, 0xE007F); (0xE0100, 0xE01EF)
  ])%N.

Definition SIGMA : N := 0x3A3.
Definition SMALL_SIGMA : N := 0x3C3.
Definition FINAL_SIGMA : N := 0x3C2.
Definition DOTTED_I : N := 0x130.

(** A cased character comes before the sigma and none comes after it,
    case-ignorable characters aside; [before] is read backwards. *)
Definition final_sigma (before after : list N) : bool :=
  match lstrip_by (in_ranges CASE_IGNORABLE) before with
  | p :: _ => in_ranges CASED p
  | [] => false
  end
  && match lstrip_by (in_ranges CASE_IGNORABLE) after with
     | p :: _ => negb (in_ranges CASED p)
     | [] => true
     end.

Fixpoint lower_from (before s : list N) : list N :=
  match s with
  | [] => []
  | p :: rest =>
      (if (p =? SIGMA)%N then
         [if final_sigma before rest then FINAL_SIGMA else SMALL_SIGMA]
       else if (p =? DOTTED_I)%N then [0x69; 0x307]%N
       else [lower_point p])
      ++ lower_from (p :: before) rest
  end.

(** [s.lower()] *)
Definition lower (s : string) : string := encode (lower_from [] (decode s)).

(** [str(z)] for an integer: the decimal numeral, ["-"] in front of a
    negative one. *)
Definition str_of_Z (z : Z) : string := NilZero.string_of_int (Z.to_int z).

End PyStr.

(** The whitespace-separated tokens of a class attribute, as the
    specification speaks of them (HTML's ASCII whitespace: tab, line feed,
    form feed, carriage return, space). *)
Definition is_html_space (c : ascii) : bool :=
  let n := nat_of_ascii c in
  ((n =? 9) || (n =? 10) || (n =? 12) || (n =? 13) || (n =? 32))%nat.

Fixpoint class_tokens (s : string) : list string :=
  match s with
  | EmptyString => []
  | String c rest =>
      if is_html_space c then class_tokens rest
      else match rest with
           | EmptyString => [String c EmptyString]
           | String c' _ =>
               if is_html_space c' then String c EmptyString :: class_tokens rest
               else match class_tokens rest with
                    | t :: ts => String c t :: ts
                    | [] => [String c EmptyString]
                    end
           end
  end.

(** ** Progress indicator and lesson marker (lines 382-388, 395, 457) *)

Inductive exn : Type :=
| PlaywrightError
| ValueError
| AttributeError
| IndexError.

(** Lines 382-388 on the characters of the text: [count_text.strip()],
    then the two-way unpacking of [split('/')] and the two [int]
    conversions; without a separator the pair is (0, 0). *)
Definition parse_points (count_text : list N) : exn + (Z * Z) :=
  let count_text := PyStr.strip count_text in
  if PyStr.has_point PyStr.SLASH count_text then
    match PyStr.split PyStr.SLASH count_text with
    | [finished; total] =>
        match PyStr.int finished with
        | Some finished =>
            match PyStr.int total with
            | Some total => inr (finished, total)
            | None => inl ValueError
            end
        | None => inl ValueError
        end
    | _ => inl ValueError
    end
  else inr (0, 0).

(** Lines 382-388. *)
Definition parse_progress (count_text : string) : exn + (Z * Z) :=
  parse_points (PyStr.decode count_text).

(** Line 395: [finished >= total and total > 0]. *)
Definition module_completed (finished total : Z) : bool :=
  (finished >=? total) && (total >? 0).

(** Line 457: ['passed' in item_class if item_class else False]. *)
Definition is_passed (item_class : option string) : bool :=
  match item_class with
  | Some c => if String.eqb c "" then false else PyStr.contains "passed" c
  | None => false
  end.

(** The progress text as the specification words it: blanks around the
    text aside, exactly two integer components around one separator. *)
Definition two_integers (s : list N) : option (Z * Z) :=
  match PyStr.split PyStr.SLASH (PyStr.strip s) with
  | [x; y] =>
      match PyStr.int x, PyStr.int y with
      | Some a, Some b => Some (a, b)
      | _, _ => None
      end
  | _ => None
  end.

(** The number of digits of the decimal numeral of [z]. *)
Definition numeral_digits (z : Z) : nat :=
  String.length (PyStr.str_of_Z (Z.abs z)).

(** The lesson marker as the specification words it: "passed" is one of the
    class tokens. *)
Definition passed_token (item_class : option string) : bool :=
  match item_class with
  | Some c => existsb (String.eqb "passed") (class_tokens c)
  | None => false
  end.

(** ** The browser capability *)

Class Handles : Type := {
  Elem : Type;                       (* ElementHandle *)
  Frame : Type;                      (* Frame *)
  frame_url : Frame -> string        (* frame.url *)
}.

(** The awaited Playwright calls of the loop, indexed by what they return. *)
Inductive browserE `{Handles} : Type -> Type :=
| PageQuerySelectorAll (sel : string) : browserE (list Elem)
| PageQuerySelector (sel : string) : browserE (option Elem)
| PageWaitForLoadState (state : string) : browserE unit
| PageGoBack : browserE unit
| ElemQuerySelector (e : Elem) (sel : string) : browserE (option Elem)
| ElemQuerySelectorAll (e : Elem) (sel : string) : browserE (list Elem)
| ElemGetAttribute (e : Elem) (name : string) : browserE (option string)
| ElemTextContent (e : Elem) : browserE (option string)
| ElemIsVisible (e : Elem) : browserE bool
| ElemScrollIntoViewIfNeeded (e : Elem) : browserE unit
| ElemClick (e : Elem) (force : bool) : browserE unit
| ElemEvaluate (e : Elem) (js : string) : browserE unit
| FrameQuerySelector (f : Frame) (sel : string) : browserE (option Elem)
| FrameQuerySelectorAll (f : Frame) (sel : string) : browserE (list Elem)
| FrameWaitForSelector (f : Frame) (sel : string) : browserE unit
| FrameIsVisible (f : Frame) (sel : string) : browserE bool
| FrameClick (f : Frame) (sel : string) : browserE unit
| FrameEvaluateBool (f : Frame) (js : string) : browserE bool
| FrameEvaluate (f : Frame) (js : string) : browserE unit.

Class Browser `{Handles} : Type := {
  World : Type;
  perform : forall R, browserE R -> World -> (exn + R) * World;
  page_frames : World -> list Frame;   (* page.frames *)
  page_url : World -> string;          (* page.url *)
  main_frame : World -> Frame          (* page.main_frame *)
}.

(** One call as it happened: the event and the browser's answer. *)
Inductive entry `{Handles} : Type :=
| Called (R : Type) (e : browserE R) (r : exn + R).

Arguments Called {_ _} e r.

(** ** Frame Resolver (lines 542-582) *)

Section FrameResolver.
Context `{Handles}.

Definition MCWK_DOMAIN : string := "mcwk.mycourse.cn".
Definition WEIBAN_DOMAIN : string := "weiban.mycourse.cn".

(** [not frame_url or frame_url == 'about:blank' or 'javascript:' in frame_url] *)
Definition placeholder (frame_url : string) : bool :=
  String.eqb frame_url "" || String.eqb frame_url "about:blank"
  || PyStr.contains "javascript:" frame_url.

(** First loop, lines 544-555. *)
Fixpoint find_mcwk (frames : list Frame) : option Frame :=
  match frames with
  | [] => None
  | frame :: rest =>
      if placeholder (frame_url frame) then find_mcwk rest
      else if PyStr.contains MCWK_DOMAIN (frame_url frame) then Some frame
      else find_mcwk rest
  end.

(** Second loop, lines 559-572. *)
Fixpoint find_course (frames : list Frame) : option Frame :=
  match frames with
  | [] => None
  | frame :: rest =>
      if placeholder (frame_url frame) then find_course rest
      else if PyStr.contains WEIBAN_DOMAIN (frame_url frame) then find_course rest
      else if PyStr.contains "/course/" (PyStr.lower (frame_url frame)) then Some frame
      else find_course rest
  end.

(** Third loop, lines 576-582. *)
Fixpoint find_first_valid (url : string) (frames : list Frame) : option Frame :=
  match frames with
  | [] => None
  | frame :: rest =>
      if negb (String.eqb (frame_url frame) "")
         && negb (String.eqb (frame_url frame) url)
         && negb (PyStr.contains "javascript:" (frame_url frame))
         && negb (String.eqb (frame_url frame) "about:blank")
      then Some frame
      else find_first_valid url rest
  end.

(** The three loops in sequence, each guarded by [if not iframe]. *)
Definition resolve_iframe (url : string) (frames : list Frame) : option Frame :=
  match find_mcwk frames with
  | Some f => Some f
  | None =>
      match find_course frames with
      | Some f => Some f
      | None => find_first_valid url frames
      end
  end.

(** The three loops as one ranked choice: drop the placeholder frames, then
    the first match of the highest-ranked test. *)
Definition on_content_domain (f : Frame) : bool :=
  PyStr.contains MCWK_DOMAIN (frame_url f).

Definition course_path_off_main (f : Frame) : bool :=
  negb (PyStr.contains WEIBAN_DOMAIN (frame_url f))
  && PyStr.contains "/course/" (PyStr.lower (frame_url f)).

Definition not_main_page (url : string) (f : Frame) : bool :=
  negb (String.eqb (frame_url f) url).

Definition candidates (frames : list Frame) : list Frame :=
  filter (fun f => negb (placeholder (frame_url f))) frames.

Definition resolve_ranked (url : string) (frames : list Frame) : option Frame :=
  match find on_content_domain (candidates frames) with
  | Some f => Some f
  | None =>
      match find course_path_off_main (candidates frames) with
      | Some f => Some f
      | None => find (not_main_page url) (candidates frames)
      end
  end.
End FrameResolver.

(** Frames identified by their address alone. *)
Definition UrlHandles : Handles :=
  {| Elem := nat; Frame := string; frame_url := fun u => u |}.

(** ** The resolver as the specification words it

    The specification speaks of addresses as URLs: a frame "on a domain" is
    one whose host is the domain, a "script pseudo-URL" is an address of
    the scheme javascript, and the "path" is what follows the host, up to
    the query. *)

(** The text after the first "://". *)
Fixpoint after_scheme (u : string) : option string :=
  match u with
  | String ":" (String "/" (String "/" rest)) => Some rest
  | String _ rest => after_scheme rest
  | EmptyString => None
  end.

Definition ends_authority (c : ascii) : bool :=
  Ascii.eqb c "/" || Ascii.eqb c "?" || Ascii.eqb c "#".

Definition ends_path (c : ascii) : bool :=
  Ascii.eqb c "?" || Ascii.eqb c "#".

Fixpoint take_until (stop : ascii -> bool) (s : string) : string :=
  match s with
  | EmptyString => EmptyString
  | String c rest => if stop c then EmptyString else String c (take_until stop rest)
  end.

Fixpoint drop_until (stop : ascii -> bool) (s : string) : string :=
  match s with
  | EmptyString => EmptyString
  | String c rest => if stop c then s else drop_until stop rest
  end.

Definition url_host (u : string) : string :=
  match after_scheme u with
  | Some r => take_until ends_authority r
  | None => EmptyString
  end.

Definition url_path (u : string) : string :=
  match after_scheme u with
  | Some r => take_until ends_path (drop_until ends_authority r)
  | None => EmptyString
  end.

(** The parts of a path between its slashes. *)
Fixpoint segments (path : string) : list string :=
  match path with
  | EmptyString => [EmptyString]
  | String c rest =>
      if Ascii.eqb c "/" then EmptyString :: segments rest
      else match segments rest with
           | h :: t => String c h :: t
           | [] => [String c EmptyString]
           end
  end.

Definition script_pseudo_url (u : string) : bool := String.prefix "javascript:" u.

Definition excluded_address (u : string) : bool :=
  String.eqb u EmptyString || String.eqb u "about:blank" || script_pseudo_url u.

Definition hosted_on (domain u : string) : bool := String.eqb (url_host u) domain.

Definition has_course_segment (u : string) : bool :=
  existsb (String.eqb "course") (segments (url_path u)).

Section ResolverByWords.
Context `{Handles}.

Definition resolve_by_words (url : string) (frames : list Frame) : option Frame :=
  let listed := filter (fun f => negb (excluded_address (frame_url f))) frames in
  match find (fun f => hosted_on "mcwk.mycourse.cn" (frame_url f)) listed with
  | Some f => Some f
  | None =>
      match find (fun f => negb (hosted_on "weiban.mycourse.cn" (frame_url f))
                           && has_course_segment (frame_url f)) listed with
      | Some f => Some f
      | None => find (fun f => negb (String.eqb (frame_url f) url)) listed
      end
  end.

(** The substring tests of the code and the words of the specification
    say the same of the frame's address. *)
Definition reads_alike (f : Frame) : bool :=
  Bool.eqb (placeholder (frame_url f)) (excluded_address (frame_url f))
  && Bool.eqb (on_content_domain f) (hosted_on "mcwk.mycourse.cn" (frame_url f))
  && Bool.eqb (course_path_off_main f)
              (negb (hosted_on "weiban.mycourse.cn" (frame_url f))
               && has_course_segment (frame_url f)).
End ResolverByWords.

(** ** The monad of the loop: locals, world, exceptions, the calls made *)

Inductive res (A : Type) : Type :=
| Ok (a : A)
| Raise (e : exn)
| OutOfFuel.

Arguments Ok {A} a.
Arguments Raise {A} e.
Arguments OutOfFuel {A}.

(** [break] and [continue] of a [while] body; falling off the end of the
    body is [Continue]. *)
Inductive ctl : Type := Break | Continue.

Section Monad.
Context `{Browser}.

Record locals : Type := mkLocals {
  module_index : nat;
  completed_count : nat;
  title_button : option Elem
}.

Definition state : Type := locals * World.

Definition M (A : Type) : Type := state -> res A * state * list entry.

Definition ret {A} (a : A) : M A := fun s => (Ok a, s, []).

Definition bind {A B} (m : M A) (k : A -> M B) : M B :=
  fun s =>
    match m s with
    | (Ok a, s1, t1) =>
        match k a s1 with
        | (r, s2, t2) => (r, s2, t1 ++ t2)
        end
    | (Raise e, s1, t1) => (Raise e, s1, t1)
    | (OutOfFuel, s1, t1) => (OutOfFuel, s1, t1)
    end.

Definition raise {A} (e : exn) : M A := fun s => (Raise e, s, []).

Definition out_of_fuel {A} : M A := fun s => (OutOfFuel, s, []).

(** [try: m except Exception: h] (and the bare [except:]). *)
Definition try_catch {A} (m : M A) (h : exn -> M A) : M A :=
  fun s =>
    match m s with
    | (Raise e, s1, t1) =>
        match h e s1 with
        | (r, s2, t2) => (r, s2, t1 ++ t2)
        end
    | other => other
    end.

(** [await] of one Playwright call. *)
Definition call {R} (e : browserE R) : M R :=
  fun s =>
    match perform R e (snd s) with
    | (inr v, w) => (Ok v, (fst s, w), [Called e (inr v)])
    | (inl x, w) => (Raise x, (fst s, w), [Called e (inl x)])
    end.

Definition lift {A} (r : exn + A) : M A :=
  match r with
  | inr a => ret a
  | inl e => raise e
  end.

Definition get_locals : M locals := fun s => (Ok (fst s), s, []).
Definition get_world : M World := fun s => (Ok (snd s), s, []).

Definition set_title_button (b : option Elem) : M unit :=
  fun s => (Ok tt, (mkLocals (module_index (fst s)) (completed_count (fst s)) b, snd s), []).

(** [module_index += 1] *)
Definition incr_module_index : M unit :=
  fun s => (Ok tt, (mkLocals (S (module_index (fst s))) (completed_count (fst s))
                             (title_button (fst s)), snd s), []).

(** [completed_count += 1] *)
Definition incr_completed_count : M unit :=
  fun s => (Ok tt, (mkLocals (module_index (fst s)) (S (completed_count (fst s)))
                             (title_button (fst s)), snd s), []).

(** [xs[i]] *)
Definition index {A} (xs : list A) (i : nat) : M A :=
  match nth_error xs i with
  | Some x => ret x
  | None => raise IndexError
  end.
End Monad.

Declare Scope spider_scope.
Delimit Scope spider_scope with spider.
Notation "x <- m ;; k" := (bind m (fun x => k))
  (at level 100, m at next level, right associativity) : spider_scope.
Notation "m ;;; k" := (bind m (fun _ => k))
  (at level 100, right associativity) : spider_scope.

Local Open Scope spider_scope.

(** ** Selectors and scripts of the loop *)

Definition dq : string := String (ascii_of_nat 34) EmptyString.

Definition MODULES_SEL : string := ".van-collapse-item".
Definition TEXT_SEL : string := ".text".
Definition COUNT_SEL : string := ".count".
Definition TITLE_BUTTON_SEL : string := ".van-collapse-item__title".
Definition ITEMS_SEL : string := ".img-texts-item".
Definition ITEM_TITLE_SEL : string := ".title".
Definition EXPANDED_CLASS : string := "van-collapse-item--expanded".
Definition WIFI_TIP_SEL : string :=
  ("p.txt-des:has-text(" ++ dq ++ "建议在wifi环境下观看" ++ dq ++ ")")%string.
Definition BTN_START_WAIT_SEL : string := ".btn-start, a.btn-start".
Definition BTN_START_SEL : string := ".btn-start".
Definition IMG_START_SEL : string := ("img[src*=" ++ dq ++ "btn-start" ++ dq ++ "]")%string.
Definition IMG_START_LINK_SEL : string :=
  ("a:has(img[src*=" ++ dq ++ "btn-start" ++ dq ++ "])")%string.
Definition PRI_START_SEL : string := ".pri-start-btn".
Definition ANY_START_SEL : string :=
  ("a[class*=" ++ dq ++ "start" ++ dq ++ "], button[class*=" ++ dq ++ "start" ++ dq ++ "]")%string.
Definition FUNC_EXISTS_JS : string := "() => typeof finishWxCourse === 'function'".
Definition FINISH_JS : string := "finishWxCourse()".
Definition FRAME_INFO_JS : string :=
  "() => { return { title: document.title, url: window.location.href, hasFunctions: Object.keys(window).filter(k => typeof window[k] === 'function').slice(0, 20) }; }".
Definition JS_CLICK : string := "element => element.click()".
Definition BACK_LIST_SEL : string :=
  ("button.comment-footer-button:has-text(" ++ dq ++ "返回列表" ++ dq ++ ")")%string.
Definition FOOTER_BUTTON_SEL : string := ".comment-footer-button".
Definition ANY_BACK_SEL : string :=
  (".van-nav-bar__left, .back-btn, [class*=" ++ dq ++ "back" ++ dq ++ "]")%string.

(** ** Lesson Runner (lines 450-829) *)

Section LessonRunner.
Context `{Browser}.

(** Lines 450-465: the [for] loop over [enumerate(course_items)]; the
    answer is [(item, item_position, item_title)], [None] when the loop
    ends without a [break]. *)
Fixpoint find_first_incomplete (course_items : list Elem) (idx : nat)
  : M (option (Elem * nat * option string)) :=
  match course_items with
  | [] => ret None
  | course_item :: rest =>
      item_class <- call (ElemGetAttribute course_item "class") ;;
      if is_passed item_class then find_first_incomplete rest (S idx)
      else
        item_title_elem <- call (ElemQuerySelector course_item ITEM_TITLE_SEL) ;;
        item_title <- match item_title_elem with
                      | Some e => call (ElemTextContent e)
                      | None => ret (Some "未知课程")
                      end ;;
        ret (Some (course_item, (idx + 1)%nat, item_title))
  end.

(** Lines 474-506: the three ways to click the lesson. *)
Definition click_item (item : Elem) : M unit :=
  _ <- call (ElemIsVisible item) ;;
  call (ElemScrollIntoViewIfNeeded item) ;;;
  try_catch (call (ElemClick item false)) (fun _ =>
    try_catch (call (ElemClick item true)) (fun _ =>
      call (ElemEvaluate item JS_CLICK))).

(** Lines 513-517 and 601-605. *)
Definition wait_for_load_state (state : string) : M unit :=
  try_catch (call (PageWaitForLoadState state)) (fun _ => ret tt).

(** Lines 521-594: the frame of the lesson, the main frame when the
    resolver finds none. *)
Definition find_iframe : M Frame :=
  w <- get_world ;;
  match resolve_iframe (page_url w) (page_frames w) with
  | Some iframe => ret iframe
  | None => ret (main_frame w)
  end.

(** Lines 617-627: [is_video_course]. *)
Definition detect_video_course (iframe : Frame) : M bool :=
  try_catch
    (wifi_tip <- call (FrameQuerySelector iframe WIFI_TIP_SEL) ;;
     match wifi_tip with
     | Some _ => ret true
     | None => ret false
     end)
    (fun _ => ret false).

(** The four ways to the start button; each answers [start_btn_clicked]. *)
Definition start_by_class (iframe : Frame) : M bool :=      (* lines 641-661 *)
  call (FrameWaitForSelector iframe BTN_START_WAIT_SEL) ;;;
  _ <- call (FrameIsVisible iframe BTN_START_SEL) ;;
  call (FrameClick iframe BTN_START_SEL) ;;;
  ret true.

Definition start_by_image (iframe : Frame) : M bool :=      (* lines 667-674 *)
  call (FrameWaitForSelector iframe IMG_START_SEL) ;;;
  call (FrameClick iframe IMG_START_LINK_SEL) ;;;
  ret true.

Definition start_by_pri_class (iframe : Frame) : M bool :=  (* lines 680-685 *)
  call (FrameClick iframe PRI_START_SEL) ;;;
  ret true.

Definition start_by_any (iframe : Frame) : M bool :=        (* lines 691-701 *)
  start_elems <- call (FrameQuerySelectorAll iframe ANY_START_SEL) ;;
  match start_elems with
  | first :: _ => call (ElemClick first false) ;;; ret true
  | [] => ret false
  end.

(** Lines 640-704: the nested [try]/[except] around the four ways. *)
Definition click_start_button (iframe : Frame) : M bool :=
  try_catch (start_by_class iframe) (fun _ =>
    try_catch (start_by_image iframe) (fun _ =>
      try_catch (start_by_pri_class iframe) (fun _ =>
        try_catch (start_by_any iframe) (fun _ => ret false)))).

(** Lines 630-707: [start_btn_clicked]. *)
Definition start_course (iframe : Frame) (is_video_course : bool) : M bool :=
  if is_video_course then ret true else click_start_button iframe.

(** Lines 709-750: poll for [finishWxCourse], then call it; the answer is
    [func_exists] after the second look. *)
Definition finish_course (iframe : Frame) : M bool :=
  func_exists <- call (FrameEvaluateBool iframe FUNC_EXISTS_JS) ;;
  func_exists <- (if func_exists then ret true
                  else call (FrameEvaluateBool iframe FUNC_EXISTS_JS)) ;;
  (if func_exists
   then try_catch (call (FrameEvaluate iframe FINISH_JS)) (fun _ => ret tt)
   else try_catch (call (FrameEvaluate iframe FRAME_INFO_JS)) (fun _ => ret tt)) ;;;
  ret func_exists.

(** Lines 757-818: back to the list, then the module is looked up and
    expanded again. *)
Definition return_to_list : M unit :=
  try_catch
    (back_btn <- call (PageQuerySelector BACK_LIST_SEL) ;;
     back_btn <- match back_btn with
                 | Some b => ret (Some b)
                 | None => call (PageQuerySelector FOOTER_BUTTON_SEL)
                 end ;;
     back_btn <- match back_btn with
                 | Some b => ret (Some b)
                 | None => call (PageQuerySelector ANY_BACK_SEL)
                 end ;;
     match back_btn with
     | Some b => call (ElemClick b false)
     | None => call PageGoBack
     end ;;;
     try_catch (call (PageWaitForLoadState "networkidle")) (fun _ => ret tt) ;;;
     modules <- call (PageQuerySelectorAll MODULES_SEL) ;;
     vars <- get_locals ;;
     if (module_index vars <? List.length modules)%nat then
       module <- index modules (module_index vars) ;;
       module_class <- call (ElemGetAttribute module "class") ;;
       let is_expanded :=
         PyStr.contains EXPANDED_CLASS
           (match module_class with Some c => c | None => "" end) in
       (if is_expanded then ret tt
        else
          button <- call (ElemQuerySelector module TITLE_BUTTON_SEL) ;;
          set_title_button button ;;;
          match button with
          | Some b => call (ElemClick b false)
          | None => ret tt
          end) ;;;
       _ <- call (ElemQuerySelectorAll module ITEMS_SEL) ;;
       ret tt
     else ret tt)
    (fun _ => ret tt).

(** Lines 615-750: what is done inside the lesson's frame. *)
Definition complete_in_frame (iframe : Frame) : M bool :=
  is_video_course <- detect_video_course iframe ;;
  _ <- start_course iframe is_video_course ;;
  finish_course iframe.

(** Lines 474-828: one lesson, from the click on it to the count. *)
Definition run_lesson (item : Elem) : M unit :=
  click_item item ;;;
  wait_for_load_state "domcontentloaded" ;;;
  iframe <- find_iframe ;;
  wait_for_load_state "networkidle" ;;;
  _ <- complete_in_frame iframe ;;
  return_to_list ;;;
  incr_completed_count.

(** The fallback chain as the specification words it: the ways are tried
    in order, the next one only when the one before did not succeed, and
    the first success ends the search. *)
Fixpoint first_success (ways : list (M bool)) : M bool :=
  match ways with
  | [] => ret false
  | way :: rest =>
      ok <- try_catch way (fun _ => ret false) ;;
      if ok then ret true else first_success rest
  end.
End LessonRunner.

(** ** Module Walker (lines 419-839) *)

Section ModuleWalker.
Context `{Browser}.

(** Lines 428-444: the module with its lessons showing; [None] is the
    [break] of line 443. *)
Definition ensure_expanded (module : Elem) : M (option Elem) :=
  module_class <- call (ElemGetAttribute module "class") ;;
  let is_expanded :=
    PyStr.contains EXPANDED_CLASS
      (match module_class with Some c => c | None => "" end) in
  if is_expanded then ret (Some module)
  else
    button <- call (ElemQuerySelector module TITLE_BUTTON_SEL) ;;
    set_title_button button ;;;
    match button with
    | Some b =>
        call (ElemClick b false) ;;;
        modules <- call (PageQuerySelectorAll MODULES_SEL) ;;
        vars <- get_locals ;;
        if (List.length modules <=? module_index vars)%nat then ret None
        else module <- index modules (module_index vars) ;; ret (Some module)
    | None => ret (Some module)
    end.

(** Lines 421-470: the first lesson of the module that is not passed;
    [None] stands for the three [break]s (lines 425, 443 and 470). *)
Definition next_lesson : M (option Elem) :=
  modules <- call (PageQuerySelectorAll MODULES_SEL) ;;
  vars <- get_locals ;;
  if (List.length modules <=? module_index vars)%nat then ret None
  else
    module <- index modules (module_index vars) ;;
    shown <- ensure_expanded module ;;
    match shown with
    | None => ret None
    | Some module =>
        course_items <- call (ElemQuerySelectorAll module ITEMS_SEL) ;;
        found <- find_first_incomplete course_items 0 ;;
        match found with
        | None => ret None
        | Some (item, _, _) => ret (Some item)
        end
    end.

(** Lines 421-829: the body of the [try] inside [while True]. *)
Definition drain_body : M ctl :=
  item <- next_lesson ;;
  match item with
  | None => ret Break
  | Some item => run_lesson item ;;; ret Continue
  end.

(** Lines 420-839: one turn of [while True]; the handler of lines 831-839
    waits and goes round again. *)
Definition drain_iter : M ctl :=
  try_catch drain_body (fun _ => ret Continue).

(** Lines 419-839. *)
Fixpoint drain_module (fuel : nat) : M unit :=
  match fuel with
  | O => out_of_fuel
  | S fuel' =>
      c <- drain_iter ;;
      match c with
      | Break => ret tt
      | Continue => drain_module fuel'
      end
  end.
End ModuleWalker.

(** ** Traversal Controller (lines 362-858) *)

Section TraversalController.
Context `{Browser}.

(** Lines 400-850: the module is opened, drained, closed and left. *)
Definition process_module (drain_fuel : nat) (module : Elem) : M ctl :=
  button <- call (ElemQuerySelector module TITLE_BUTTON_SEL) ;;
  set_title_button button ;;;
  match button with
  | Some b => call (ElemClick b false)
  | None => ret tt
  end ;;;
  course_items <- call (ElemQuerySelectorAll module ITEMS_SEL) ;;
  match course_items with
  | [] => ret Continue                                   (* line 414 *)
  | _ :: _ =>
      drain_module drain_fuel ;;;
      try_catch
        (vars <- get_locals ;;
         match title_button vars with
         | Some b => call (ElemClick b false)
         | None => ret tt
         end)
        (fun _ => ret tt) ;;;
      incr_module_index ;;;
      ret Continue
  end.

(** Lines 394-850: what is done with a module once its progress is read. *)
Definition visit_module (drain_fuel : nat) (module : Elem) (finished total : Z)
  : M ctl :=
  if module_completed finished total
  then incr_module_index ;;; ret Continue                (* lines 396-398 *)
  else process_module drain_fuel module.

(** Lines 381-850: from the text of the progress indicator on. *)
Definition visit_with_count (drain_fuel : nat) (module : Elem)
           (count_text : option string) : M ctl :=
  count_text <- match count_text with
                | Some s => ret s
                | None => raise AttributeError          (* None.strip() *)
                end ;;
  progress <- lift (parse_progress count_text) ;;
  visit_module drain_fuel module (fst progress) (snd progress).

(** Lines 364-379: the module at [module_index] and the text of its
    progress indicator; [None] stands for the [break] of line 369. *)
Definition read_module : M (option (Elem * option string)) :=
  modules <- call (PageQuerySelectorAll MODULES_SEL) ;;
  vars <- get_locals ;;
  if (List.length modules <=? module_index vars)%nat then ret None
  else
    module <- index modules (module_index vars) ;;
    title_elem <- call (ElemQuerySelector module TEXT_SEL) ;;
    _ <- match title_elem with
         | Some e => call (ElemTextContent e)
         | None => ret (Some "未知模块")
         end ;;
    count_elem <- call (ElemQuerySelector module COUNT_SEL) ;;
    count_text <- match count_elem with
                  | Some e => call (ElemTextContent e)
                  | None => ret (Some "0/0")
                  end ;;
    ret (Some (module, count_text)).

(** Lines 364-850: the body of the [try] inside the outer [while]. *)
Definition traverse_body (drain_fuel : nat) : M ctl :=
  read <- read_module ;;
  match read with
  | None => ret Break
  | Some (module, count_text) => visit_with_count drain_fuel module count_text
  end.

(** Lines 363-858: one turn of the outer [while]; the handler of lines
    852-858 moves on to the next module. *)
Definition traverse_iter (drain_fuel : nat) : M ctl :=
  try_catch (traverse_body drain_fuel)
    (fun _ => incr_module_index ;;; ret Continue).

(** Lines 362-858: [while module_index < total_modules]. *)
Fixpoint traverse (fuel drain_fuel total_modules : nat) : M unit :=
  match fuel with
  | O => out_of_fuel
  | S fuel' =>
      vars <- get_locals ;;
      if (module_index vars <? total_modules)%nat then
        c <- traverse_iter drain_fuel ;;
        match c with
        | Break => ret tt
        | Continue => traverse fuel' drain_fuel total_modules
        end
      else ret tt
  end.

(** Lines 354-361: the modules are counted once, both counters start at 0. *)
Definition run_modules (fuel drain_fuel : nat) : M unit :=
  modules <- call (PageQuerySelectorAll MODULES_SEL) ;;
  traverse fuel drain_fuel (List.length modules).
End TraversalController.

(** ** What a run did *)

Section Runs.
Context `{Browser}.

Definition result {A} (x : res A * state * list entry) : res A := fst (fst x).
Definition final {A} (x : res A * state * list entry) : state := snd (fst x).
Definition calls {A} (x : res A * state * list entry) : list entry := snd x.

(** The element a call clicks, scrolls to or runs a script on. *)
Definition acted_on (en : entry) : option Elem :=
  match en with
  | Called e _ =>
      match e with
      | ElemClick x _ => Some x
      | ElemEvaluate x _ => Some x
      | ElemScrollIntoViewIfNeeded x => Some x
      | _ => None
      end
  end.

(** The call is [frame.evaluate]. *)
Definition is_frame_evaluate (en : entry) : bool :=
  match en with
  | Called e _ =>
      match e with
      | FrameEvaluateBool _ _ => true
      | FrameEvaluate _ _ => true
      | _ => false
      end
  end.

(** The call runs [finishWxCourse()]. *)
Definition invokes_finish (en : entry) : bool :=
  match en with
  | Called e _ =>
      match e with
      | FrameEvaluate _ js => String.eqb js FINISH_JS
      | _ => false
      end
  end.

(** The call is a click on an element. *)
Definition is_elem_click (en : entry) : bool :=
  match en with
  | Called e _ =>
      match e with
      | ElemClick _ _ => true
      | _ => false
      end
  end.

(** The computation ends with a value or an exception, whatever the
    browser answers. *)
Definition terminates {A} (m : M A) : Prop :=
  forall s, result (m s) <> OutOfFuel.

(** The computation ends with a value, whatever the browser answers. *)
Definition never_raises {A} (m : M A) : Prop :=
  forall s, exists a, result (m s) = Ok a.

(** The computation answers [true] or raises, whatever the browser
    answers. *)
Definition succeeds_or_raises (m : M bool) : Prop :=
  forall s, result (m s) = Ok true \/ exists e, result (m s) = Raise e.

(** [module_index += 1] on the locals. *)
Definition next_module (s : state) : state :=
  (mkLocals (S (module_index (fst s))) (completed_count (fst s))
            (title_button (fst s)), snd s).

(** Every call the computation makes satisfies [P]. *)
Definition only_calls {A} (P : entry -> Prop) (m : M A) : Prop :=
  forall s, Forall P (calls (m s)).
End Runs.

(** ** A simulated course page

    A small model of the platform's page, used to run the loop on concrete
    inputs: modules with a progress text, an expanded flag and the class
    attributes of their lessons; one lesson frame. *)

Module Sim.

Inductive elem : Type :=
| EModule (i : nat)
| EText (i : nat)
| ECount (i : nat)
| EButton (i : nat)
| ELesson (i j : nat)
| ELessonTitle (i j : nat)
| EWidget (k : nat).

Record module_st : Type := mkModule {
  m_count : option string;          (* text of .count, if there is one *)
  m_expanded : bool;
  m_lessons : list (option string)  (* class attribute of each lesson *)
}.

Record world : Type := mkWorld {
  modules : list module_st;
  frames : list string;
  url : string;
  opened : option (nat * nat);      (* the lesson last clicked *)
  wifi_tip : bool;                  (* the frame shows the wifi hint *)
  start_button : bool;              (* the frame has a .btn-start *)
  finish_fn : bool                  (* the frame defines finishWxCourse *)
}.

Definition with_modules (w : world) (ms : list module_st) : world :=
  mkWorld ms (frames w) (url w) (opened w) (wifi_tip w) (start_button w) (finish_fn w).

Definition with_opened (w : world) (o : option (nat * nat)) : world :=
  mkWorld (modules w) (frames w) (url w) o (wifi_tip w) (start_button w) (finish_fn w).

Fixpoint update {A} (xs : list A) (i : nat) (f : A -> A) : list A :=
  match xs, i with
  | [], _ => []
  | x :: rest, O => f x :: rest
  | x :: rest, S i' => x :: update rest i' f
  end.

Definition toggle (m : module_st) : module_st :=
  mkModule (m_count m) (negb (m_expanded m)) (m_lessons m).

Definition mark_passed (j : nat) (m : module_st) : module_st :=
  mkModule (m_count m) (m_expanded m)
           (update (m_lessons m) j (fun _ => Some "img-texts-item passed")).

Definition module_class (m : module_st) : string :=
  if m_expanded m then "van-collapse-item van-collapse-item--expanded"
  else "van-collapse-item".

#[export] Instance handles : Handles :=
  {| Elem := elem; Frame := string; frame_url := fun u => u |}.

Definition answer (R : Type) (e : browserE R) (w : world) : (exn + R) * world :=
  match e in browserE R return (exn + R) * world with
  | PageQuerySelectorAll sel =>
      (inr (if String.eqb sel MODULES_SEL
            then map EModule (seq 0 (List.length (modules w))) else []), w)
  | PageQuerySelector sel =>
      (inr (if String.eqb sel FOOTER_BUTTON_SEL then Some (EWidget 0) else None), w)
  | PageWaitForLoadState _ => (inr tt, w)
  | PageGoBack => (inr tt, w)
  | ElemQuerySelector el sel =>
      (inr match el with
           | EModule i =>
               if String.eqb sel TEXT_SEL then Some (EText i)
               else if String.eqb sel COUNT_SEL then
                 match nth_error (modules w) i with
                 | Some m => match m_count m with Some _ => Some (ECount i) | None => None end
                 | None => None
                 end
               else if String.eqb sel TITLE_BUTTON_SEL then Some (EButton i)
               else None
           | ELesson i j =>
               if String.eqb sel ITEM_TITLE_SEL then Some (ELessonTitle i j) else None
           | _ => None
           end, w)
  | ElemQuerySelectorAll el sel =>
      (inr match el with
           | EModule i =>
               if String.eqb sel ITEMS_SEL then
                 match nth_error (modules w) i with
                 | Some m => map (ELesson i) (seq 0 (List.length (m_lessons m)))
                 | None => []
                 end
               else []
           | _ => []
           end, w)
  | ElemGetAttribute el _ =>
      (inr match el with
           | EModule i => option_map module_class (nth_error (modules w) i)
           | ELesson i j =>
               match nth_error (modules w) i with
               | Some m => match nth_error (m_lessons m) j with
                           | Some c => c
                           | None => None
                           end
               | None => None
               end
           | _ => None
           end, w)
  | ElemTextContent el =>
      (inr match el with
           | ECount i => match nth_error (modules w) i with
                         | Some m => m_count m
                         | None => None
                         end
           | _ => Some ""
           end, w)
  | ElemIsVisible _ => (inr true, w)
  | ElemScrollIntoViewIfNeeded _ => (inr tt, w)
  | ElemClick el _ =>
      (inr tt, match el with
               | EButton i => with_modules w (update (modules w) i toggle)
               | ELesson i j => with_opened w (Some (i, j))
               | _ => w
               end)
  | ElemEvaluate el _ =>
      (inr tt, match el with
               | ELesson i j => with_opened w (Some (i, j))
               | _ => w
               end)
  | FrameQuerySelector _ sel =>
      (inr (if wifi_tip w && String.eqb sel WIFI_TIP_SEL then Some (EWidget 1) else None), w)
  | FrameQuerySelectorAll _ _ => (inr [], w)
  | FrameWaitForSelector _ sel =>
      (if start_button w && String.eqb sel BTN_START_WAIT_SEL
       then inr tt else inl PlaywrightError, w)
  | FrameIsVisible _ _ => (inr (start_button w), w)
  | FrameClick _ sel =>
      (if start_button w && String.eqb sel BTN_START_SEL
       then inr tt else inl PlaywrightError, w)
  | FrameEvaluateBool _ _ => (inr (finish_fn w), w)
  | FrameEvaluate _ js =>
      (inr tt,
       if finish_fn w && String.eqb js FINISH_JS then
         match opened w with
         | Some (i, j) => with_modules w (update (modules w) i (mark_passed j))
         | None => w
         end
       else w)
  end.

#[export] Instance browser : Browser :=
  {| World := world;
     perform := answer;
     page_frames := frames;
     page_url := url;
     main_frame := url |}.

Definition LIST_URL : string := "https://weiban.mycourse.cn/#/course/list".
Definition LESSON_FRAME : string := "https://mcwk.mycourse.cn/course/A11001/A11001.html".

(** A page with the given modules; the lesson frame has the given
    features. *)
Definition page (ms : list module_st) (wifi start finish : bool) : world :=
  mkWorld ms ["about:blank"; LIST_URL; LESSON_FRAME] LIST_URL None wifi start finish.

(** The locals as line 358-361 leave them. *)
Definition start_locals : locals := mkLocals 0 0 None.

Definition lesson_frame : Frame := LESSON_FRAME.
Definition module_elem (i : nat) : Elem := EModule i.
Definition lesson_elem (i j : nat) : Elem := ELesson i j.
Definition widget (k : nat) : Elem := EWidget k.
Definition button (i : nat) : Elem := EButton i.

Definition state_of (vars : locals) (w : world) : state := (vars, w).

(** The state in which the loop is entered on a page. *)
Definition init (ms : list module_st) (wifi start finish : bool) : state :=
  state_of start_locals (page ms wifi start finish).

(** One module that reads "0/0" and has no lessons under it. *)
Definition empty_module (expanded : bool) : module_st :=
  mkModule (Some "0/0") expanded [].

(** One module "0/1" whose only lesson is not passed. *)
Definition one_lesson : module_st :=
  mkModule (Some "0/1") false [Some "img-texts-item"].


(** One module whose progress text has two separators. *)
Definition odd_count : module_st :=
  mkModule (Some "1/2/3") false [Some "img-texts-item"].

(** A call of [t] clicks, scrolls to or runs a script on lesson [j] of
    module [i]. *)
Definition is_lesson (i j : nat) (x : elem) : bool :=
  match x with
  | ELesson i' j' => Nat.eqb i i' && Nat.eqb j j'
  | _ => false
  end.

Definition touched (i j : nat) (t : list (@entry handles)) : bool :=
  existsb (fun en => match @acted_on handles en with
                     | Some x => is_lesson i j x
                     | None => false
                     end) t.

End Sim.

(** ** Locals and exceptions of a run *)

Section RunInvariants.
Context `{Browser}.

(** The computation leaves [f] of the locals as it found it, however it
    ends. *)
Definition keeps {A X} (f : locals -> X) (m : M A) : Prop :=
  forall s, f (fst (final (m s))) = f (fst s).

(** No exception leaves the computation. *)
Definition never_escapes {A} (m : M A) : Prop :=
  forall s e, result (m s) <> Raise e.

(** When the computation raises, the last call it made satisfies [P]. *)
Definition aborts_at {A} (P : entry -> Prop) (m : M A) : Prop :=
  forall s e, result (m s) = Raise e ->
              exists pre en, calls (m s) = pre ++ [en] /\ P en.

(** [completed_count] is one more after a normal end, and as before after
    an exception. *)
Definition counts_one (m : M unit) : Prop :=
  forall s,
    match result (m s) with
    | Ok _ => completed_count (fst (final (m s))) = S (completed_count (fst s))
    | Raise _ => completed_count (fst (final (m s))) = completed_count (fst s)
    | OutOfFuel => True
    end.

(** The calls whose exception ends a lesson: the look at the lesson
    element, the scroll to it, the script click on it, and the poll for
    [finishWxCourse]. *)
Definition lesson_abort_point (item : Elem) (en : entry) : Prop :=
  match en with
  | Called e (inl _) =>
      match e with
      | ElemIsVisible x => x = item
      | ElemScrollIntoViewIfNeeded x => x = item
      | ElemEvaluate x js => x = item /\ js = JS_CLICK
      | FrameEvaluateBool _ js => js = FUNC_EXISTS_JS
      | _ => False
      end
  | Called _ (inr _) => False
  end.

(** The frame in which a lesson is run: the one the resolver finds, the
    main frame when it finds none. *)
Definition frame_of_lesson (w : World) : Frame :=
  match resolve_iframe (page_url w) (page_frames w) with
  | Some f => f
  | None => main_frame w
  end.

(** The class of [x] was read, and read as passed. *)
Definition read_as_passed (t : list entry) (x : Elem) : Prop :=
  exists c, In (Called (ElemGetAttribute x "class") (inr c)) t /\ is_passed c = true.

(** What the calls [t] found when no lesson was chosen: the page listed no
    module at index [idx], or the lessons of the module were all read as
    passed. *)
Definition no_lesson_left (idx : nat) (t : list entry) : Prop :=
  (exists modules,
      In (Called (PageQuerySelectorAll MODULES_SEL) (inr modules)) t /\
      (List.length modules <= idx)%nat) \/
  (exists module items,
      In (Called (ElemQuerySelectorAll module ITEMS_SEL) (inr items)) t /\
      Forall (read_as_passed t) items).

(** [module_index] is as before or one more after a normal end, and as
    before otherwise. *)
Definition steps_index {A} (m : M A) : Prop :=
  forall s,
    match result (m s) with
    | Ok _ => module_index (fst (final (m s))) = module_index (fst s) \/
              module_index (fst (final (m s))) = S (module_index (fst s))
    | _ => module_index (fst (final (m s))) = module_index (fst s)
    end.

(** The computation does not end with [break]. *)
Definition never_breaks (m : M ctl) : Prop :=
  forall s, result (m s) <> Ok Break.

(** The lesson [x] was listed by a query for a module's lessons, and its
    class was read as not passed. *)
Definition read_as_unpassed (t : list entry) (x : Elem) : Prop :=
  (exists module items,
      In (Called (ElemQuerySelectorAll module ITEMS_SEL) (inr items)) t /\ In x items) /\
  exists c, In (Called (ElemGetAttribute x "class") (inr c)) t /\ is_passed c = false.

(** [x] was the answer of a look for a control of the page: the title
    button of a module, a button that leads back to the list, or the first
    of the elements named "start". *)
Definition found_as_control (t : list entry) (x : Elem) : Prop :=
  (exists module,
      In (Called (ElemQuerySelector module TITLE_BUTTON_SEL) (inr (Some x))) t) \/
  (exists sel,
      (sel = BACK_LIST_SEL \/ sel = FOOTER_BUTTON_SEL \/ sel = ANY_BACK_SEL) /\
      In (Called (PageQuerySelector sel) (inr (Some x))) t) \/
  (exists iframe rest,
      In (Called (FrameQuerySelectorAll iframe ANY_START_SEL) (inr (x :: rest))) t).

(** The calls [t] allow a click, a scroll or a script call on [x]. *)
Definition may_touch (t : list entry) (x : Elem) : Prop :=
  read_as_unpassed t x \/ found_as_control t x.

(** Every call of [t] that clicks, scrolls to or runs a script on an
    element does so on one that the calls before it allow: those of [h],
    then the earlier ones of [t]. *)
Fixpoint touches_allowed (h t : list entry) : Prop :=
  match t with
  | [] => True
  | en :: rest =>
      (forall x, acted_on en = Some x -> may_touch h x)
      /\ touches_allowed (h ++ [en]) rest
  end.

(** Whatever the browser answers, and after any calls that allow the
    elements of [J], the computation touches only what it may. *)
Definition touches_only {A} (J : list Elem) (m : M A) : Prop :=
  forall s h, (forall x, In x J -> may_touch h x) -> touches_allowed h (calls (m s)).
End RunInvariants.

(** ** A page whose lesson frame is gone

    The simulated page again, with every call into a frame raising, as
    Playwright does for a detached frame. *)

Module Detached.

Definition answer (R : Type) (e : browserE R) (w : Sim.world)
  : (exn + R) * Sim.world :=
  match e in browserE R0 return (exn + R0) * Sim.world with
  | FrameQuerySelector _ _ => (inl PlaywrightError, w)
  | FrameQuerySelectorAll _ _ => (inl PlaywrightError, w)
  | FrameWaitForSelector _ _ => (inl PlaywrightError, w)
  | FrameIsVisible _ _ => (inl PlaywrightError, w)
  | FrameClick _ _ => (inl PlaywrightError, w)
  | FrameEvaluateBool _ _ => (inl PlaywrightError, w)
  | FrameEvaluate _ _ => (inl PlaywrightError, w)
  | other => Sim.answer _ other w
  end.

Definition browser : @Browser Sim.handles :=
  {| World := Sim.world;
     perform := answer;
     page_frames := Sim.frames;
     page_url := Sim.url;
     main_frame := Sim.url |}.

Definition init (ms : list Sim.module_st) : @state Sim.handles browser :=
  (Sim.start_locals, Sim.page ms false false false).

End Detached.

(** ** More pages *)

Module Pages.

(** One module "2/2" whose two lessons are passed. *)
Definition done_module : Sim.module_st :=
  Sim.mkModule (Some "2/2") true
    [Some "img-texts-item passed"; Some "img-texts-item passed"].

(** One module "0/2", expanded, whose lessons the platform has marked
    passed all the same. *)
Definition stale_count : Sim.module_st :=
  Sim.mkModule (Some "0/2") true
    [Some "img-texts-item passed"; Some "img-texts-item passed"].

(** One module "0/2", expanded, whose two lessons are both open. *)
Definition two_open_lessons : Sim.module_st :=
  Sim.mkModule (Some "0/2") true [Some "img-texts-item"; Some "img-texts-item"].

End Pages.

(** ** The session: login check and the way to the course list
    (lines 100-171 and 293-343)

    [check_login_status] and the first two steps of [main] use calls of the
    page that the loop does not use; they are the events of [sessionE].  The
    methods have no locals and no loop: their monad carries the world, the
    exception and the calls made. *)

Record cookie : Type := mkCookie {
  cookie_name : string;     (* c['name'] *)
  cookie_value : string
}.

Inductive sessionE : Type -> Type :=
| PageEvaluateBool (js : string) : sessionE bool
| ContextCookies : sessionE (list cookie)
| PageWaitForSelector (sel : string) : sessionE unit
| PageClick (sel : string) : sessionE unit.

Class Session `{Browser} : Type := {
  attend : forall R, sessionE R -> World -> (exn + R) * World
}.

(** One call of a method: a call of the loop's kind, or one of the
    session's. *)
Inductive asked `{Handles} : Type :=
| AskedPage (en : entry)
| AskedSession (R : Type) (e : sessionE R) (r : exn + R).

Arguments AskedSession {_ _} e r.

Definition PASSWORD_SEL : string := ("input[type=" ++ dq ++ "password" ++ dq ++ "]")%string.
Definition USER_SEL : string :=
  (".user-info, .user-name, .avatar, [class*=" ++ dq ++ "user" ++ dq
   ++ "], [class*=" ++ dq ++ "personal" ++ dq ++ "]")%string.
Definition STORAGE_JS : string :=
  "() => { const hasToken = !!(localStorage.getItem('token') || localStorage.getItem('userInfo') || localStorage.getItem('user') || localStorage.getItem('Authorization') || sessionStorage.getItem('token') || sessionStorage.getItem('userInfo') || sessionStorage.getItem('user') || sessionStorage.getItem('Authorization')); const localKeys = Object.keys(localStorage); const sessionKeys = Object.keys(sessionStorage); const hasUserData = localKeys.some(k => k.includes('user') || k.includes('token') || k.includes('auth')) || sessionKeys.some(k => k.includes('user') || k.includes('token') || k.includes('auth')); return hasToken || hasUserData; }".
Definition LAB_IMG_SEL : string := ("img[src*=" ++ dq ++ "lab-title-thin" ++ dq ++ "]")%string.
Definition LAB_IMG_ALT_SEL : string :=
  ("img[data-v-fa5cdbae][alt=" ++ dq ++ dq ++ "]")%string.
Definition BLOCK_TITLE_SEL : string := "h5.block-title".
Definition TITLE_TEXT_SEL : string :=
  ("h5.block-title:has-text(" ++ dq ++ "2025级硕士生实验室安全教育（信通学院）" ++ dq ++ ")")%string.
Definition TITLE_PART_SEL : string :=
  ("h5.block-title:has-text(" ++ dq ++ "实验室安全教育" ++ dq ++ ")")%string.
Definition TITLE_XPATH_SEL : string :=
  ("xpath=//h5[@class=" ++ dq ++ "block-title" ++ dq ++ " and contains(text(), "
   ++ dq ++ "实验室安全教育" ++ dq ++ ")]")%string.

Section SessionMethods.
Context `{Session}.

Definition Meth (A : Type) : Type := World -> (exn + A) * World * list asked.

Definition sret {A} (a : A) : Meth A := fun w => (inr a, w, []).

Definition sbind {A B} (m : Meth A) (k : A -> Meth B) : Meth B :=
  fun w =>
    match m w with
    | (inr a, w1, t1) =>
        match k a w1 with
        | (r, w2, t2) => (r, w2, t1 ++ t2)
        end
    | (inl e, w1, t1) => (inl e, w1, t1)
    end.

(** [try: m except: h] *)
Definition stry {A} (m : Meth A) (h : exn -> Meth A) : Meth A :=
  fun w =>
    match m w with
    | (inl e, w1, t1) =>
        match h e w1 with
        | (r, w2, t2) => (r, w2, t1 ++ t2)
        end
    | other => other
    end.

(** A call of the loop's kind. *)
Definition page {R} (e : browserE R) : Meth R :=
  fun w => match perform R e w with
           | (r, w1) => (r, w1, [AskedPage (Called e r)])
           end.

(** A call of the session's kind. *)
Definition ask {R} (e : sessionE R) : Meth R :=
  fun w => match attend R e w with
           | (r, w1) => (r, w1, [AskedSession e r])
           end.

(** Lines 159-164: a cookie whose lowered name holds "session", "token" or
    "auth". *)
Definition has_session (cookies : list cookie) : bool :=
  existsb (fun c =>
             PyStr.contains "session" (PyStr.lower (cookie_name c))
             || PyStr.contains "token" (PyStr.lower (cookie_name c))
             || PyStr.contains "auth" (PyStr.lower (cookie_name c)))
          cookies.

(** Lines 105-171. *)
Definition check_login_status : Meth bool :=
  stry
    (fun w =>
       (if PyStr.contains "login" (PyStr.lower (page_url w)) then sret false
        else
          sbind (stry (sbind (page (PageQuerySelector PASSWORD_SEL))
                             (fun login_form =>
                                sret match login_form with
                                     | Some _ => true
                                     | None => false
                                     end))
                      (fun _ => sret false))
                (fun login_form_seen =>
                   if login_form_seen then sret false
                   else
                     sbind (ask (PageEvaluateBool STORAGE_JS))
                           (fun storage_check =>
                              sbind (stry (sbind (page (PageQuerySelector USER_SEL))
                                                 (fun user_element =>
                                                    sret match user_element with
                                                         | Some _ => true
                                                         | None => false
                                                         end))
                                          (fun _ => sret false))
                                    (fun user_seen =>
                                       if user_seen then sret true
                                       else
                                         sbind (ask ContextCookies)
                                               (fun cookies =>
                                                  sret (storage_check
                                                        || has_session cookies))))))
         w)
    (fun _ => sret false).

(** Lines 294-312: step 1 of [main], the click on the lab picture. *)
Definition click_lab_image : Meth unit :=
  stry (sbind (ask (PageWaitForSelector LAB_IMG_SEL))
              (fun _ => ask (PageClick LAB_IMG_SEL)))
       (fun _ => stry (ask (PageClick LAB_IMG_ALT_SEL)) (fun _ => sret tt)).

(** Lines 315-343: step 2 of [main], the click on the course title; [false]
    stands for the [return] of line 343. *)
Definition click_course_title : Meth bool :=
  stry (sbind (ask (PageWaitForSelector BLOCK_TITLE_SEL))
              (fun _ => sbind (ask (PageClick TITLE_TEXT_SEL)) (fun _ => sret true)))
       (fun _ =>
          stry (sbind (ask (PageClick TITLE_PART_SEL)) (fun _ => sret true))
               (fun _ =>
                  stry (sbind (ask (PageClick TITLE_XPATH_SEL)) (fun _ => sret true))
                       (fun _ => sret false))).

(** The answer leaves it open whether a password field or a user element
    is there: the look raised, or found none. *)
Definition found_none (r : exn + option Elem) : Prop :=
  r = inr None \/ exists x, r = inl x.
End SessionMethods.

(** A session on the simulated page: a login page with a password field, or
    a page after login whose storage and cookies are given. *)
Module SimSession.

Definition attend_const (storage : exn + bool) (cookies : list cookie)
           (clickable : string -> bool)
           (R : Type) (e : sessionE R) (w : Sim.world) : (exn + R) * Sim.world :=
  match e in sessionE R0 return (exn + R0) * Sim.world with
  | PageEvaluateBool _ => (storage, w)
  | ContextCookies => (inr cookies, w)
  | PageWaitForSelector sel =>
      (if clickable sel then inr tt else inl PlaywrightError, w)
  | PageClick sel =>
      (if clickable sel then inr tt else inl PlaywrightError, w)
  end.

Definition session (storage : exn + bool) (cookies : list cookie)
           (clickable : string -> bool) : @Session Sim.handles Sim.browser :=
  @Build_Session Sim.handles Sim.browser
    (fun R e w => attend_const storage cookies clickable R e w).

Definition on_url (u : string) : Sim.world :=
  Sim.mkWorld [] [] u None false false false.

End SimSession.

(** * Properties *)

(** ** Strings *)

Module PyStrFacts.
Import PyStr.

Lemma prefix_nil (s : string) : String.prefix EmptyString s = true.
Proof. destruct s; reflexivity. Qed.

Lemma prefix_cons (c a : ascii) (n s : string) :
  String.prefix (String c n) (String a s) = Ascii.eqb c a && String.prefix n s.
Proof.
  simpl. destruct (ascii_dec c a) as [e | ne].
  - subst. now rewrite Ascii.eqb_refl.
  - apply Ascii.eqb_neq in ne. now rewrite ne.
Qed.

Lemma contains_here (n s : string) :
  String.prefix n s = true -> contains n s = true.
Proof.
  destruct s; simpl; intros Hp; [exact Hp | now rewrite Hp].
Qed.

Lemma contains_later (n : string) (c : ascii) (s : string) :
  contains n s = true -> contains n (String c s) = true.
Proof.
  intros Hc. change (String.prefix n (String c s) || contains n s = true).
  rewrite Hc. apply orb_true_r.
Qed.

Lemma contains_char (c : ascii) (s : string) :
  contains (String c EmptyString) s = has c s.
Proof.
  induction s as [| a s IH].
  - reflexivity.
  - change (String.prefix (String c EmptyString) (String a s)
            || contains (String c EmptyString) s = has c (String a s)).
    rewrite prefix_cons, prefix_nil, andb_true_r, IH. reflexivity.
Qed.

(** *** Blanks at the ends *)

Lemma has_point_cons (p a : N) (s : list N) :
  has_point p (a :: s) = (p =? a)%N || has_point p s.
Proof. reflexivity. Qed.

Lemma has_point_app (p : N) (s t : list N) :
  has_point p (s ++ t) = has_point p s || has_point p t.
Proof. unfold has_point. apply existsb_app. Qed.

Section Strip.
Variable blank : N -> bool.

Lemma has_point_lstrip (p : N) (s : list N) :
  blank p = false -> has_point p (lstrip_by blank s) = has_point p s.
Proof.
  intros Hp. induction s as [| a s IH]; [reflexivity |].
  cbn [lstrip_by]. destruct (blank a) eqn:Ha; [| reflexivity].
  rewrite IH, has_point_cons. destruct (N.eqb_spec p a); [congruence | reflexivity].
Qed.

Lemma has_point_rstrip (p : N) (s : list N) :
  blank p = false -> has_point p (rstrip_by blank s) = has_point p s.
Proof.
  intros Hp. induction s as [| a s IH]; [reflexivity |].
  cbn [rstrip_by]. rewrite (has_point_cons p a s), <- IH.
  destruct (rstrip_by blank s) as [| b r].
  - destruct (blank a) eqn:Ha.
    + destruct (N.eqb_spec p a); [congruence | reflexivity].
    + reflexivity.
  - reflexivity.
Qed.

Lemma has_point_strip (p : N) (s : list N) :
  blank p = false -> has_point p (strip_by blank s) = has_point p s.
Proof.
  intros Hp. unfold strip_by. now rewrite has_point_lstrip, has_point_rstrip.
Qed.

Lemma rstrip_head (a : N) (s : list N) :
  blank a = false -> exists r, rstrip_by blank (a :: s) = a :: r.
Proof.
  intros Ha. cbn [rstrip_by]. destruct (rstrip_by blank s); rewrite ?Ha; eauto.
Qed.

Lemma lstrip_rstrip (s : list N) :
  lstrip_by blank (rstrip_by blank s) = rstrip_by blank (lstrip_by blank s).
Proof.
  induction s as [| a s IH]; [reflexivity |].
  destruct (blank a) eqn:Ha.
  - cbn [lstrip_by rstrip_by]. rewrite Ha, <- IH.
    destruct (rstrip_by blank s); cbn [lstrip_by]; rewrite ?Ha; reflexivity.
  - destruct (rstrip_head a s Ha) as [r Hr].
    cbn [lstrip_by]. rewrite Ha, Hr. cbn [lstrip_by]. now rewrite Ha.
Qed.

Lemma lstrip_idem (s : list N) :
  lstrip_by blank (lstrip_by blank s) = lstrip_by blank s.
Proof.
  induction s as [| a s IH]; [reflexivity |]. cbn [lstrip_by].
  destruct (blank a) eqn:Ha; [exact IH | cbn [lstrip_by]; now rewrite Ha].
Qed.

Lemma rstrip_idem (s : list N) :
  rstrip_by blank (rstrip_by blank s) = rstrip_by blank s.
Proof.
  induction s as [| a s IH]; [reflexivity |]. cbn [rstrip_by].
  destruct (rstrip_by blank s) as [| b r] eqn:Hr.
  - destruct (blank a) eqn:Ha; cbn [rstrip_by]; [reflexivity | now rewrite Ha].
  - change (rstrip_by blank (a :: b :: r)) with
      (match rstrip_by blank (b :: r) with
       | [] => if blank a then [] else [a]
       | r0 => a :: r0
       end).
    rewrite IH. reflexivity.
Qed.

Lemma strip_idem (s : list N) :
  strip_by blank (strip_by blank s) = strip_by blank s.
Proof.
  unfold strip_by.
  now rewrite (lstrip_rstrip s), rstrip_idem, lstrip_rstrip, lstrip_idem.
Qed.

Lemma strip_lstrip (s : list N) :
  strip_by blank (lstrip_by blank s) = strip_by blank s.
Proof.
  unfold strip_by. now rewrite <- lstrip_rstrip, !lstrip_rstrip, lstrip_idem.
Qed.

Lemma strip_rstrip (s : list N) :
  strip_by blank (rstrip_by blank s) = strip_by blank s.
Proof. unfold strip_by. now rewrite rstrip_idem. Qed.

Lemma lstrip_none (s : list N) :
  Forall (fun p => blank p = false) s -> lstrip_by blank s = s.
Proof. intros [| a r Ha _]; [reflexivity |]. cbn [lstrip_by]. now rewrite Ha. Qed.

Lemma rstrip_none (s : list N) :
  Forall (fun p => blank p = false) s -> rstrip_by blank s = s.
Proof.
  induction 1 as [| a r Ha _ IH]; [reflexivity |].
  cbn [rstrip_by]. rewrite IH. destruct r; [now rewrite Ha | reflexivity].
Qed.

Lemma strip_none (s : list N) :
  Forall (fun p => blank p = false) s -> strip_by blank s = s.
Proof. intros Hs. unfold strip_by. now rewrite rstrip_none, lstrip_none. Qed.

(** A character that is not blank, inside the text, stays where it is. *)
Lemma lstrip_app (x : list N) (p : N) (y : list N) :
  blank p = false ->
  lstrip_by blank (x ++ p :: y) = lstrip_by blank x ++ p :: y.
Proof.
  intros Hp. induction x as [| a x IH]; cbn [lstrip_by app].
  - now rewrite Hp.
  - destruct (blank a); [exact IH | reflexivity].
Qed.

Lemma rstrip_app (x : list N) (p : N) (y : list N) :
  blank p = false ->
  rstrip_by blank (x ++ p :: y) = x ++ p :: rstrip_by blank y.
Proof.
  intros Hp. induction x as [| a x IH]; cbn [rstrip_by app].
  - destruct (rstrip_by blank y); [now rewrite Hp | reflexivity].
  - rewrite IH. now destruct x.
Qed.

Lemma strip_app (x : list N) (p : N) (y : list N) :
  blank p = false ->
  strip_by blank (x ++ p :: y) = lstrip_by blank x ++ p :: rstrip_by blank y.
Proof. intros Hp. unfold strip_by. now rewrite rstrip_app, lstrip_app. Qed.
End Strip.

Lemma split_nonnil (sep : N) (s : list N) : split sep s <> [].
Proof.
  destruct s as [| c s]; cbn [split]; [discriminate |].
  destruct (c =? sep)%N; [discriminate |].
  destruct (split sep s); discriminate.
Qed.

Lemma split_no_sep (sep : N) (s : list N) :
  has_point sep s = false -> split sep s = [s].
Proof.
  induction s as [| c s IH]; [reflexivity |].
  rewrite has_point_cons. intros Hh. apply orb_false_elim in Hh as [Hc Hs].
  cbn [split]. rewrite N.eqb_sym, Hc, (IH Hs). reflexivity.
Qed.

Lemma split_app (sep : N) (s t : list N) :
  has_point sep s = false ->
  split sep (s ++ sep :: t) = s :: split sep t.
Proof.
  induction s as [| c s IH]; cbn [split app].
  - intros _. now rewrite N.eqb_refl.
  - rewrite has_point_cons. intros Hh. apply orb_false_elim in Hh as [Hc Hs].
    rewrite N.eqb_sym, Hc, (IH Hs). reflexivity.
Qed.

(** *** The characters of an ASCII text *)

Lemma decode_ascii_cons (c : ascii) (s : string) :
  (N_of_ascii c <? 0x80)%N = true ->
  decode (String c s) = N_of_ascii c :: decode s.
Proof. intros Hc. cbn [decode]. cbv zeta. now rewrite Hc. Qed.

Lemma N_of_ascii_eqb (c a : ascii) :
  (N_of_ascii c =? N_of_ascii a)%N = Ascii.eqb c a.
Proof.
  destruct (Ascii.eqb_spec c a) as [-> | Hne].
  - apply N.eqb_refl.
  - apply N.eqb_neq. intros Heq. apply Hne.
    now rewrite <- (ascii_N_embedding c), <- (ascii_N_embedding a), Heq.
Qed.

Lemma cont_high (c : ascii) (x : N) :
  cont c = Some x -> (0x80 <= N_of_ascii c)%N.
Proof.
  unfold cont.
  destruct (0x80 <=? N_of_ascii c)%N eqn:E; [| discriminate].
  intros _. now apply N.leb_le.
Qed.

Lemma seq2_high (b x p : N) : seq2 b x = Some p -> (0x80 <= p)%N.
Proof.
  unfold seq2. destruct (0xC2 <=? b)%N eqn:E; [| discriminate].
  destruct (b <=? 0xDF)%N; [| discriminate].
  apply N.leb_le in E. intros [= <-]. lia.
Qed.

Lemma seq3_high (b x1 x2 p : N) : seq3 b x1 x2 = Some p -> (0x80 <= p)%N.
Proof.
  unfold seq3. destruct ((0xE0 <=? b)%N && (b <=? 0xEF)%N); [| discriminate].
  cbv zeta.
  destruct (0x800 <=? (b - 0xE0) * 4096 + x1 * 64 + x2)%N eqn:E; [| discriminate].
  apply N.leb_le in E.
  destruct (negb _); [| discriminate]. intros [= <-]. lia.
Qed.

Lemma seq4_high (b x1 x2 x3 p : N) : seq4 b x1 x2 x3 = Some p -> (0x80 <= p)%N.
Proof.
  unfold seq4. destruct ((0xF0 <=? b)%N && (b <=? 0xF4)%N); [| discriminate].
  cbv zeta.
  destruct (0x10000 <=? (b - 0xF0) * 262144 + x1 * 4096 + x2 * 64 + x3)%N eqn:E;
    [| discriminate].
  apply N.leb_le in E.
  destruct (_ <=? 0x10FFFF)%N; [| discriminate]. intros [= <-]. lia.
Qed.

(** An ASCII character occurs among the characters of a text exactly when
    its byte occurs in the text. *)
Lemma has_point_decode (c : ascii) (s : string) :
  (N_of_ascii c < 0x80)%N ->
  has_point (N_of_ascii c) (decode s) = has c s.
Proof.
  intros Hc.
  assert (Hhigh : forall p, (0x80 <= p)%N -> (N_of_ascii c =? p)%N = false).
  { intros p Hp. apply N.eqb_neq. lia. }
  assert (Hbyte : forall a, (0x80 <= N_of_ascii a)%N -> Ascii.eqb c a = false).
  { intros a Ha. rewrite <- N_of_ascii_eqb. now apply Hhigh. }
  assert (Hlen : forall n s, (String.length s <= n)%nat ->
                             has_point (N_of_ascii c) (decode s) = has c s).
  { clear s. induction n as [| n IH]; intros s Hn.
    - destruct s; [reflexivity | simpl in Hn; lia].
    - destruct s as [| c0 r0]; [reflexivity |]. simpl in Hn.
      assert (H0 : has_point (N_of_ascii c) (decode r0) = has c r0) by (apply IH; lia).
      cbn [decode has]. cbv zeta.
      destruct (N_of_ascii c0 <? 0x80)%N eqn:E0.
      { now rewrite has_point_cons, N_of_ascii_eqb, H0. }
      apply N.ltb_ge in E0. rewrite (Hbyte c0 E0). cbn [orb].
      assert (Hbad : has_point (N_of_ascii c) (REPLACEMENT :: decode r0) = has c r0).
      { rewrite has_point_cons, H0. now rewrite Hhigh by (unfold REPLACEMENT; lia). }
      destruct r0 as [| c1 r1]; [now rewrite has_point_cons, Hhigh by (unfold REPLACEMENT; lia) |].
      destruct (cont c1) as [x1 |] eqn:E1; [| exact Hbad].
      assert (H1 : has c (String c1 r1) = has c r1).
      { cbn [has]. now rewrite (Hbyte c1 (cont_high _ _ E1)). }
      destruct (seq2 (N_of_ascii c0) x1) as [p |] eqn:S2.
      { rewrite has_point_cons, (Hhigh p (seq2_high _ _ _ S2)), H1.
        apply IH. simpl in Hn. lia. }
      destruct r1 as [| c2 r2]; [exact Hbad |].
      destruct (cont c2) as [x2 |] eqn:E2; [| exact Hbad].
      assert (H2 : has c (String c2 r2) = has c r2).
      { cbn [has]. now rewrite (Hbyte c2 (cont_high _ _ E2)). }
      destruct (seq3 (N_of_ascii c0) x1 x2) as [p |] eqn:S3.
      { rewrite has_point_cons, (Hhigh p (seq3_high _ _ _ _ S3)), H1, H2.
        apply IH. simpl in Hn. lia. }
      destruct r2 as [| c3 r3]; [exact Hbad |].
      destruct (cont c3) as [x3 |] eqn:E3; [| exact Hbad].
      destruct (seq4 (N_of_ascii c0) x1 x2 x3) as [p |] eqn:S4; [| exact Hbad].
      rewrite has_point_cons, (Hhigh p (seq4_high _ _ _ _ _ S4)), H1, H2.
      cbn [has]. rewrite (Hbyte c3 (cont_high _ _ E3)).
      apply IH. simpl in Hn. lia. }
  now apply (Hlen (String.length s)).
Qed.

Lemma has_slash_decode (s : string) :
  has_point SLASH (decode s) = contains "/" s.
Proof.
  rewrite contains_char. apply (has_point_decode "/"). reflexivity.
Qed.

(** The tokens of a class attribute occur in it. *)
Lemma class_tokens_occur (s : string) :
  (forall t, In t (class_tokens s) -> contains t s = true) /\
  match s with
  | EmptyString => True
  | String c _ =>
      is_html_space c = false ->
      exists t ts, class_tokens s = t :: ts /\ String.prefix t s = true
  end.
Proof.
  induction s as [| c rest [IHin IHhd]]; [split; [intros t [] | exact I] |].
  destruct (is_html_space c) eqn:Hc.
  - split; [| discriminate].
    intros t Ht. simpl in Ht. rewrite Hc in Ht.
    apply contains_later, IHin, Ht.
  - assert (Hself : forall t, String.prefix t rest = true ->
                              String.prefix (String c t) (String c rest) = true).
    { intros t Ht. now rewrite prefix_cons, Ascii.eqb_refl, Ht. }
    assert (exists t ts, class_tokens (String c rest) = String c t :: ts
                         /\ String.prefix t rest = true
                         /\ (forall u, In u ts -> In u (class_tokens rest)))
      as (t & ts & Heq & Hpre & Hts).
    { simpl. rewrite Hc. destruct rest as [| c' r'].
      - exists EmptyString, []. repeat split. intros u [].
      - destruct (is_html_space c') eqn:Hc'.
        + exists EmptyString, (class_tokens (String c' r')). now repeat split.
        + destruct (IHhd eq_refl) as (t0 & ts0 & E0 & P0).
          rewrite E0. exists t0, ts0. repeat split; [exact P0 |].
          intros u Hu. now right. }
    split.
    + intros u Hu. rewrite Heq in Hu. destruct Hu as [<- | Hu].
      * apply contains_here, Hself, Hpre.
      * apply contains_later, IHin, Hts, Hu.
    + intros _. exists (String c t), ts. split; [exact Heq | now apply Hself].
Qed.

(** *** Decimal numerals *)

Lemma decode_ascii_app (s t : string) :
  isascii s = true -> decode (s ++ t) = points s ++ decode t.
Proof.
  induction s as [| c s IH]; [reflexivity |].
  cbn [isascii]. intros Hc. apply andb_prop in Hc as [Hc Hs].
  change (String c s ++ t)%string with (String c (s ++ t)).
  rewrite (decode_ascii_cons _ _ Hc), (IH Hs). reflexivity.
Qed.

Lemma decode_ascii (s : string) : isascii s = true -> decode s = points s.
Proof.
  intros Hs. rewrite <- (List.app_nil_r (points s)).
  change [] with (decode ""). rewrite <- decode_ascii_app by exact Hs.
  f_equal. clear Hs. induction s; simpl; congruence.
Qed.

Lemma points_cons (c : ascii) (s : string) :
  points (String c s) = N_of_ascii c :: points s.
Proof. reflexivity. Qed.

Lemma points_length (s : string) : List.length (points s) = String.length s.
Proof. induction s as [| c s IH]; [reflexivity |]. rewrite points_cons. simpl. now rewrite IH. Qed.

Ltac digit_cases H :=
  let Hp := fresh in
  unfold in_range in H; apply andb_prop in H as [H Hp];
  apply N.leb_le in H; apply N.leb_le in Hp;
  match type of H with
  | (_ <= ?p)%N =>
      assert (p = 48 \/ p = 49 \/ p = 50 \/ p = 51 \/ p = 52 \/ p = 53 \/ p = 54
              \/ p = 55 \/ p = 56 \/ p = 57)%N as Hcases by lia;
      clear H Hp;
      destruct Hcases as [-> | [-> | [-> | [-> | [-> | [-> | [-> | [-> | [-> | ->]]]]]]]]]
  end.

Lemma digit_decimal (p : N) :
  in_range 48 57 p = true -> decimal p = Some (Z.of_N p - 48).
Proof. intros H. digit_cases H; reflexivity. Qed.

Lemma digit_not_blank (p : N) :
  in_range 48 57 p = true ->
  isspace p = false /\ int_space p = false /\ (p =? SLASH)%N = false.
Proof. intros H. digit_cases H; repeat split. Qed.

Lemma digit_points_count (s : list N) :
  Forall (fun p => in_range 48 57 p = true) s -> count_digits s = List.length s.
Proof.
  unfold count_digits. induction 1 as [| p s Hp _ IH]; [reflexivity |].
  cbn [filter]. unfold is_decimal at 1. rewrite (digit_decimal p Hp).
  simpl. now rewrite IH.
Qed.

Lemma digit_points_uint (d : Decimal.uint) :
  Forall (fun p => in_range 48 57 p = true) (points (NilEmpty.string_of_uint d)).
Proof.
  induction d; [constructor | ..];
    simpl NilEmpty.string_of_uint; rewrite points_cons; constructor;
    solve [reflexivity | exact IHd].
Qed.

Lemma isascii_uint (d : Decimal.uint) : isascii (NilEmpty.string_of_uint d) = true.
Proof. induction d; [reflexivity | ..]; simpl; exact IHd. Qed.

Lemma of_lu_rev_snoc (d : Decimal.uint) (k : Decimal.uint -> Decimal.uint) :
  (forall e, Decimal.revapp (k d) e = Decimal.revapp d (k e)) ->
  Unsigned.of_lu (Decimal.rev (k d)) =
  (Unsigned.of_lu (Decimal.rev d)
   + Unsigned.of_lu (k Decimal.Nil) * 10 ^ Unsigned.usize d)%N.
Proof.
  intros Hk. unfold Decimal.rev at 1. rewrite Hk.
  apply Unsigned.of_lu_revapp.
Qed.

Lemma digits_tail_step (acc : Z) (p : N) (rest : list N) (d : Z) :
  decimal p = Some d ->
  digits_tail acc (p :: rest) = digits_tail (10 * acc + d) rest.
Proof. intros Hd. cbn [digits_tail]. now rewrite Hd. Qed.

Lemma digits_step (p : N) (rest : list N) (d : Z) :
  decimal p = Some d -> digits (p :: rest) = digits_tail d rest.
Proof. intros Hd. unfold digits. now rewrite Hd. Qed.

Lemma digits_tail_uint (d : Decimal.uint) (acc : Z) :
  digits_tail acc (points (NilEmpty.string_of_uint d)) =
  Some (acc * 10 ^ Z.of_N (Unsigned.usize d)
        + Z.of_N (Unsigned.of_lu (Decimal.rev d))).
Proof.
  revert acc.
  induction d; intros acc;
    [ simpl; f_equal; lia | .. ];
    simpl NilEmpty.string_of_uint; rewrite points_cons;
    match goal with
    | |- context [digits_tail _ (?p :: _)] =>
        rewrite (digits_tail_step _ p _ _ (digit_decimal p eq_refl))
    end; rewrite IHd;
    f_equal;
    match goal with
    | |- context [Unsigned.of_lu (Decimal.rev (?k d))] =>
        rewrite (of_lu_rev_snoc d k) by reflexivity
    end;
    simpl Unsigned.usize; simpl Unsigned.of_lu;
    rewrite N2Z.inj_succ, Z.pow_succ_r by apply N2Z.is_nonneg;
    rewrite N2Z.inj_add, N2Z.inj_mul, N2Z.inj_pow;
    simpl Z.of_N; simpl N_of_ascii; ring.
Qed.

Lemma digits_uint (d : Decimal.uint) :
  d <> Decimal.Nil ->
  digits (points (NilEmpty.string_of_uint d)) = Some (Z.of_uint d).
Proof.
  intros Hd. unfold Z.of_uint. rewrite Unsigned.of_uint_alt.
  destruct d; [contradiction | ..];
    simpl NilEmpty.string_of_uint; rewrite points_cons;
    match goal with
    | |- context [digits (?p :: _)] =>
        rewrite (digits_step p _ _ (digit_decimal p eq_refl))
    end; rewrite digits_tail_uint;
    f_equal;
    match goal with
    | |- context [Unsigned.of_lu (Decimal.rev (?k d))] =>
        rewrite (of_lu_rev_snoc d k) by reflexivity
    end;
    simpl Unsigned.of_lu;
    rewrite N2Z.inj_add, N2Z.inj_mul, N2Z.inj_pow;
    simpl Z.of_N; simpl N_of_ascii; ring.
Qed.

Lemma limited_uint (d : Decimal.uint) :
  d <> Decimal.Nil ->
  (String.length (NilEmpty.string_of_uint d) <= INT_MAX_STR_DIGITS)%nat ->
  limited (points (NilEmpty.string_of_uint d)) = Some (Z.of_uint d).
Proof.
  intros Hd Hlen. unfold limited.
  rewrite (digits_uint d Hd), (digit_points_count _ (digit_points_uint d)), points_length.
  apply Nat.ltb_ge in Hlen. now rewrite Hlen.
Qed.

Lemma digit_points_no_blank (blank : N -> bool) (s : list N) :
  (forall p, in_range 48 57 p = true -> blank p = false) ->
  Forall (fun p => in_range 48 57 p = true) s -> Forall (fun p => blank p = false) s.
Proof. intros Hb Hs. eapply Forall_impl; [| exact Hs]. exact Hb. Qed.

Lemma string_of_uint_nonnil (d : Decimal.uint) :
  d <> Decimal.Nil -> NilZero.string_of_uint d = NilEmpty.string_of_uint d.
Proof. destruct d; [contradiction | ..]; reflexivity. Qed.

(** The text of [str(z)]: ASCII, without blank or separator, and read back
    by [int] when it is within the limit. *)
Lemma str_of_Z_shape (z : Z) :
  isascii (str_of_Z z) = true /\
  Forall (fun p => isspace p = false) (points (str_of_Z z)) /\
  has_point SLASH (points (str_of_Z z)) = false.
Proof.
  assert (Hu : forall d,
             Forall (fun p => isspace p = false) (points (NilEmpty.string_of_uint d)) /\
             has_point SLASH (points (NilEmpty.string_of_uint d)) = false).
  { intros d. split.
    - apply digit_points_no_blank; [| apply digit_points_uint].
      intros p Hp. apply (digit_not_blank p Hp).
    - assert (Hd := digit_points_uint d).
      induction Hd as [| p s Hp _ IH]; [reflexivity |].
      rewrite has_point_cons, IH, N.eqb_sym.
      now rewrite (proj2 (proj2 (digit_not_blank p Hp))). }
  unfold str_of_Z.
  destruct z as [| p | p]; [repeat split; repeat constructor | ..]; simpl Z.to_int;
    assert (Hp := Unsigned.to_uint_nonnil p);
    simpl NilZero.string_of_int; rewrite (string_of_uint_nonnil _ Hp);
    destruct (Hu (Pos.to_uint p)) as [Hb Hs].
  - split; [apply isascii_uint | now split].
  - split; [apply isascii_uint | split].
    + rewrite points_cons. constructor; [reflexivity | exact Hb].
    + rewrite points_cons, has_point_cons, Hs. reflexivity.
Qed.

Lemma numeral_digits_pos (p : positive) :
  String.length (NilEmpty.string_of_uint (Pos.to_uint p)) = String.length (str_of_Z (Z.pos p)).
Proof.
  unfold str_of_Z. simpl Z.to_int. simpl NilZero.string_of_int.
  now rewrite (string_of_uint_nonnil _ (Unsigned.to_uint_nonnil p)).
Qed.

Lemma int_str_of_Z (z : Z) :
  (String.length (str_of_Z (Z.abs z)) <= INT_MAX_STR_DIGITS)%nat ->
  int (points (str_of_Z z)) = Some z.
Proof.
  intros Hlen. unfold str_of_Z. rewrite <- (DecimalZ.of_to z) at 2.
  destruct z as [| p | p]; [reflexivity | ..]; simpl Z.to_int;
    assert (Hp := Unsigned.to_uint_nonnil p);
    simpl NilZero.string_of_int; rewrite (string_of_uint_nonnil _ Hp);
    simpl Z.abs in Hlen; rewrite <- numeral_digits_pos in Hlen;
    simpl Z.of_int; unfold int.
  - rewrite strip_none
      by (apply digit_points_no_blank; [| apply digit_points_uint];
          intros q Hq; apply (digit_not_blank q Hq)).
    assert (Hd := digit_points_uint (Pos.to_uint p)).
    assert (Hl := limited_uint _ Hp Hlen).
    destruct (points (NilEmpty.string_of_uint (Pos.to_uint p))) as [| q rest];
      [discriminate Hl |].
    assert (Hq : in_range 48 57 q = true) by (inversion Hd; assumption).
    assert ((q =? MINUS)%N = false /\ (q =? PLUS)%N = false) as [-> ->].
    { clear -Hq. digit_cases Hq; split; reflexivity. }
    exact Hl.
  - rewrite points_cons.
    rewrite strip_none.
    + change (N_of_ascii "-" =? MINUS)%N with true. cbv iota.
      now rewrite (limited_uint _ Hp Hlen).
    + constructor; [reflexivity |].
      apply digit_points_no_blank; [| apply digit_points_uint].
      intros q Hq. apply (digit_not_blank q Hq).
Qed.

(** *** [int] and the blanks of [str.strip] *)

Lemma int_space_isspace (p : N) : int_space p = true -> isspace p = true.
Proof.
  unfold int_space. intros H.
  apply orb_prop in H as [H | H]; [apply orb_prop in H as [H | H] |].
  - unfold in_range in H. apply andb_prop in H as [H1 H2].
    apply N.leb_le in H1. apply N.leb_le in H2.
    assert (p = 9 \/ p = 10 \/ p = 11 \/ p = 12 \/ p = 13)%N as Hc by lia.
    destruct Hc as [-> | [-> | [-> | [-> | ->]]]]; reflexivity.
  - apply N.eqb_eq in H. now subst p.
  - now apply andb_prop in H as [_ H].
Qed.

(** No run of decimal digits meets a range of blanks. *)
Lemma decimal_not_space (p : N) (d : Z) : decimal p = Some d -> isspace p = false.
Proof.
  unfold decimal. destruct (find _ DECIMAL_ZEROS) as [z |] eqn:Hf; [| discriminate].
  intros _. apply find_some in Hf as [Hz Hp].
  assert (Hapart :
            forallb (fun z => forallb (fun r => negb (in_range (fst r) (snd r) z
                                                    || in_range z (z + 9) (fst r)))
                                      SPACES)
                    DECIMAL_ZEROS = true) by (vm_compute; reflexivity).
  rewrite forallb_forall in Hapart. specialize (Hapart z Hz).
  rewrite forallb_forall in Hapart.
  destruct (isspace p) eqn:Hs; [| reflexivity].
  unfold isspace, in_ranges in Hs. apply existsb_exists in Hs as (r & Hr & Hin).
  specialize (Hapart r Hr). apply negb_true_iff, orb_false_elim in Hapart as [H1 H2].
  unfold in_range in *.
  apply andb_prop in Hp as [Hp1 Hp2]. apply andb_prop in Hin as [Hi1 Hi2].
  apply N.leb_le in Hp1, Hp2, Hi1, Hi2.
  apply andb_false_iff in H1, H2.
  rewrite !N.leb_gt in H1, H2. lia.
Qed.

Lemma lstrip_weaker (small big : N -> bool) (s : list N) :
  (forall p, small p = true -> big p = true) ->
  lstrip_by big (lstrip_by small s) = lstrip_by big s.
Proof.
  intros Hsub. induction s as [| a s IH]; [reflexivity |].
  cbn [lstrip_by]. destruct (small a) eqn:Ha; [| reflexivity].
  now rewrite (Hsub a Ha).
Qed.

Lemma rstrip_weaker (small big : N -> bool) (s : list N) :
  (forall p, small p = true -> big p = true) ->
  rstrip_by big (rstrip_by small s) = rstrip_by big s.
Proof.
  intros Hsub. induction s as [| a s IH]; [reflexivity |].
  cbn [rstrip_by]. destruct (rstrip_by small s) as [| b r].
  - cbn [rstrip_by] in IH. rewrite <- IH.
    destruct (small a) eqn:Ha; [now rewrite (Hsub a Ha) | reflexivity].
  - change (rstrip_by big (a :: b :: r)) with
      (match rstrip_by big (b :: r) with
       | [] => if big a then [] else [a]
       | r0 => a :: r0
       end).
    now rewrite IH.
Qed.

Lemma rstrip_cons_inv (blank : N -> bool) (s : list N) (h : N) (t : list N) :
  rstrip_by blank s = h :: t -> exists s', s = h :: s'.
Proof.
  destruct s as [| a s]; [discriminate |]. cbn [rstrip_by].
  destruct (rstrip_by blank s); [destruct (blank a) |]; intros [= -> _]; eauto.
Qed.

Lemma lstrip_suffix (blank : N -> bool) (s : list N) :
  exists pre, s = pre ++ lstrip_by blank s.
Proof.
  induction s as [| a s [pre IH]]; [now exists [] |].
  cbn [lstrip_by]. destruct (blank a).
  - exists (a :: pre). simpl. now rewrite <- IH.
  - now exists [].
Qed.

Lemma digits_tail_last (n : nat) :
  forall (s : list N) (acc v : Z),
    (List.length s <= n)%nat -> digits_tail acc s = Some v ->
    s = [] \/ exists s0 l, s = s0 ++ [l] /\ is_decimal l = true.
Proof.
  induction n as [| n IH]; intros s acc v Hn Hd.
  - destruct s; [now left | simpl in Hn; lia].
  - destruct s as [| p rest]; [now left | right]. simpl in Hn.
    cbn [digits_tail] in Hd. destruct (decimal p) as [d |] eqn:Hp.
    + apply IH in Hd as [-> | (s0 & l & -> & Hl)]; [| | lia].
      * exists [], p. split; [reflexivity |]. unfold is_decimal. now rewrite Hp.
      * exists (p :: s0), l. now split.
    + destruct (p =? UNDERSCORE)%N; [| discriminate].
      destruct rest as [| p' rest']; [discriminate |].
      destruct (decimal p') as [d |] eqn:Hp'; [| discriminate].
      apply IH in Hd as [-> | (s0 & l & -> & Hl)]; [| | simpl in Hn; lia].
      * exists [p], p'. split; [reflexivity |]. unfold is_decimal. now rewrite Hp'.
      * exists (p :: p' :: s0), l. now split.
Qed.

Lemma limited_last (s : list N) (v : Z) :
  limited s = Some v ->
  exists p rest s0 l, decimal p <> None /\ s = p :: rest /\
                      s = s0 ++ [l] /\ is_decimal l = true.
Proof.
  unfold limited. destruct (digits s) as [v' |] eqn:Hd; [| discriminate]. intros _.
  unfold digits in Hd. destruct s as [| p rest]; [discriminate |].
  destruct (decimal p) as [d |] eqn:Hp; [| discriminate].
  exists p, rest.
  apply (digits_tail_last (List.length rest)) in Hd as [-> | (s0 & l & -> & Hl)];
    [| | lia].
  - exists [], p. repeat split; [congruence |]. unfold is_decimal. now rewrite Hp.
  - exists (p :: s0), l. repeat split; [congruence | exact Hl].
Qed.

(** What [int] accepts, blanks aside, begins with a sign or a digit and
    ends with a digit: neither is a blank of [str.strip]. *)
Lemma int_ends (s : list N) (v : Z) :
  int s = Some v ->
  exists h t s0 l,
    strip_by int_space s = h :: t /\ isspace h = false /\
    strip_by int_space s = s0 ++ [l] /\ isspace l = false.
Proof.
  unfold int. destruct (strip_by int_space s) as [| h t]; [discriminate |].
  assert (Hdec : forall l, is_decimal l = true -> isspace l = false).
  { intros l. unfold is_decimal. destruct (decimal l) eqn:E; [| discriminate].
    intros _. now apply (decimal_not_space l z). }
  assert (Hfirst : forall p, decimal p <> None -> isspace p = false).
  { intros p. destruct (decimal p) eqn:E; [| congruence].
    intros _. now apply (decimal_not_space p z). }
  destruct (h =? MINUS)%N eqn:Hm; [| destruct (h =? PLUS)%N eqn:Hpl].
  - apply N.eqb_eq in Hm. subst h.
    destruct (limited t) as [v' |] eqn:Hl; [| discriminate]. intros _.
    apply limited_last in Hl as (p & rest & s0 & l & _ & _ & -> & Hl).
    exists MINUS, (s0 ++ [l]), (MINUS :: s0), l. repeat split. now apply Hdec.
  - apply N.eqb_eq in Hpl. subst h. intros Hl.
    apply limited_last in Hl as (p & rest & s0 & l & _ & _ & -> & Hl).
    exists PLUS, (s0 ++ [l]), (PLUS :: s0), l. repeat split. now apply Hdec.
  - intros Hl.
    apply limited_last in Hl as (p & rest & s0 & l & Hp & [= -> ->] & Hs & Hl).
    exists p, rest, s0, l. repeat split; auto.
Qed.

Lemma int_lstrip (s : list N) (v : Z) :
  int s = Some v -> int (lstrip_by isspace s) = Some v.
Proof.
  intros Hint. destruct (int_ends s v Hint) as (h & t & _ & _ & Hh & Hsp & _ & _).
  unfold strip_by in Hh. rewrite lstrip_rstrip in Hh.
  apply rstrip_cons_inv in Hh as [u' Hu].
  assert (lstrip_by isspace s = lstrip_by int_space s) as ->.
  { rewrite <- (lstrip_weaker int_space isspace s int_space_isspace), Hu.
    cbn [lstrip_by]. now rewrite Hsp. }
  unfold int in *. now rewrite strip_lstrip.
Qed.

Lemma int_rstrip (s : list N) (v : Z) :
  int s = Some v -> int (rstrip_by isspace s) = Some v.
Proof.
  intros Hint. destruct (int_ends s v Hint) as (_ & _ & s0 & l & _ & _ & Hl & Hsp).
  unfold strip_by in Hl.
  destruct (lstrip_suffix int_space (rstrip_by int_space s)) as [pre Hpre].
  rewrite Hl in Hpre.
  assert (rstrip_by isspace s = rstrip_by int_space s) as ->.
  { rewrite <- (rstrip_weaker int_space isspace s int_space_isspace), Hpre.
    rewrite app_assoc. rewrite (rstrip_app isspace (pre ++ s0) l [] Hsp).
    reflexivity. }
  unfold int in *. now rewrite strip_rstrip.
Qed.
End PyStrFacts.

(** ** Completion Classifier *)

Section Classifier.
Import PyStr PyStrFacts.

(** The leading [strip] of the parse does not change where the separators
    are. *)
Lemma parse_points_components (s : list N) :
  parse_points s =
  if has_point SLASH s then
    match two_integers s with
    | Some p => inr p
    | None => inl ValueError
    end
  else inr (0, 0).
Proof.
  unfold parse_points, two_integers. cbv zeta. unfold strip.
  rewrite has_point_strip by reflexivity.
  destruct (has_point SLASH s); [| reflexivity].
  destruct (split SLASH (strip_by isspace s)) as [| x [| y [| z t]]]; try reflexivity.
  destruct (int x), (int y); reflexivity.
Qed.

Lemma parse_progress_components (s : string) :
  parse_progress s =
  if contains "/" s then
    match two_integers (decode s) with
    | Some p => inr p
    | None => inl ValueError
    end
  else inr (0, 0).
Proof.
  unfold parse_progress. now rewrite parse_points_components, has_slash_decode.
Qed.

Lemma two_integers_joined (x y : list N) (a b : Z) :
  has_point SLASH x = false -> has_point SLASH y = false ->
  int x = Some a -> int y = Some b ->
  two_integers (x ++ SLASH :: y) = Some (a, b).
Proof.
  intros Hx Hy Ha Hb. unfold two_integers, strip.
  rewrite strip_app by reflexivity.
  rewrite split_app by (now rewrite has_point_lstrip by reflexivity).
  rewrite split_no_sep by (now rewrite has_point_rstrip by reflexivity).
  now rewrite (int_lstrip _ _ Ha), (int_rstrip _ _ Hb).
Qed.

Lemma parse_points_joined (x y : list N) (a b : Z) :
  has_point SLASH x = false -> has_point SLASH y = false ->
  int x = Some a -> int y = Some b ->
  parse_points (x ++ SLASH :: y) = inr (a, b).
Proof.
  intros Hx Hy Ha Hb.
  rewrite parse_points_components, (two_integers_joined x y a b) by assumption.
  now rewrite has_point_app, has_point_cons, N.eqb_refl, orb_true_r.
Qed.

Lemma decode_numerals (a b : Z) :
  decode (str_of_Z a ++ "/" ++ str_of_Z b)
  = points (str_of_Z a) ++ SLASH :: points (str_of_Z b).
Proof.
  destruct (str_of_Z_shape a) as (Ha & _ & _).
  destruct (str_of_Z_shape b) as (Hb & _ & _).
  rewrite (decode_ascii_app _ _ Ha).
  change ("/" ++ str_of_Z b)%string with (String "/" (str_of_Z b)).
  rewrite decode_ascii_cons by reflexivity. now rewrite (decode_ascii _ Hb).
Qed.

Lemma two_integers_numerals (a b : Z) :
  two_integers (points (str_of_Z a) ++ SLASH :: points (str_of_Z b)) =
  match int (points (str_of_Z a)), int (points (str_of_Z b)) with
  | Some a', Some b' => Some (a', b')
  | _, _ => None
  end.
Proof.
  destruct (str_of_Z_shape a) as (_ & Hba & Hsa).
  destruct (str_of_Z_shape b) as (_ & Hbb & Hsb).
  unfold two_integers, strip. rewrite strip_app by reflexivity.
  rewrite (lstrip_none _ _ Hba), (rstrip_none _ _ Hbb).
  now rewrite (split_app _ _ _ Hsa), (split_no_sep _ _ Hsb).
Qed.

Lemma int_str_of_Z_over (z : Z) :
  (INT_MAX_STR_DIGITS < String.length (str_of_Z (Z.abs z)))%nat ->
  int (points (str_of_Z z)) = None.
Proof.
  intros Hlen.
  assert (Hover : forall d, d <> Decimal.Nil ->
                    (INT_MAX_STR_DIGITS < String.length (NilEmpty.string_of_uint d))%nat ->
                    limited (points (NilEmpty.string_of_uint d)) = None).
  { intros d Hd Hl. unfold limited.
    rewrite (digits_uint d Hd), (digit_points_count _ (digit_points_uint d)), points_length.
    apply Nat.ltb_lt in Hl. now rewrite Hl. }
  unfold str_of_Z.
  destruct z as [| p | p].
  - apply Nat.ltb_lt in Hlen. vm_compute in Hlen. discriminate Hlen.
  - simpl Z.to_int. assert (Hp := Unsigned.to_uint_nonnil p).
    simpl NilZero.string_of_int. rewrite (string_of_uint_nonnil _ Hp).
    simpl Z.abs in Hlen. rewrite <- numeral_digits_pos in Hlen.
    unfold int.
    rewrite strip_none
      by (apply digit_points_no_blank; [| apply digit_points_uint];
          intros q Hq; apply (digit_not_blank q Hq)).
    assert (Hd := digit_points_uint (Pos.to_uint p)).
    assert (Hl := Hover _ Hp Hlen).
    destruct (points (NilEmpty.string_of_uint (Pos.to_uint p))) as [| q rest];
      [reflexivity |].
    assert (Hq : in_range 48 57 q = true) by (inversion Hd; assumption).
    assert ((q =? MINUS)%N = false /\ (q =? PLUS)%N = false) as [-> ->].
    { clear -Hq. digit_cases Hq; split; reflexivity. }
    exact Hl.
  - simpl Z.to_int. assert (Hp := Unsigned.to_uint_nonnil p).
    simpl NilZero.string_of_int. rewrite (string_of_uint_nonnil _ Hp).
    simpl Z.abs in Hlen. rewrite <- numeral_digits_pos in Hlen.
    unfold int. rewrite points_cons. rewrite strip_none.
    + change (N_of_ascii "-" =? MINUS)%N with true. cbv iota.
      now rewrite (Hover _ Hp Hlen).
    + constructor; [reflexivity |].
      apply digit_points_no_blank; [| apply digit_points_uint].
      intros q Hq. apply (digit_not_blank q Hq).
Qed.
End Classifier.

(** C6 (as the code has it).  A progress text "a/b" made of the decimal
    numerals of two integers is parsed to the pair (a, b) when neither
    numeral has more than 4300 digits, and makes the parse raise
    [ValueError] when one has.  Any two components that [int] reads as a and
    b, around one separator, are parsed to (a, b).  A text without the
    separator is parsed to (0, 0); nothing is raised. *)
Theorem parse_progress_pair_or_default :
  (forall a b : Z,
      (numeral_digits a <= 4300)%nat -> (numeral_digits b <= 4300)%nat ->
      parse_progress (PyStr.str_of_Z a ++ "/" ++ PyStr.str_of_Z b) = inr (a, b)) /\
  (forall a b : Z,
      (4300 < numeral_digits a)%nat \/ (4300 < numeral_digits b)%nat ->
      parse_progress (PyStr.str_of_Z a ++ "/" ++ PyStr.str_of_Z b) = inl ValueError) /\
  (forall (x y : list N) (a b : Z),
      PyStr.has_point PyStr.SLASH x = false -> PyStr.has_point PyStr.SLASH y = false ->
      PyStr.int x = Some a -> PyStr.int y = Some b ->
      parse_points (x ++ PyStr.SLASH :: y) = inr (a, b)) /\
  (forall s : string,
      PyStr.contains "/" s = false -> parse_progress s = inr (0, 0)).
Proof.
  split; [| split; [| split]].
  - intros a b Ha Hb. unfold parse_progress.
    rewrite decode_numerals. apply parse_points_joined.
    + apply PyStrFacts.str_of_Z_shape.
    + apply PyStrFacts.str_of_Z_shape.
    + now apply PyStrFacts.int_str_of_Z.
    + now apply PyStrFacts.int_str_of_Z.
  - intros a b Hover. unfold parse_progress.
    rewrite decode_numerals, parse_points_components, two_integers_numerals.
    rewrite PyStrFacts.has_point_app, PyStrFacts.has_point_cons, N.eqb_refl, orb_true_r.
    destruct Hover as [Ha | Hb].
    + now rewrite (int_str_of_Z_over a Ha).
    + rewrite (int_str_of_Z_over b Hb).
      now destruct (PyStr.int (PyStr.points (PyStr.str_of_Z a))).
  - apply parse_points_joined.
  - intros s Hs. now rewrite parse_progress_components, Hs.
Qed.

Lemma parse_progress_pair_or_default_witness :
  parse_progress "12/20" = inr (12, 20) /\
  parse_points (PyStr.decode " +2 " ++ PyStr.SLASH :: PyStr.decode " ３ ") = inr (2, 3) /\
  parse_progress "n.a." = inr (0, 0).
Proof.
  split; [| split].
  - apply (proj1 parse_progress_pair_or_default 12 20);
      apply Nat.leb_le; vm_compute; reflexivity.
  - apply (proj1 (proj2 (proj2 parse_progress_pair_or_default))
             (PyStr.decode " +2 ") (PyStr.decode " ３ ") 2 3);
      vm_compute; reflexivity.
  - apply (proj2 (proj2 (proj2 parse_progress_pair_or_default))). reflexivity.
Defined.

(** C6 (as the specification has it) fails: the numeral of 10^4300 has 4301
    digits, and the text made of it, the separator and "1" is not parsed to
    a pair. *)
Lemma long_numeral_is_not_parsed :
  numeral_digits (10 ^ 4300) = 4301%nat /\
  parse_progress (PyStr.str_of_Z (10 ^ 4300) ++ "/" ++ PyStr.str_of_Z 1)
  = inl ValueError.
Proof. split; vm_compute; reflexivity. Qed.

Lemma passed_token_is_passed (item_class : option string) :
  passed_token item_class = true -> is_passed item_class = true.
Proof.
  destruct item_class as [c |]; [| discriminate].
  unfold passed_token, is_passed. intros Ht.
  apply existsb_exists in Ht as (t & Hin & Heq).
  apply String.eqb_eq in Heq. subst t.
  destruct (String.eqb c "") eqn:E.
  - apply String.eqb_eq in E. subst c. destruct Hin.
  - now apply (proj1 (PyStrFacts.class_tokens_occur c)).
Qed.

(** C2 (as the code has it).  The classifier answers true exactly when the
    class attribute is there and "passed" occurs in it as a substring; when
    "passed" is one of the class tokens it answers true. *)
Theorem is_passed_substring :
  forall item_class : option string,
    (is_passed item_class = true <->
     exists c, item_class = Some c /\ PyStr.contains "passed" c = true) /\
    (passed_token item_class = true -> is_passed item_class = true).
Proof.
  intros [c |]; split.
  - unfold is_passed. split.
    + intros Hp. exists c. split; [reflexivity |].
      destruct (String.eqb c ""); [discriminate | exact Hp].
    + intros (c' & [= <-] & Hc). destruct (String.eqb c "") eqn:E; [| exact Hc].
      apply String.eqb_eq in E. subst c. discriminate.
  - apply passed_token_is_passed.
  - split; [discriminate | intros (c & [=] & _)].
  - discriminate.
Qed.

Lemma is_passed_substring_witness :
  is_passed (Some "img-texts-item passed") = true.
Proof.
  apply (proj2 (is_passed_substring (Some "img-texts-item passed"))).
  reflexivity.
Defined.

(** C2 (as the specification has it) fails: a class attribute none of whose
    tokens is "passed" is classified as done. *)
Lemma is_passed_not_token :
  passed_token (Some "img-texts-item unpassed") = false /\
  is_passed (Some "img-texts-item unpassed") = true.
Proof. split; reflexivity. Qed.

(** ** Frame Resolver *)

Section FrameResolverFacts.
Context `{Handles}.

Lemma find_mcwk_ranked (frames : list Frame) :
  find_mcwk frames = find on_content_domain (candidates frames).
Proof.
  induction frames as [| f rest IH]; [reflexivity |].
  unfold candidates in *. simpl.
  destruct (placeholder (frame_url f)); simpl; [exact IH |].
  unfold on_content_domain at 1.
  destruct (PyStr.contains MCWK_DOMAIN (frame_url f)); [reflexivity | exact IH].
Qed.

Lemma find_course_ranked (frames : list Frame) :
  find_course frames = find course_path_off_main (candidates frames).
Proof.
  induction frames as [| f rest IH]; [reflexivity |].
  unfold candidates in *. simpl.
  destruct (placeholder (frame_url f)); simpl; [exact IH |].
  unfold course_path_off_main at 1.
  destruct (PyStr.contains WEIBAN_DOMAIN (frame_url f)); simpl; [exact IH |].
  destruct (PyStr.contains "/course/" (PyStr.lower (frame_url f)));
    [reflexivity | exact IH].
Qed.

Lemma find_first_valid_ranked (url : string) (frames : list Frame) :
  find_first_valid url frames = find (not_main_page url) (candidates frames).
Proof.
  induction frames as [| f rest IH]; [reflexivity |].
  unfold candidates in *. simpl. unfold placeholder.
  destruct (String.eqb (frame_url f) ""), (String.eqb (frame_url f) "about:blank"),
    (PyStr.contains "javascript:" (frame_url f)),
    (String.eqb (frame_url f) url) eqn:Hmain;
    simpl; unfold not_main_page at 1; rewrite ?Hmain; simpl; auto.
Qed.

Lemma resolve_iframe_is_ranked (url : string) (frames : list Frame) :
  resolve_iframe url frames = resolve_ranked url frames.
Proof.
  unfold resolve_iframe, resolve_ranked.
  now rewrite find_mcwk_ranked, find_course_ranked, find_first_valid_ranked.
Qed.

Lemma resolve_prefers_domain (url : string) (frames : list Frame) (f : Frame) :
  In f frames -> placeholder (frame_url f) = false -> on_content_domain f = true ->
  exists g, resolve_iframe url frames = Some g /\ In g frames /\
            placeholder (frame_url g) = false /\ on_content_domain g = true.
Proof.
  intros Hin Hp Hd. rewrite resolve_iframe_is_ranked. unfold resolve_ranked.
  destruct (find on_content_domain (candidates frames)) as [g |] eqn:Hf.
  - apply find_some in Hf as [Hg Hgd]. apply filter_In in Hg as [Hg Hgp].
    exists g. repeat split; auto. now apply negb_true_iff.
  - exfalso. rewrite (find_none _ _ Hf f) in Hd; [discriminate |].
    apply filter_In. split; [exact Hin | now rewrite Hp].
Qed.

Lemma resolve_prefers_course (url : string) (frames : list Frame) (f : Frame) :
  (forall g, In g frames -> placeholder (frame_url g) = false ->
             on_content_domain g = false) ->
  In f frames -> placeholder (frame_url f) = false -> course_path_off_main f = true ->
  exists g, resolve_iframe url frames = Some g /\ In g frames /\
            placeholder (frame_url g) = false /\ course_path_off_main g = true.
Proof.
  intros Hnone Hin Hp Hc. rewrite resolve_iframe_is_ranked. unfold resolve_ranked.
  destruct (find on_content_domain (candidates frames)) as [g |] eqn:Hf.
  - apply find_some in Hf as [Hg Hgd]. apply filter_In in Hg as [Hg Hgp].
    apply negb_true_iff in Hgp. rewrite (Hnone g Hg Hgp) in Hgd. discriminate.
  - destruct (find course_path_off_main (candidates frames)) as [g |] eqn:Hf2.
    + apply find_some in Hf2 as [Hg Hgd]. apply filter_In in Hg as [Hg Hgp].
      exists g. repeat split; auto. now apply negb_true_iff.
    + exfalso. rewrite (find_none _ _ Hf2 f) in Hc; [discriminate |].
      apply filter_In. split; [exact Hin | now rewrite Hp].
Qed.
End FrameResolverFacts.

Section ResolverWordsFacts.
Context `{Handles}.

Lemma find_ext_in {A} (f g : A -> bool) (l : list A) :
  (forall x, In x l -> f x = g x) -> find f l = find g l.
Proof.
  induction l as [| a l IH]; [reflexivity |]. intros Hfg. simpl.
  rewrite (Hfg a (or_introl eq_refl)).
  destruct (g a); [reflexivity |]. apply IH. intros x Hx. apply Hfg. now right.
Qed.

Lemma resolve_iframe_by_words (url : string) (frames : list Frame) :
  forallb reads_alike frames = true ->
  resolve_iframe url frames = resolve_by_words url frames.
Proof.
  intros Halike. rewrite forallb_forall in Halike.
  assert (Hf : forall f, In f frames ->
                 placeholder (frame_url f) = excluded_address (frame_url f) /\
                 on_content_domain f = hosted_on "mcwk.mycourse.cn" (frame_url f) /\
                 course_path_off_main f =
                 negb (hosted_on "weiban.mycourse.cn" (frame_url f))
                 && has_course_segment (frame_url f)).
  { intros f Hin. specialize (Halike f Hin). unfold reads_alike in Halike.
    apply andb_prop in Halike as [Halike H3]. apply andb_prop in Halike as [H1 H2].
    apply Bool.eqb_prop in H1, H2, H3. auto. }
  rewrite resolve_iframe_is_ranked. unfold resolve_ranked, resolve_by_words. cbv zeta.
  assert (Hc : candidates frames
               = filter (fun f => negb (excluded_address (frame_url f))) frames).
  { unfold candidates. apply filter_ext_in. intros f Hin.
    now rewrite (proj1 (Hf f Hin)). }
  rewrite <- Hc.
  assert (Hin : forall f, In f (candidates frames) -> In f frames).
  { intros f Hc'. unfold candidates in Hc'. now apply filter_In in Hc'. }
  rewrite (find_ext_in on_content_domain
             (fun f => hosted_on "mcwk.mycourse.cn" (frame_url f)))
    by (intros f Hf'; apply (Hf f (Hin f Hf'))).
  rewrite (find_ext_in course_path_off_main
             (fun f => negb (hosted_on "weiban.mycourse.cn" (frame_url f))
                       && has_course_segment (frame_url f)))
    by (intros f Hf'; apply (Hf f (Hin f Hf'))).
  reflexivity.
Qed.
End ResolverWordsFacts.

(** C5 (as the code has it).  The frame found by the three loops is a
    function of the page's address and the ordered frame list, and it is
    the ranked choice by substring tests: among the frames whose address is
    not empty, not "about:blank" and does not hold "javascript:" anywhere,
    the first whose address holds "mcwk.mycourse.cn" anywhere; else the
    first whose address does not hold "weiban.mycourse.cn" and, lowered,
    holds "/course/"; else the first whose address is not the page's; else
    none.  A frame that passes the first test wins whenever there is one, a
    frame that passes the second whenever there is one and none passes the
    first.  On a frame list on which the substring tests say what the
    specification's words say (host, scheme and path segment), the choice
    is the one the specification describes.  The three-frame list of the
    scenario resolves to its third frame. *)
Theorem resolve_iframe_ranked_choice :
  (forall (H : Handles) (url : string) (frames : list Frame),
      resolve_iframe url frames = resolve_ranked url frames) /\
  (forall (H : Handles) (f : Frame),
      placeholder (frame_url f)
      = (String.eqb (frame_url f) EmptyString
         || String.eqb (frame_url f) "about:blank"
         || PyStr.contains "javascript:" (frame_url f)) /\
      on_content_domain f = PyStr.contains "mcwk.mycourse.cn" (frame_url f) /\
      course_path_off_main f
      = negb (PyStr.contains "weiban.mycourse.cn" (frame_url f))
        && PyStr.contains "/course/" (PyStr.lower (frame_url f)) /\
      forall url, not_main_page url f = negb (String.eqb (frame_url f) url)) /\
  (forall (H : Handles) (url : string) (frames : list Frame) (f : Frame),
      In f frames -> placeholder (frame_url f) = false ->
      on_content_domain f = true ->
      exists g, resolve_iframe url frames = Some g /\ In g frames /\
                placeholder (frame_url g) = false /\ on_content_domain g = true) /\
  (forall (H : Handles) (url : string) (frames : list Frame) (f : Frame),
      (forall g, In g frames -> placeholder (frame_url g) = false ->
                 on_content_domain g = false) ->
      In f frames -> placeholder (frame_url f) = false ->
      course_path_off_main f = true ->
      exists g, resolve_iframe url frames = Some g /\ In g frames /\
                placeholder (frame_url g) = false /\ course_path_off_main g = true) /\
  (forall (H : Handles) (url : string) (frames : list Frame),
      forallb reads_alike frames = true ->
      resolve_iframe url frames = resolve_by_words url frames) /\
  (forall url : string,
      @resolve_iframe UrlHandles url
        ["about:blank"; "https://cdn.example/x"; "https://content.example/course/42"]
      = Some "https://content.example/course/42").
Proof.
  split; [| split; [| split; [| split; [| split]]]].
  - intros. apply resolve_iframe_is_ranked.
  - intros H f. repeat split.
  - intros. eapply resolve_prefers_domain; eassumption.
  - intros. eapply resolve_prefers_course; eassumption.
  - intros H. apply resolve_iframe_by_words.
  - intros url. vm_compute. reflexivity.
Qed.

Lemma resolve_iframe_ranked_choice_witness :
  (exists g,
      @resolve_iframe UrlHandles "https://weiban.mycourse.cn/#/list"
        ["about:blank"; "https://x.example/course/1"; "https://mcwk.mycourse.cn/a"]
      = Some g /\ @on_content_domain UrlHandles g = true) /\
  @resolve_iframe UrlHandles "https://weiban.mycourse.cn/#/list"
    ["about:blank"; "https://weiban.mycourse.cn/#/list";
     "https://mcwk.mycourse.cn/course/A11001/A11001.html"]
  = @resolve_by_words UrlHandles "https://weiban.mycourse.cn/#/list"
      ["about:blank"; "https://weiban.mycourse.cn/#/list";
       "https://mcwk.mycourse.cn/course/A11001/A11001.html"].
Proof.
  split.
  - destruct (proj1 (proj2 (proj2 resolve_iframe_ranked_choice)) UrlHandles
                "https://weiban.mycourse.cn/#/list"
                ["about:blank"; "https://x.example/course/1"; "https://mcwk.mycourse.cn/a"]
                "https://mcwk.mycourse.cn/a")
      as (g & Hg & _ & _ & Hd).
    + simpl. auto.
    + vm_compute. reflexivity.
    + vm_compute. reflexivity.
    + exists g. split; assumption.
  - apply (proj1 (proj2 (proj2 (proj2 (proj2 resolve_iframe_ranked_choice)))) UrlHandles).
    vm_compute. reflexivity.
Defined.

(** C5 (as the specification has it) fails.  A frame on the content host
    whose query holds "javascript:" is not a script pseudo-URL, yet the code
    drops it and takes a frame on another host whose query names the content
    domain.  A frame whose path ends in the segment "course" is passed over
    for an earlier frame without one. *)
Lemma content_host_frame_is_passed_over :
  (excluded_address
     "https://mcwk.mycourse.cn/course/A11001/index.html?back=javascript:history.back()"
   = false /\
   hosted_on "mcwk.mycourse.cn"
     "https://mcwk.mycourse.cn/course/A11001/index.html?back=javascript:history.back()"
   = true /\
   hosted_on "mcwk.mycourse.cn" "https://stat.example/pixel?ref=mcwk.mycourse.cn"
   = false /\
   @resolve_by_words UrlHandles "https://weiban.mycourse.cn/#/list"
     ["https://mcwk.mycourse.cn/course/A11001/index.html?back=javascript:history.back()";
      "https://stat.example/pixel?ref=mcwk.mycourse.cn"]
   = Some "https://mcwk.mycourse.cn/course/A11001/index.html?back=javascript:history.back()" /\
   @resolve_iframe UrlHandles "https://weiban.mycourse.cn/#/list"
     ["https://mcwk.mycourse.cn/course/A11001/index.html?back=javascript:history.back()";
      "https://stat.example/pixel?ref=mcwk.mycourse.cn"]
   = Some "https://stat.example/pixel?ref=mcwk.mycourse.cn") /\
  (has_course_segment "https://a.example/intro" = false /\
   has_course_segment "https://b.example/course" = true /\
   @resolve_by_words UrlHandles "https://weiban.mycourse.cn/#/list"
     ["https://a.example/intro"; "https://b.example/course"]
   = Some "https://b.example/course" /\
   @resolve_iframe UrlHandles "https://weiban.mycourse.cn/#/list"
     ["https://a.example/intro"; "https://b.example/course"]
   = Some "https://a.example/intro").
Proof. repeat split; vm_compute; reflexivity. Qed.

(** ** Runs of the monad *)

Section RunFacts.
Context `{Browser}.

Lemma bind_ok {A B} (m : M A) (k : A -> M B) (s s1 : state) (a : A) (t1 : list entry) :
  m s = (Ok a, s1, t1) ->
  bind m k s = (result (k a s1), final (k a s1), t1 ++ calls (k a s1)).
Proof.
  intros Hm. unfold bind. rewrite Hm.
  now destruct (k a s1) as [[r s2] t2].
Qed.


Lemma bind_get_world {B} (k : World -> M B) (s : state) :
  bind get_world k s = k (snd s) s.
Proof. unfold bind, get_world. now destruct (k (snd s) s) as [[r s2] t2]. Qed.

Lemma bind_get_locals {B} (k : locals -> M B) (s : state) :
  bind get_locals k s = k (fst s) s.
Proof. unfold bind, get_locals. now destruct (k (fst s) s) as [[r s2] t2]. Qed.

Lemma bind_raise {A B} (m : M A) (k : A -> M B) (s s1 : state) (e : exn) (t1 : list entry) :
  m s = (Raise e, s1, t1) -> bind m k s = (Raise e, s1, t1).
Proof. intros Hm. unfold bind. now rewrite Hm. Qed.


Lemma try_raise {A} (m : M A) (h : exn -> M A) (s s1 : state) (e : exn) (t1 : list entry) :
  m s = (Raise e, s1, t1) ->
  try_catch m h s = (result (h e s1), final (h e s1), t1 ++ calls (h e s1)).
Proof.
  intros Hm. unfold try_catch. rewrite Hm.
  now destruct (h e s1) as [[r s2] t2].
Qed.

(** *** [terminates] *)

Lemma terminates_ret {A} (a : A) : terminates (ret a).
Proof. intros s. discriminate. Qed.

Lemma terminates_raise {A} (e : exn) : terminates (@raise _ _ A e).
Proof. intros s. discriminate. Qed.

Lemma terminates_call {R} (e : browserE R) : terminates (call e).
Proof.
  intros s. unfold call, result.
  destruct (perform R e (snd s)) as [[x | v] w]; discriminate.
Qed.

Lemma terminates_lift {A} (r : exn + A) : terminates (lift r).
Proof. destruct r; [apply terminates_raise | apply terminates_ret]. Qed.

Lemma terminates_index {A} (xs : list A) (i : nat) : terminates (index xs i).
Proof.
  unfold index. destruct (nth_error xs i);
    [apply terminates_ret | apply terminates_raise].
Qed.

Lemma terminates_bind {A B} (m : M A) (k : A -> M B) :
  terminates m -> (forall a, terminates (k a)) -> terminates (bind m k).
Proof.
  intros Hm Hk s. specialize (Hm s). unfold bind, result in *.
  destruct (m s) as [[[a | e |] s1] t1]; simpl in *;
    [| discriminate | contradiction].
  specialize (Hk a s1). unfold result in Hk.
  now destruct (k a s1) as [[r s2] t2].
Qed.

Lemma terminates_try {A} (m : M A) (h : exn -> M A) :
  terminates m -> (forall e, terminates (h e)) -> terminates (try_catch m h).
Proof.
  intros Hm Hh s. specialize (Hm s). unfold try_catch, result in *.
  destruct (m s) as [[[a | e |] s1] t1]; simpl in *;
    [discriminate | | contradiction].
  specialize (Hh e s1). unfold result in Hh.
  now destruct (h e s1) as [[r s2] t2].
Qed.

(** *** [never_raises] *)

Lemma never_raises_ret {A} (a : A) : never_raises (ret a).
Proof. intros s. now exists a. Qed.

Lemma never_raises_bind {A B} (m : M A) (k : A -> M B) :
  never_raises m -> (forall a, never_raises (k a)) -> never_raises (bind m k).
Proof.
  intros Hm Hk s. destruct (Hm s) as [a Ha]. unfold bind, result in *.
  destruct (m s) as [[r s1] t1]; simpl in Ha; subst r.
  destruct (Hk a s1) as [b Hb]. unfold result in Hb.
  destruct (k a s1) as [[r s2] t2]. now exists b.
Qed.

Lemma never_raises_try {A} (m : M A) (h : exn -> M A) :
  terminates m -> (forall e, never_raises (h e)) -> never_raises (try_catch m h).
Proof.
  intros Hm Hh s. specialize (Hm s). unfold try_catch, result in *.
  destruct (m s) as [[[a | e |] s1] t1]; simpl in *;
    [now exists a | | contradiction].
  destruct (Hh e s1) as [b Hb]. unfold result in Hb.
  destruct (h e s1) as [[r s2] t2]. now exists b.
Qed.

Lemma never_raises_terminates {A} (m : M A) : never_raises m -> terminates m.
Proof. intros Hm s. destruct (Hm s) as [a Ha]. now rewrite Ha. Qed.

(** *** [only_calls] *)

Lemma only_calls_ret {A} (P : entry -> Prop) (a : A) : only_calls P (ret a).
Proof. intros s. constructor. Qed.

Lemma only_calls_raise {A} (P : entry -> Prop) (e : exn) :
  only_calls P (@raise _ _ A e).
Proof. intros s. constructor. Qed.

Lemma only_calls_call {R} (P : entry -> Prop) (e : browserE R) :
  (forall r, P (Called e r)) -> only_calls P (call e).
Proof.
  intros HP s. unfold call, calls.
  destruct (perform R e (snd s)) as [[x | v] w]; repeat constructor; apply HP.
Qed.

Lemma only_calls_bind {A B} (P : entry -> Prop) (m : M A) (k : A -> M B) :
  only_calls P m -> (forall a, only_calls P (k a)) -> only_calls P (bind m k).
Proof.
  intros Hm Hk s. specialize (Hm s). unfold bind, calls in *.
  destruct (m s) as [[[a | e |] s1] t1]; simpl in *; try assumption.
  specialize (Hk a s1). unfold calls in Hk.
  destruct (k a s1) as [[r s2] t2]. simpl in *.
  apply Forall_app. now split.
Qed.

Lemma only_calls_try {A} (P : entry -> Prop) (m : M A) (h : exn -> M A) :
  only_calls P m -> (forall e, only_calls P (h e)) -> only_calls P (try_catch m h).
Proof.
  intros Hm Hh s. specialize (Hm s). unfold try_catch, calls in *.
  destruct (m s) as [[[a | e |] s1] t1]; simpl in *; try assumption.
  specialize (Hh e s1). unfold calls in Hh.
  destruct (h e s1) as [[r s2] t2]. simpl in *.
  apply Forall_app. now split.
Qed.
End RunFacts.

(** One step through a computation built from [bind], [try_catch], calls and
    case distinctions. *)
Ltac run_step :=
  match goal with
  | |- terminates (bind _ _) => apply terminates_bind; [| intros ?]
  | |- terminates (try_catch _ _) => apply terminates_try; [| intros ?]
  | |- terminates (call _) => apply terminates_call
  | |- terminates (ret _) => apply terminates_ret
  | |- terminates (raise _) => apply terminates_raise
  | |- terminates (lift _) => apply terminates_lift
  | |- terminates (index _ _) => apply terminates_index
  | |- terminates get_locals => intros ?; discriminate
  | |- terminates get_world => intros ?; discriminate
  | |- terminates (set_title_button _) => intros ?; discriminate
  | |- terminates incr_module_index => intros ?; discriminate
  | |- terminates incr_completed_count => intros ?; discriminate
  | |- only_calls _ (bind _ _) => apply only_calls_bind; [| intros ?]
  | |- only_calls _ (try_catch _ _) => apply only_calls_try; [| intros ?]
  | |- only_calls _ (call _) => apply only_calls_call; intros ?
  | |- only_calls _ (ret _) => apply only_calls_ret
  | |- only_calls _ (raise _) => apply only_calls_raise
  | |- only_calls _ get_locals => intros ?; constructor
  | |- only_calls _ get_world => intros ?; constructor
  | |- only_calls _ (set_title_button _) => intros ?; constructor
  | |- only_calls _ incr_module_index => intros ?; constructor
  | |- only_calls _ incr_completed_count => intros ?; constructor
  | |- ?P (match ?x with _ => _ end) => destruct x
  | |- ?P ?Q (match ?x with _ => _ end) => destruct x
  end.

Ltac run_all := repeat run_step.

(** ** Lesson Runner and Module Walker: every turn comes to an end *)

Section Termination.
Context `{Browser}.

Lemma terminates_find_first_incomplete (items : list Elem) (idx : nat) :
  terminates (find_first_incomplete items idx).
Proof.
  revert idx. induction items as [| it rest IH]; intros idx; simpl.
  - apply terminates_ret.
  - run_step; [run_step |]. destruct (is_passed a); [apply IH | run_all].
Qed.

Lemma terminates_click_start_button (iframe : Frame) :
  terminates (click_start_button iframe).
Proof.
  unfold click_start_button, start_by_class, start_by_image,
    start_by_pri_class, start_by_any. run_all.
Qed.

Lemma terminates_complete_in_frame (iframe : Frame) :
  terminates (complete_in_frame iframe).
Proof.
  unfold complete_in_frame, detect_video_course, start_course, finish_course.
  run_step; [run_all |]. run_step.
  - destruct a; [run_all | apply terminates_click_start_button].
  - run_all.
Qed.

Lemma terminates_return_to_list : terminates return_to_list.
Proof. unfold return_to_list. run_all. Qed.

Lemma terminates_run_lesson (item : Elem) : terminates (run_lesson item).
Proof.
  unfold run_lesson, click_item, wait_for_load_state, find_iframe.
  repeat (run_step;
          try apply terminates_complete_in_frame;
          try apply terminates_return_to_list).
Qed.

Lemma terminates_next_lesson : terminates next_lesson.
Proof.
  unfold next_lesson, ensure_expanded.
  repeat (run_step; try apply terminates_find_first_incomplete).
Qed.

Lemma terminates_drain_body : terminates drain_body.
Proof.
  unfold drain_body.
  repeat (run_step;
          try apply terminates_next_lesson;
          try apply terminates_run_lesson).
Qed.

Lemma never_raises_drain_iter : never_raises drain_iter.
Proof.
  apply never_raises_try; [apply terminates_drain_body |].
  intros e. apply never_raises_ret.
Qed.
End Termination.

(** ** Trigger location *)

Section TriggerLocation.
Context `{Browser}.

Lemma bind_ext {A B} (m : M A) (k k' : A -> M B) :
  (forall a s, k a s = k' a s) -> forall s, bind m k s = bind m k' s.
Proof.
  intros Hk s. unfold bind.
  destruct (m s) as [[[a | e |] s1] t1]; try reflexivity.
  now rewrite Hk.
Qed.

Lemma sor_ret_true : succeeds_or_raises (ret true).
Proof. intros s. now left. Qed.

Lemma sor_bind {A} (m : M A) (k : A -> M bool) :
  terminates m -> (forall a, succeeds_or_raises (k a)) ->
  succeeds_or_raises (bind m k).
Proof.
  intros Hm Hk s. specialize (Hm s). unfold bind, result in *.
  destruct (m s) as [[[a | e |] s1] t1]; simpl in *.
  - specialize (Hk a s1). unfold result in Hk.
    now destruct (k a s1) as [[r s2] t2].
  - right. now exists e.
  - contradiction.
Qed.

Lemma sor_terminates (m : M bool) : succeeds_or_raises m -> terminates m.
Proof.
  intros Hm s. destruct (Hm s) as [Hs | [e Hs]]; rewrite Hs; discriminate.
Qed.

Lemma sor_start_by_class (iframe : Frame) : succeeds_or_raises (start_by_class iframe).
Proof.
  unfold start_by_class.
  repeat (apply sor_bind; [apply terminates_call | intros ?]).
  apply sor_ret_true.
Qed.

Lemma sor_start_by_image (iframe : Frame) : succeeds_or_raises (start_by_image iframe).
Proof.
  unfold start_by_image.
  repeat (apply sor_bind; [apply terminates_call | intros ?]).
  apply sor_ret_true.
Qed.

Lemma sor_start_by_pri_class (iframe : Frame) :
  succeeds_or_raises (start_by_pri_class iframe).
Proof.
  unfold start_by_pri_class.
  repeat (apply sor_bind; [apply terminates_call | intros ?]).
  apply sor_ret_true.
Qed.

(** A way that answers [true] or raises: handing the failure to [rest] is
    trying the way, then [rest] unless it succeeded. *)
Lemma try_first (way rest : M bool) :
  succeeds_or_raises way ->
  forall s,
    try_catch way (fun _ => rest) s =
    bind (try_catch way (fun _ => ret false))
         (fun ok => if ok then ret true else rest) s.
Proof.
  intros Hway s. specialize (Hway s). unfold try_catch, bind, ret, result in *.
  destruct (way s) as [[[[|] | e |] s1] t1]; simpl in *.
  - now rewrite List.app_nil_r.
  - destruct Hway as [Hw | [e Hw]]; discriminate.
  - rewrite List.app_nil_r. reflexivity.
  - destruct Hway as [Hw | [e Hw]]; discriminate.
Qed.

Lemma try_last (way : M bool) :
  forall s, try_catch way (fun _ => ret false) s = first_success [way] s.
Proof.
  intros s. simpl. unfold try_catch, bind, ret.
  destruct (way s) as [[[[|] | e |] s1] t1]; simpl; rewrite ?List.app_nil_r; reflexivity.
Qed.

Lemma click_start_button_first_success (iframe : Frame) (s : state) :
  click_start_button iframe s =
  first_success [start_by_class iframe; start_by_image iframe;
                 start_by_pri_class iframe; start_by_any iframe] s.
Proof.
  unfold click_start_button.
  rewrite try_first by apply sor_start_by_class.
  simpl first_success. apply bind_ext. intros [|] s1; [reflexivity |].
  rewrite try_first by apply sor_start_by_image.
  apply bind_ext. intros [|] s2; [reflexivity |].
  rewrite try_first by apply sor_start_by_pri_class.
  apply bind_ext. intros [|] s3; [reflexivity |].
  apply try_last.
Qed.

Lemma never_raises_click_start_button (iframe : Frame) :
  never_raises (click_start_button iframe).
Proof.
  unfold click_start_button.
  apply never_raises_try; [apply sor_terminates, sor_start_by_class | intros _].
  apply never_raises_try; [apply sor_terminates, sor_start_by_image | intros _].
  apply never_raises_try;
    [apply sor_terminates, sor_start_by_pri_class | intros _].
  apply never_raises_try; [unfold start_by_any; run_all | intros _].
  apply never_raises_ret.
Qed.
End TriggerLocation.

Section LessonTurn.
Context `{Browser}.

(** After the search for the start button, however it ended, the frame is
    polled for [finishWxCourse]. *)
Lemma start_then_finish (iframe : Frame) (s : state) :
  bind (start_course iframe false) (fun _ => finish_course iframe) s =
  (result (finish_course iframe (final (click_start_button iframe s))),
   final (finish_course iframe (final (click_start_button iframe s))),
   calls (click_start_button iframe s)
   ++ calls (finish_course iframe (final (click_start_button iframe s)))).
Proof.
  simpl start_course.
  destruct (never_raises_click_start_button iframe s) as [b Hb].
  destruct (click_start_button iframe s) as [[r s1] t1] eqn:Hc.
  unfold result in Hb. simpl in Hb. subst r.
  now rewrite (bind_ok _ _ _ _ _ _ Hc).
Qed.

(** A turn of the drain loop in which a lesson was chosen ends with
    [Continue], whatever happened inside the lesson. *)
Lemma drain_iter_continues (s s1 : state) (item : Elem) (t1 : list entry) :
  next_lesson s = (Ok (Some item), s1, t1) ->
  exists s2 t2, drain_iter s = (Ok Continue, s2, t1 ++ t2).
Proof.
  intros Hnext. unfold drain_iter, drain_body.
  assert (Hterm := terminates_run_lesson item s1). unfold result in Hterm.
  unfold try_catch, bind at 1. rewrite Hnext. unfold bind, ret.
  destruct (run_lesson item s1) as [[[u | e |] s2] t2]; simpl in *.
  - exists s2, (t2 ++ []). reflexivity.
  - exists s2, t2. now rewrite <- app_assoc, List.app_nil_r.
  - contradiction.
Qed.

(** A frame that shows the wifi hint: the lesson is a video, and the next
    call after the look for the hint is the poll for [finishWxCourse]. *)
Lemma video_goes_to_finish (iframe : Frame) (s : state) (tip : Elem) (w : World) :
  perform _ (FrameQuerySelector iframe WIFI_TIP_SEL) (snd s) = (inr (Some tip), w) ->
  detect_video_course iframe s =
    (Ok true, (fst s, w),
     [Called (FrameQuerySelector iframe WIFI_TIP_SEL) (inr (Some tip))]) /\
  complete_in_frame iframe s =
    (result (finish_course iframe (fst s, w)),
     final (finish_course iframe (fst s, w)),
     Called (FrameQuerySelector iframe WIFI_TIP_SEL) (inr (Some tip))
     :: calls (finish_course iframe (fst s, w))).
Proof.
  intros Hq.
  assert (Hd : detect_video_course iframe s =
               (Ok true, (fst s, w),
                [Called (FrameQuerySelector iframe WIFI_TIP_SEL) (inr (Some tip))])).
  { unfold detect_video_course, try_catch, bind, call. now rewrite Hq. }
  split; [exact Hd |].
  unfold complete_in_frame. rewrite (bind_ok _ _ _ _ _ _ Hd).
  simpl start_course.
  destruct (finish_course iframe (fst s, w)) as [[r s2] t2] eqn:Hf.
  unfold result, final, calls, bind, ret. simpl. now rewrite Hf.
Qed.

Lemma finish_course_only_evaluates (iframe : Frame) :
  only_calls (fun en => is_frame_evaluate en = true) (finish_course iframe).
Proof. unfold finish_course. run_all; reflexivity. Qed.

Lemma finish_course_polls_first (iframe : Frame) (s : state) :
  exists r rest,
    calls (finish_course iframe s)
    = Called (FrameEvaluateBool iframe FUNC_EXISTS_JS) r :: rest.
Proof.
  unfold finish_course, bind at 1, call.
  destruct (perform bool (FrameEvaluateBool iframe FUNC_EXISTS_JS) (snd s))
    as [[x | v] w]; simpl.
  - now eexists _, _.
  - match goal with
    | |- context [match ?m with _ => _ end] => destruct m as [[r s2] t2]
    end.
    now eexists _, _.
Qed.
End LessonTurn.

(** ** The scan for the first lesson that is not passed *)

Section Scan.
Context `{Browser}.

Lemma bind_inv_ok {A B} (m : M A) (k : A -> M B) (s s' : state) (b : B) (t : list entry) :
  bind m k s = (Ok b, s', t) ->
  exists a s1 t1 t2,
    m s = (Ok a, s1, t1) /\ k a s1 = (Ok b, s', t2) /\ t = t1 ++ t2.
Proof.
  unfold bind. destruct (m s) as [[[a | e |] s1] t1]; try discriminate.
  destruct (k a s1) as [[r s2] t2] eqn:Hk. intros [= -> -> <-].
  now exists a, s1, t1, t2.
Qed.

Lemma call_inv_ok {R} (e : browserE R) (s s1 : state) (v : R) (t : list entry) :
  call e s = (Ok v, s1, t) -> t = [Called e (inr v)].
Proof.
  unfold call. destruct (perform R e (snd s)) as [[x | v'] w]; [discriminate |].
  intros Heq. injection Heq as Hv _ Ht. now subst.
Qed.

Lemma scan_selects (items : list Elem) :
  forall (idx : nat) (s s' : state) (item : Elem) (pos : nat)
         (title : option string) (t : list entry),
    find_first_incomplete items idx s = (Ok (Some (item, pos, title)), s', t) ->
    exists n c,
      nth_error items n = Some item /\ pos = (idx + n + 1)%nat /\
      In (Called (ElemGetAttribute item "class") (inr c)) t /\
      is_passed c = false /\
      (forall k x, (k < n)%nat -> nth_error items k = Some x ->
                   exists cx, In (Called (ElemGetAttribute x "class") (inr cx)) t /\
                              is_passed cx = true).
Proof.
  induction items as [| it rest IH]; intros idx s s' item pos title t Hscan.
  - discriminate.
  - simpl in Hscan.
    apply bind_inv_ok in Hscan as (c & s1 & t1 & t2 & Hcall & Hk & ->).
    apply call_inv_ok in Hcall. subst t1.
    destruct (is_passed c) eqn:Hc.
    + apply IH in Hk as (n & c' & Hn & Hpos & Hin & Hc' & Hbefore).
      exists (S n), c'. repeat split.
      * exact Hn.
      * lia.
      * now right.
      * exact Hc'.
      * intros [| k] x Hlt Hx.
        -- injection Hx as <-. exists c. split; [now left | exact Hc].
        -- destruct (Hbefore k x) as (cx & Hcx & Hpx); [lia | exact Hx |].
           exists cx. split; [now right | exact Hpx].
    + apply bind_inv_ok in Hk as (q & s2 & t3 & t4 & _ & Hk & ->).
      apply bind_inv_ok in Hk as (ti & s3 & t5 & t6 & _ & Hk & ->).
      injection Hk as <- <- <- _ _.
      exists O, c. repeat split.
      * lia.
      * now left.
      * exact Hc.
      * intros k x Hlt. lia.
Qed.


End Scan.

(** ** Traversal Controller: what is done with one module *)

Section ModuleTurn.
Context `{Browser}.

(** The progress text cannot be parsed: the handler of lines 852-858
    leaves the module; nothing is called after the text was read. *)
Lemma unparsed_module_is_left (fuel : nat) (s s1 : state) (module : Elem)
      (text : string) (e : exn) (t1 : list entry) :
  read_module s = (Ok (Some (module, Some text)), s1, t1) ->
  parse_progress text = inl e ->
  traverse_iter fuel s = (Ok Continue, next_module s1, t1).
Proof.
  intros Hread Hparse.
  unfold traverse_iter, traverse_body, try_catch, bind at 1. rewrite Hread.
  unfold visit_with_count, bind, ret, lift. rewrite Hparse.
  unfold raise, incr_module_index. simpl. now rewrite !List.app_nil_r.
Qed.

Lemma raised_module_is_left (fuel : nat) (s s1 : state) (e : exn) (t1 : list entry) :
  traverse_body fuel s = (Raise e, s1, t1) ->
  traverse_iter fuel s = (Ok Continue, next_module s1, t1).
Proof.
  intros Hbody. unfold traverse_iter, try_catch. rewrite Hbody.
  unfold bind, incr_module_index, ret. simpl. now rewrite List.app_nil_r.
Qed.




End ModuleTurn.

(** C10. A progress text that holds "/" but is not, blanks around it aside,
    two integer components makes the parse raise [ValueError] ("1/2/3" and
    "a/b" among them, and "1/2" with the control character U+001C after the
    "1"); (0, 0) is the answer only without "/".  The exception leaves the
    turn of the outer loop through the handler of lines 852-858: the module
    index is advanced and nothing is called after the text was read. *)
Theorem malformed_progress_leaves_module :
  (forall s : list N,
      PyStr.has_point PyStr.SLASH s = true -> two_integers s = None ->
      parse_points s = inl ValueError) /\
  (forall s : string,
      PyStr.contains "/" s = true -> two_integers (PyStr.decode s) = None ->
      parse_progress s = inl ValueError) /\
  (forall (s : string) (p : Z * Z),
      parse_progress s = inr p ->
      (PyStr.contains "/" s = false /\ p = (0, 0)) \/
      (PyStr.contains "/" s = true /\ two_integers (PyStr.decode s) = Some p)) /\
  parse_progress "1/2/3" = inl ValueError /\
  parse_progress "a/b" = inl ValueError /\
  parse_points [49; 28; 47; 50]%N = inl ValueError /\
  (forall (H : Handles) (B : Browser) (fuel : nat) (s s1 : state) (module : Elem)
          (text : string) (e : exn) (t1 : list entry),
      read_module s = (Ok (Some (module, Some text)), s1, t1) ->
      parse_progress text = inl e ->
      traverse_iter fuel s = (Ok Continue, next_module s1, t1)) /\
  (forall (H : Handles) (B : Browser) (fuel : nat) (s s1 : state) (e : exn)
          (t1 : list entry),
      traverse_body fuel s = (Raise e, s1, t1) ->
      traverse_iter fuel s = (Ok Continue, next_module s1, t1)).
Proof.
  split; [| split; [| split; [| split; [| split; [| split; [| split]]]]]].
  - intros s Hs Hnone. now rewrite parse_points_components, Hs, Hnone.
  - intros s Hs Hnone. now rewrite parse_progress_components, Hs, Hnone.
  - intros s p. rewrite parse_progress_components.
    destruct (PyStr.contains "/" s).
    + destruct (two_integers (PyStr.decode s)) as [q |]; [| discriminate].
      intros [= ->]. now right.
    + intros [= <-]. now left.
  - vm_compute. reflexivity.
  - vm_compute. reflexivity.
  - vm_compute. reflexivity.
  - intros H B. apply unparsed_module_is_left.
  - intros H B. apply raised_module_is_left.
Qed.

Lemma malformed_progress_leaves_module_witness :
  parse_progress "3/x" = inl ValueError /\
  parse_progress "1/２ 0" = inl ValueError /\
  traverse_iter 3 (Sim.init [Sim.odd_count] false true true)
  = (Ok Continue,
     next_module (final (read_module (Sim.init [Sim.odd_count] false true true))),
     calls (read_module (Sim.init [Sim.odd_count] false true true))).
Proof.
  split; [| split].
  - apply (proj1 (proj2 malformed_progress_leaves_module)); vm_compute; reflexivity.
  - apply (proj1 (proj2 malformed_progress_leaves_module)); vm_compute; reflexivity.
  - apply (proj1 (proj2 (proj2 (proj2 (proj2 (proj2 (proj2 malformed_progress_leaves_module))))))
             Sim.handles Sim.browser 3%nat
             (Sim.init [Sim.odd_count] false true true)
             (final (read_module (Sim.init [Sim.odd_count] false true true)))
             (Sim.EModule 0) "1/2/3" ValueError).
    + vm_compute. reflexivity.
    + vm_compute. reflexivity.
Defined.

Section ModuleOpening.
Context `{Browser}.


End ModuleOpening.




(** ** Runs on the simulated page *)

(** C3.  A lesson whose frame never defines [finishWxCourse]: the function
    is looked for twice and never called, the turn ends with [Continue], and
    [completed_count] is one more than before. *)
Theorem count_grows_without_finish :
  result (drain_iter (Sim.init [Sim.one_lesson] false true false)) = Ok Continue /\
  existsb invokes_finish
    (calls (drain_iter (Sim.init [Sim.one_lesson] false true false))) = false /\
  List.length
    (filter is_frame_evaluate
       (calls (drain_iter (Sim.init [Sim.one_lesson] false true false)))) = 3%nat /\
  completed_count (fst (Sim.init [Sim.one_lesson] false true false)) = 0%nat /\
  completed_count
    (fst (final (drain_iter (Sim.init [Sim.one_lesson] false true false)))) = 1%nat /\
  (forall fuel : nat,
      completed_count
        (fst (final (drain_module fuel (Sim.init [Sim.one_lesson] false true false))))
      = fuel).
Proof.
  do 5 (split; [vm_compute; reflexivity |]).
  assert (Hturn : forall (n : nat) (b : option Elem) (o : option (nat * nat)) (e : bool),
             drain_iter
               (Sim.state_of (mkLocals 0 n b)
                  (Sim.mkWorld [Sim.mkModule (Some "0/1") e [Some "img-texts-item"]]
                     ["about:blank"; Sim.LIST_URL; Sim.LESSON_FRAME] Sim.LIST_URL
                     o false true false))
             = (Ok Continue,
                Sim.state_of (mkLocals 0 (S n) (if e then b else Some (Sim.button 0)))
                  (Sim.mkWorld [Sim.mkModule (Some "0/1") true [Some "img-texts-item"]]
                     ["about:blank"; Sim.LIST_URL; Sim.LESSON_FRAME] Sim.LIST_URL
                     (Some (0%nat, 0%nat)) false true false),
                calls (drain_iter
                   (Sim.state_of (mkLocals 0 n b)
                      (Sim.mkWorld [Sim.mkModule (Some "0/1") e [Some "img-texts-item"]]
                         ["about:blank"; Sim.LIST_URL; Sim.LESSON_FRAME] Sim.LIST_URL
                         o false true false))))).
  { intros n b o [|]; vm_compute; reflexivity. }
  assert (Hall : forall (fuel n : nat) (b : option Elem) (o : option (nat * nat)) (e : bool),
             completed_count
               (fst (final (drain_module fuel
                  (Sim.state_of (mkLocals 0 n b)
                     (Sim.mkWorld [Sim.mkModule (Some "0/1") e [Some "img-texts-item"]]
                        ["about:blank"; Sim.LIST_URL; Sim.LESSON_FRAME] Sim.LIST_URL
                        o false true false)))))
             = (n + fuel)%nat).
  { induction fuel as [| fuel IH]; intros n b o e.
    - simpl. lia.
    - assert (Hi := Hturn n b o e).
      simpl drain_module. rewrite (bind_ok _ _ _ _ _ _ Hi).
      unfold final at 1. cbn [fst snd].
      fold (final (drain_module fuel
        (Sim.state_of (mkLocals 0 (S n) (if e then b else Some (Sim.button 0)))
           (Sim.mkWorld [Sim.mkModule (Some "0/1") true [Some "img-texts-item"]]
              ["about:blank"; Sim.LIST_URL; Sim.LESSON_FRAME] Sim.LIST_URL
              (Some (0%nat, 0%nat)) false true false)))).
      rewrite IH. lia. }
  intros fuel. apply (Hall fuel 0%nat None None false).
Qed.

(** C4.  A page whose only module reads "0/0" and has no lesson under it:
    every turn of the outer loop ends at line 414 with the module index
    where it was, so the loop does not come to an end, whatever the number
    of turns allowed; the module is visited again and again. *)
Theorem empty_module_is_visited_forever :
  forall fuel drain_fuel : nat,
    result (run_modules fuel drain_fuel (Sim.init [Sim.empty_module false] false true true))
    = OutOfFuel /\
    module_index
      (fst (final (run_modules fuel drain_fuel
                     (Sim.init [Sim.empty_module false] false true true)))) = 0%nat /\
    List.length
      (filter is_elem_click
         (calls (run_modules fuel drain_fuel
                   (Sim.init [Sim.empty_module false] false true true)))) = fuel.
Proof.
  intros fuel drain_fuel.
  assert (Hturn : forall (b : option Elem) (e : bool),
             traverse_iter drain_fuel
               (Sim.state_of (mkLocals 0 0 b)
                  (Sim.page [Sim.empty_module e] false true true))
             = (Ok Continue,
                Sim.state_of (mkLocals 0 0 (Some (Sim.button 0)))
                  (Sim.page [Sim.empty_module (negb e)] false true true),
                calls (traverse_iter drain_fuel
                         (Sim.state_of (mkLocals 0 0 b)
                            (Sim.page [Sim.empty_module e] false true true)))) /\
             List.length
               (filter is_elem_click
                  (calls (traverse_iter drain_fuel
                            (Sim.state_of (mkLocals 0 0 b)
                               (Sim.page [Sim.empty_module e] false true true)))))
             = 1%nat).
  { intros b [|]; split; vm_compute; reflexivity. }
  assert (Hloop : forall (n : nat) (b : option Elem) (e : bool),
             result (traverse n drain_fuel 1
                       (Sim.state_of (mkLocals 0 0 b)
                          (Sim.page [Sim.empty_module e] false true true)))
             = OutOfFuel /\
             module_index
               (fst (final (traverse n drain_fuel 1
                              (Sim.state_of (mkLocals 0 0 b)
                                 (Sim.page [Sim.empty_module e] false true true)))))
             = 0%nat /\
             List.length
               (filter is_elem_click
                  (calls (traverse n drain_fuel 1
                            (Sim.state_of (mkLocals 0 0 b)
                               (Sim.page [Sim.empty_module e] false true true)))))
             = n).
  { induction n as [| n IH]; intros b e.
    - repeat split.
    - destruct (Hturn b e) as [Hi Hclicks].
      destruct (IH (Some (Sim.button 0)) (negb e)) as (Hr & Hidx & Hlen).
      assert (Hstep :
                traverse (S n) drain_fuel 1
                  (Sim.state_of (mkLocals 0 0 b)
                     (Sim.page [Sim.empty_module e] false true true))
                = (result (traverse n drain_fuel 1
                     (Sim.state_of (mkLocals 0 0 (Some (Sim.button 0)))
                        (Sim.page [Sim.empty_module (negb e)] false true true))),
                   final (traverse n drain_fuel 1
                     (Sim.state_of (mkLocals 0 0 (Some (Sim.button 0)))
                        (Sim.page [Sim.empty_module (negb e)] false true true))),
                   calls (traverse_iter drain_fuel
                            (Sim.state_of (mkLocals 0 0 b)
                               (Sim.page [Sim.empty_module e] false true true)))
                   ++ calls (traverse n drain_fuel 1
                     (Sim.state_of (mkLocals 0 0 (Some (Sim.button 0)))
                        (Sim.page [Sim.empty_module (negb e)] false true true))))).
      { simpl traverse. rewrite bind_get_locals.
        change (module_index
                  (fst (Sim.state_of (mkLocals 0 0 b)
                          (Sim.page [Sim.empty_module e] false true true))) <? 1)%nat
          with true.
        cbv iota. now rewrite (bind_ok _ _ _ _ _ _ Hi). }
      rewrite Hstep. repeat split.
      + exact Hr.
      + exact Hidx.
      + unfold calls at 1. cbn [snd].
        rewrite filter_app, length_app, Hclicks, Hlen. reflexivity. }
  assert (Hrun :
            run_modules fuel drain_fuel (Sim.init [Sim.empty_module false] false true true)
            = (result (traverse fuel drain_fuel 1
                         (Sim.init [Sim.empty_module false] false true true)),
               final (traverse fuel drain_fuel 1
                        (Sim.init [Sim.empty_module false] false true true)),
               [Called (PageQuerySelectorAll MODULES_SEL) (inr [Sim.module_elem 0])]
               ++ calls (traverse fuel drain_fuel 1
                           (Sim.init [Sim.empty_module false] false true true)))).
  { unfold run_modules.
    apply (bind_ok (call (PageQuerySelectorAll MODULES_SEL))
             (fun modules => traverse fuel drain_fuel (List.length modules))
             (Sim.init [Sim.empty_module false] false true true)
             (Sim.init [Sim.empty_module false] false true true)
             [Sim.module_elem 0]).
    reflexivity. }
  rewrite Hrun.
  destruct (Hloop fuel None false) as (Hr & Hidx & Hlen).
  repeat split.
  - exact Hr.
  - exact Hidx.
  - unfold calls at 1. cbn [snd]. rewrite filter_app, length_app.
    exact Hlen.
Qed.

(** * Further properties of the loop *)

(** The answers of the browser to the calls of a computation, one after the
    other. *)
Ltac perform_cases :=
  repeat match goal with
         | |- context [perform ?R ?e ?w] =>
             destruct (perform R e w) as [[? | ?] ?]; simpl
         | u : unit |- _ => destruct u
         end.

(** ** Frame Resolver: what is chosen, and when nothing is *)

Section ResolverChoice.
Context `{Handles}.

Lemma find_first_valid_none (url : string) (frames : list Frame) :
  find_first_valid url frames = None <->
  forall f, In f frames ->
            placeholder (frame_url f) = true \/ frame_url f = url.
Proof.
  induction frames as [| g rest IH]; simpl.
  - split; [intros _ f [] | reflexivity].
  - unfold placeholder at 1.
    destruct (String.eqb (frame_url g) "") eqn:E1;
      destruct (String.eqb (frame_url g) url) eqn:E2;
      destruct (PyStr.contains "javascript:" (frame_url g)) eqn:E3;
      destruct (String.eqb (frame_url g) "about:blank") eqn:E4; simpl;
      try (rewrite IH; split;
           [ intros Hrest f [<- | Hf];
             [ unfold placeholder; rewrite ?E1, ?E3, ?E4; simpl;
               rewrite ?orb_true_r;
               first [ now left | right; now apply String.eqb_eq ]
             | now apply Hrest ]
           | intros Hall f Hf; apply Hall; now right ]).
    split; [discriminate |].
    intros Hall. destruct (Hall g (or_introl eq_refl)) as [Hp | Hu].
    + unfold placeholder in Hp. rewrite E1, E3, E4 in Hp. discriminate.
    + apply String.eqb_eq in Hu. congruence.
Qed.

Lemma resolve_iframe_some (url : string) (frames : list Frame) (f : Frame) :
  resolve_iframe url frames = Some f ->
  In f frames /\ placeholder (frame_url f) = false /\
  (on_content_domain f = true \/ course_path_off_main f = true \/ frame_url f <> url).
Proof.
  rewrite resolve_iframe_is_ranked. unfold resolve_ranked.
  destruct (find on_content_domain (candidates frames)) as [g |] eqn:F1.
  - intros [= ->]. apply find_some in F1 as [Hin Hd].
    apply filter_In in Hin as [Hin Hp]. apply negb_true_iff in Hp. auto.
  - destruct (find course_path_off_main (candidates frames)) as [g |] eqn:F2.
    + intros [= ->]. apply find_some in F2 as [Hin Hd].
      apply filter_In in Hin as [Hin Hp]. apply negb_true_iff in Hp. auto.
    + intros F3. apply find_some in F3 as [Hin Hd].
      apply filter_In in Hin as [Hin Hp]. apply negb_true_iff in Hp.
      repeat split; auto. right. right.
      unfold not_main_page in Hd. apply negb_true_iff in Hd.
      now apply String.eqb_neq.
Qed.

Lemma resolve_iframe_none (url : string) (frames : list Frame) :
  resolve_iframe url frames = None <->
  forall f, In f frames ->
            placeholder (frame_url f) = true \/
            (frame_url f = url /\ on_content_domain f = false /\
             course_path_off_main f = false).
Proof.
  split.
  - intros Hnone f Hin.
    destruct (placeholder (frame_url f)) eqn:Hp; [now left | right].
    rewrite resolve_iframe_is_ranked in Hnone. unfold resolve_ranked in Hnone.
    destruct (find on_content_domain (candidates frames)) eqn:F1; [discriminate |].
    destruct (find course_path_off_main (candidates frames)) eqn:F2; [discriminate |].
    assert (Hc : In f (candidates frames)).
    { apply filter_In. split; [exact Hin | now rewrite Hp]. }
    repeat split.
    + generalize (find_none _ _ Hnone f Hc). unfold not_main_page.
      intros Hm. apply negb_false_iff in Hm. now apply String.eqb_eq.
    + exact (find_none _ _ F1 f Hc).
    + exact (find_none _ _ F2 f Hc).
  - intros Hall. destruct (resolve_iframe url frames) as [g |] eqn:Hr; [| reflexivity].
    apply resolve_iframe_some in Hr as (Hin & Hp & Hwhy).
    destruct (Hall g Hin) as [Hp' | (Hu & Hd & Hc)]; [congruence |].
    destruct Hwhy as [Hd' | [Hc' | Hu']]; congruence.
Qed.
End ResolverChoice.

(** X1. The frame the resolver answers is one of the listed frames, not a
    placeholder, and is on the content domain, or off the main domain with a
    course path, or at another address than the page.  It answers none
    exactly when every listed frame is a placeholder or is at the page's own
    address without matching either pattern; the lesson is then run in the
    main frame, and in the chosen frame otherwise; looking for the frame
    calls nothing and cannot fail. *)
Theorem resolver_choice_and_fallback :
  (forall (H : Handles) (url : string) (frames : list Frame) (f : Frame),
      resolve_iframe url frames = Some f ->
      In f frames /\ placeholder (frame_url f) = false /\
      (on_content_domain f = true \/ course_path_off_main f = true \/
       frame_url f <> url)) /\
  (forall (H : Handles) (url : string) (frames : list Frame),
      resolve_iframe url frames = None <->
      forall f, In f frames ->
                placeholder (frame_url f) = true \/
                (frame_url f = url /\ on_content_domain f = false /\
                 course_path_off_main f = false)) /\
  (forall (H : Handles) (B : Browser) (s : state),
      find_iframe s =
      (Ok match resolve_iframe (page_url (snd s)) (page_frames (snd s)) with
          | Some f => f
          | None => main_frame (snd s)
          end, s, [])).
Proof.
  split; [| split].
  - intros H. apply resolve_iframe_some.
  - intros H. apply resolve_iframe_none.
  - intros H B s. unfold find_iframe. rewrite bind_get_world.
    now destruct (resolve_iframe (page_url (snd s)) (page_frames (snd s))).
Qed.

Lemma resolver_choice_and_fallback_witness :
  In "https://mcwk.mycourse.cn/a"
     ["about:blank"; "https://x.example/course/1"; "https://mcwk.mycourse.cn/a"] /\
  @resolve_iframe UrlHandles "https://weiban.mycourse.cn/#/"
    ["about:blank"; "javascript:void(0)"; "https://weiban.mycourse.cn/#/"] = None.
Proof.
  split.
  - apply (proj1 resolver_choice_and_fallback UrlHandles
             "https://weiban.mycourse.cn/#/"
             ["about:blank"; "https://x.example/course/1"; "https://mcwk.mycourse.cn/a"]
             "https://mcwk.mycourse.cn/a").
    reflexivity.
  - apply (proj1 (proj2 resolver_choice_and_fallback) UrlHandles).
    intros f [<- | [<- | [<- | []]]]; [now left | now left | right].
    repeat split.
Defined.

(** ** Lesson Runner: the click on the lesson and the completion call *)

(** X2. The lesson is clicked by the first of three ways that works: the
    plain click, then the forced click only after the plain one raised, then
    the script click only after the forced one raised.  The step raises only
    when the look at the element or the scroll to it raises, or when the
    script click, tried last, raises as well. *)
Theorem click_item_three_ways :
  forall (H : Handles) (B : Browser) (item : Elem) (s : state),
    match result (click_item item s) with
    | Ok _ =>
        exists v,
          calls (click_item item s) =
            [Called (ElemIsVisible item) (inr v);
             Called (ElemScrollIntoViewIfNeeded item) (inr tt);
             Called (ElemClick item false) (inr tt)] \/
          (exists x1,
              calls (click_item item s) =
                [Called (ElemIsVisible item) (inr v);
                 Called (ElemScrollIntoViewIfNeeded item) (inr tt);
                 Called (ElemClick item false) (inl x1);
                 Called (ElemClick item true) (inr tt)]) \/
          (exists x1 x2,
              calls (click_item item s) =
                [Called (ElemIsVisible item) (inr v);
                 Called (ElemScrollIntoViewIfNeeded item) (inr tt);
                 Called (ElemClick item false) (inl x1);
                 Called (ElemClick item true) (inl x2);
                 Called (ElemEvaluate item JS_CLICK) (inr tt)])
    | Raise e =>
        calls (click_item item s) = [Called (ElemIsVisible item) (inl e)] \/
        (exists v,
            calls (click_item item s) =
              [Called (ElemIsVisible item) (inr v);
               Called (ElemScrollIntoViewIfNeeded item) (inl e)]) \/
        (exists v x1 x2,
            calls (click_item item s) =
              [Called (ElemIsVisible item) (inr v);
               Called (ElemScrollIntoViewIfNeeded item) (inr tt);
               Called (ElemClick item false) (inl x1);
               Called (ElemClick item true) (inl x2);
               Called (ElemEvaluate item JS_CLICK) (inl e)])
    | OutOfFuel => False
    end.
Proof.
  intros H B item s.
  unfold click_item, result, calls, bind, try_catch, call.
  perform_cases; eauto 8.
Qed.

(** X3. [finishWxCourse] is looked for once, and a second time only when
    the first look answered no; it is called exactly when a look found it,
    once, as the last call of the step, and an exception of that call is
    swallowed.  When both looks answer no the frame is asked for its
    description instead.  The step raises only when a look raises. *)
Theorem finish_course_calls :
  forall (H : Handles) (B : Browser) (iframe : Frame) (s : state),
    match result (finish_course iframe s) with
    | Ok true =>
        exists r,
          calls (finish_course iframe s) =
            [Called (FrameEvaluateBool iframe FUNC_EXISTS_JS) (inr true);
             Called (FrameEvaluate iframe FINISH_JS) r] \/
          calls (finish_course iframe s) =
            [Called (FrameEvaluateBool iframe FUNC_EXISTS_JS) (inr false);
             Called (FrameEvaluateBool iframe FUNC_EXISTS_JS) (inr true);
             Called (FrameEvaluate iframe FINISH_JS) r]
    | Ok false =>
        exists r,
          calls (finish_course iframe s) =
            [Called (FrameEvaluateBool iframe FUNC_EXISTS_JS) (inr false);
             Called (FrameEvaluateBool iframe FUNC_EXISTS_JS) (inr false);
             Called (FrameEvaluate iframe FRAME_INFO_JS) r]
    | Raise e =>
        calls (finish_course iframe s) =
          [Called (FrameEvaluateBool iframe FUNC_EXISTS_JS) (inl e)] \/
        calls (finish_course iframe s) =
          [Called (FrameEvaluateBool iframe FUNC_EXISTS_JS) (inr false);
           Called (FrameEvaluateBool iframe FUNC_EXISTS_JS) (inl e)]
    | OutOfFuel => False
    end /\
    (forall b, result (finish_course iframe s) = Ok b ->
               existsb invokes_finish (calls (finish_course iframe s)) = b).
Proof.
  intros H B iframe s.
  unfold finish_course, result, calls, bind, try_catch, call, ret.
  destruct (perform _ (FrameEvaluateBool iframe FUNC_EXISTS_JS) (snd s))
    as [[x | [|]] w1]; simpl.
  - split; [now left | discriminate].
  - destruct (perform _ (FrameEvaluate iframe FINISH_JS) w1) as [[x | []] w2]; simpl;
      (split; [eexists; now left | now intros b [= <-]]).
  - destruct (perform _ (FrameEvaluateBool iframe FUNC_EXISTS_JS) w1)
      as [[x | [|]] w2]; simpl.
    + split; [now right | discriminate].
    + destruct (perform _ (FrameEvaluate iframe FINISH_JS) w2) as [[x | []] w3]; simpl;
        (split; [eexists; now right | now intros b [= <-]]).
    + destruct (perform _ (FrameEvaluate iframe FRAME_INFO_JS) w2) as [[x | []] w3];
        simpl; (split; [now eexists | now intros b [= <-]]).
Qed.

Lemma finish_course_calls_witness :
  existsb invokes_finish
    (calls (finish_course Sim.lesson_frame (Sim.init [Sim.one_lesson] false true true)))
  = true.
Proof.
  apply (proj2 (finish_course_calls Sim.handles Sim.browser Sim.lesson_frame
                  (Sim.init [Sim.one_lesson] false true true)) true).
  reflexivity.
Defined.

(** ** Locals and exceptions: rules *)

Section InvariantRules.
Context `{Browser}.

Lemma keeps_ret {A X} (f : locals -> X) (a : A) : keeps f (ret a).
Proof. intros s. reflexivity. Qed.

Lemma keeps_raise {A X} (f : locals -> X) (e : exn) : keeps f (@raise _ _ A e).
Proof. intros s. reflexivity. Qed.

Lemma keeps_out_of_fuel {A X} (f : locals -> X) : keeps f (@out_of_fuel _ _ A).
Proof. intros s. reflexivity. Qed.

Lemma keeps_call {R X} (f : locals -> X) (e : browserE R) : keeps f (call e).
Proof.
  intros s. unfold call, final.
  now destruct (perform R e (snd s)) as [[x | v] w].
Qed.

Lemma keeps_lift {A X} (f : locals -> X) (r : exn + A) : keeps f (lift r).
Proof. destruct r; [apply keeps_raise | apply keeps_ret]. Qed.

Lemma keeps_index {A X} (f : locals -> X) (xs : list A) (i : nat) :
  keeps f (index xs i).
Proof.
  unfold index. destruct (nth_error xs i); [apply keeps_ret | apply keeps_raise].
Qed.

Lemma keeps_bind {A B X} (f : locals -> X) (m : M A) (k : A -> M B) :
  keeps f m -> (forall a, keeps f (k a)) -> keeps f (bind m k).
Proof.
  intros Hm Hk s. specialize (Hm s). unfold bind, final in *.
  destruct (m s) as [[[a | e |] s1] t1]; simpl in *; try assumption.
  specialize (Hk a s1). unfold final in Hk.
  destruct (k a s1) as [[r s2] t2]. simpl in *. congruence.
Qed.

Lemma keeps_try {A X} (f : locals -> X) (m : M A) (h : exn -> M A) :
  keeps f m -> (forall e, keeps f (h e)) -> keeps f (try_catch m h).
Proof.
  intros Hm Hh s. specialize (Hm s). unfold try_catch, final in *.
  destruct (m s) as [[[a | e |] s1] t1]; simpl in *; try assumption.
  specialize (Hh e s1). unfold final in Hh.
  destruct (h e s1) as [[r s2] t2]. simpl in *. congruence.
Qed.

Lemma never_escapes_try {A} (m : M A) (h : exn -> M A) :
  (forall e, never_escapes (h e)) -> never_escapes (try_catch m h).
Proof.
  intros Hh s e. unfold try_catch, result.
  destruct (m s) as [[[a | e' |] s1] t1]; simpl; try discriminate.
  specialize (Hh e' s1 e). unfold result in Hh.
  now destruct (h e' s1) as [[r s2] t2].
Qed.

(** *** [aborts_at] *)

Lemma aborts_never_raises {A} (P : entry -> Prop) (m : M A) :
  never_raises m -> aborts_at P m.
Proof. intros Hm s e He. destruct (Hm s) as [a Ha]. congruence. Qed.

Lemma aborts_call {R} (P : entry -> Prop) (e : browserE R) :
  (forall x, P (Called e (inl x))) -> aborts_at P (call e).
Proof.
  intros HP s x. unfold call, result, calls.
  destruct (perform R e (snd s)) as [[y | v] w]; simpl; [| discriminate].
  intros _. exists [], (Called e (inl y)). split; [reflexivity | apply HP].
Qed.

Lemma aborts_bind {A B} (P : entry -> Prop) (m : M A) (k : A -> M B) :
  aborts_at P m -> (forall a, aborts_at P (k a)) -> aborts_at P (bind m k).
Proof.
  intros Hm Hk s e. specialize (Hm s e). unfold bind, result, calls in *.
  destruct (m s) as [[[a | e' |] s1] t1]; simpl in *; try discriminate.
  - specialize (Hk a s1 e). unfold result, calls in Hk.
    destruct (k a s1) as [[r s2] t2]. simpl in *. intros Hr.
    destruct (Hk Hr) as (pre & en & -> & Hen).
    exists (t1 ++ pre), en. split; [now rewrite app_assoc | exact Hen].
  - intros [= ->]. now apply Hm.
Qed.

Lemma aborts_try {A} (P : entry -> Prop) (m : M A) (h : exn -> M A) :
  (forall e, aborts_at P (h e)) -> aborts_at P (try_catch m h).
Proof.
  intros Hh s e. unfold try_catch, result, calls.
  destruct (m s) as [[[a | e' |] s1] t1]; simpl; try discriminate.
  specialize (Hh e' s1 e). unfold result, calls in Hh.
  destruct (h e' s1) as [[r s2] t2]. simpl in *. intros Hr.
  destruct (Hh Hr) as (pre & en & -> & Hen).
  exists (t1 ++ pre), en. split; [now rewrite app_assoc | exact Hen].
Qed.

(** *** [counts_one] *)

Lemma counts_one_incr : counts_one incr_completed_count.
Proof. intros s. reflexivity. Qed.

Lemma counts_one_bind {A} (m : M A) (k : A -> M unit) :
  keeps completed_count m -> (forall a, counts_one (k a)) -> counts_one (bind m k).
Proof.
  intros Hm Hk s. specialize (Hm s). unfold bind, result, final in *.
  destruct (m s) as [[[a | e |] s1] t1]; simpl in *; try easy.
  specialize (Hk a s1). unfold result, final in Hk.
  destruct (k a s1) as [[[u | e |] s2] t2]; simpl in *; congruence.
Qed.
End InvariantRules.

(** One step through a computation for [keeps] and [aborts_at]. *)
Ltac keeps_step :=
  match goal with
  | |- keeps _ (bind _ _) => apply keeps_bind; [| intros ?]
  | |- keeps _ (try_catch _ _) => apply keeps_try; [| intros ?]
  | |- keeps _ (call _) => apply keeps_call
  | |- keeps _ (ret _) => apply keeps_ret
  | |- keeps _ (raise _) => apply keeps_raise
  | |- keeps _ (lift _) => apply keeps_lift
  | |- keeps _ (index _ _) => apply keeps_index
  | |- keeps _ out_of_fuel => apply keeps_out_of_fuel
  | |- keeps _ get_locals => intros ?; reflexivity
  | |- keeps _ get_world => intros ?; reflexivity
  | |- keeps module_index (set_title_button _) => intros ?; reflexivity
  | |- keeps completed_count (set_title_button _) => intros ?; reflexivity
  | |- keeps module_index incr_completed_count => intros ?; reflexivity
  | |- keeps completed_count incr_module_index => intros ?; reflexivity
  | |- keeps _ (match ?x with _ => _ end) => destruct x
  end.

Ltac keeps_all := repeat keeps_step.

Section LessonInvariants.
Context `{Browser}.

Lemma keeps_find_first_incomplete {X} (f : locals -> X) (items : list Elem) (idx : nat) :
  keeps f (find_first_incomplete items idx).
Proof.
  revert idx. induction items as [| it rest IH]; intros idx; simpl.
  - apply keeps_ret.
  - keeps_step; [keeps_step |]. destruct (is_passed a); [apply IH | keeps_all].
Qed.

Lemma keeps_click_start_button {X} (f : locals -> X) (iframe : Frame) :
  keeps f (click_start_button iframe).
Proof.
  unfold click_start_button, start_by_class, start_by_image,
    start_by_pri_class, start_by_any. keeps_all.
Qed.

Lemma keeps_complete_in_frame {X} (f : locals -> X) (iframe : Frame) :
  keeps f (complete_in_frame iframe).
Proof.
  unfold complete_in_frame, detect_video_course, start_course, finish_course.
  keeps_step; [keeps_all |]. keeps_step.
  - destruct a; [keeps_all | apply keeps_click_start_button].
  - keeps_all.
Qed.

Lemma keeps_index_return_to_list : keeps module_index return_to_list.
Proof. unfold return_to_list. keeps_all. Qed.

Lemma keeps_count_return_to_list : keeps completed_count return_to_list.
Proof. unfold return_to_list. keeps_all. Qed.

Lemma keeps_index_run_lesson (item : Elem) : keeps module_index (run_lesson item).
Proof.
  unfold run_lesson, click_item, wait_for_load_state, find_iframe.
  repeat (keeps_step;
          try apply keeps_complete_in_frame;
          try apply keeps_index_return_to_list).
Qed.

Lemma counts_one_run_lesson (item : Elem) : counts_one (run_lesson item).
Proof.
  unfold run_lesson.
  apply counts_one_bind; [unfold click_item; keeps_all | intros _].
  apply counts_one_bind; [unfold wait_for_load_state; keeps_all | intros _].
  apply counts_one_bind; [unfold find_iframe; keeps_all | intros iframe].
  apply counts_one_bind; [unfold wait_for_load_state; keeps_all | intros _].
  apply counts_one_bind; [apply keeps_complete_in_frame | intros _].
  apply counts_one_bind; [apply keeps_count_return_to_list | intros _].
  apply counts_one_incr.
Qed.

Lemma never_raises_wait_for_load_state (state : string) :
  never_raises (wait_for_load_state state).
Proof.
  apply never_raises_try; [apply terminates_call | intros _; apply never_raises_ret].
Qed.

Lemma never_raises_detect_video_course (iframe : Frame) :
  never_raises (detect_video_course iframe).
Proof.
  apply never_raises_try; [run_all | intros _; apply never_raises_ret].
Qed.

Lemma never_raises_return_to_list : never_raises return_to_list.
Proof.
  unfold return_to_list.
  apply never_raises_try; [| intros _; apply never_raises_ret].
  run_all.
Qed.

Lemma never_raises_find_iframe : never_raises find_iframe.
Proof.
  intros s. unfold find_iframe. rewrite bind_get_world.
  destruct (resolve_iframe (page_url (snd s)) (page_frames (snd s))); now eexists.
Qed.

Lemma never_raises_start_course (iframe : Frame) (is_video : bool) :
  never_raises (start_course iframe is_video).
Proof.
  destruct is_video; [apply never_raises_ret | apply never_raises_click_start_button].
Qed.

Lemma aborts_run_lesson (item : Elem) :
  aborts_at (lesson_abort_point item) (run_lesson item).
Proof.
  unfold run_lesson.
  apply aborts_bind; [| intros _].
  { unfold click_item.
    apply aborts_bind; [apply aborts_call; reflexivity | intros _].
    apply aborts_bind; [apply aborts_call; reflexivity | intros _].
    apply aborts_try. intros _. apply aborts_try. intros _.
    apply aborts_call. now split. }
  apply aborts_bind;
    [apply aborts_never_raises, never_raises_wait_for_load_state | intros _].
  apply aborts_bind; [apply aborts_never_raises, never_raises_find_iframe | intros iframe].
  apply aborts_bind;
    [apply aborts_never_raises, never_raises_wait_for_load_state | intros _].
  apply aborts_bind; [| intros _].
  { unfold complete_in_frame.
    apply aborts_bind;
      [apply aborts_never_raises, never_raises_detect_video_course | intros v].
    apply aborts_bind;
      [apply aborts_never_raises, never_raises_start_course | intros _].
    unfold finish_course.
    apply aborts_bind; [apply aborts_call; reflexivity | intros [|]].
    - apply aborts_bind; [apply aborts_never_raises, never_raises_ret | intros [|]];
        (apply aborts_bind;
         [ apply aborts_never_raises, never_raises_try;
           [apply terminates_call | intros _; apply never_raises_ret]
         | intros _; apply aborts_never_raises, never_raises_ret ]).
    - apply aborts_bind; [apply aborts_call; reflexivity | intros [|]];
        (apply aborts_bind;
         [ apply aborts_never_raises, never_raises_try;
           [apply terminates_call | intros _; apply never_raises_ret]
         | intros _; apply aborts_never_raises, never_raises_ret ]). }
  apply aborts_bind; [apply aborts_never_raises, never_raises_return_to_list | intros _].
  apply aborts_never_raises. intros s. now eexists.
Qed.
End LessonInvariants.

(** X4. The steps meant as best effort never raise, whatever the browser
    does: the two waits for a load state, the look for the wifi hint (a
    failed look counts as "not a video"), the search for the start button
    with either kind of lesson, and the way back to the list with the
    renewed look at the module. *)
Theorem best_effort_steps_never_raise :
  forall (H : Handles) (B : Browser),
    (forall state : string, never_raises (wait_for_load_state state)) /\
    (forall iframe : Frame, never_raises (detect_video_course iframe)) /\
    (forall (iframe : Frame) (s : state) (x : exn) (w : World),
        perform _ (FrameQuerySelector iframe WIFI_TIP_SEL) (snd s) = (inl x, w) ->
        result (detect_video_course iframe s) = Ok false) /\
    (forall (iframe : Frame) (is_video : bool),
        never_raises (start_course iframe is_video)) /\
    never_raises return_to_list.
Proof.
  intros H B. split; [| split; [| split; [| split]]].
  - apply never_raises_wait_for_load_state.
  - apply never_raises_detect_video_course.
  - intros iframe s x w Hq.
    unfold detect_video_course, try_catch, bind, call, result. now rewrite Hq.
  - apply never_raises_start_course.
  - apply never_raises_return_to_list.
Qed.

Lemma best_effort_steps_never_raise_witness :
  result (@detect_video_course Sim.handles Detached.browser Sim.lesson_frame
            (Detached.init [Sim.one_lesson])) = Ok false.
Proof.
  apply (proj1 (proj2 (proj2 (best_effort_steps_never_raise Sim.handles Detached.browser)))
           Sim.lesson_frame (Detached.init [Sim.one_lesson]) PlaywrightError
           (Sim.page [Sim.one_lesson] false false false)).
  reflexivity.
Defined.

(** X5. A lesson is given up only at four calls: when the look at the
    lesson element, the scroll to it, or the script click on it (the last
    of the three clicks) raises, or when a poll for [finishWxCourse]
    raises.  Every other failure inside the lesson is absorbed.  A lesson
    that is not given up comes to a normal end. *)
Theorem lesson_given_up_only_at :
  forall (H : Handles) (B : Browser) (item : Elem) (s : state),
    (forall e, result (run_lesson item s) = Raise e ->
               exists pre en,
                 calls (run_lesson item s) = pre ++ [en] /\
                 lesson_abort_point item en) /\
    result (run_lesson item s) <> OutOfFuel.
Proof.
  intros H B item s. split.
  - intros e. apply aborts_run_lesson.
  - apply terminates_run_lesson.
Qed.

Lemma lesson_given_up_only_at_witness :
  exists (pre : list (@entry Sim.handles)) (en : @entry Sim.handles),
    @calls Sim.handles Detached.browser unit
      (@run_lesson Sim.handles Detached.browser (Sim.lesson_elem 0 0)
         (Detached.init [Sim.one_lesson])) = pre ++ [en] /\
    @lesson_abort_point Sim.handles (Sim.lesson_elem 0 0) en.
Proof.
  apply (proj1 (lesson_given_up_only_at Sim.handles Detached.browser
                  (Sim.lesson_elem 0 0) (Detached.init [Sim.one_lesson]))
           PlaywrightError).
  vm_compute. reflexivity.
Defined.

(** X6. A lesson that comes to its normal end raises [completed_count] by
    exactly one; a lesson that is given up leaves it as it was; in both
    cases [module_index] stays. *)
Theorem lesson_counts_once :
  forall (H : Handles) (B : Browser) (item : Elem) (s : state),
    match result (run_lesson item s) with
    | Ok _ =>
        completed_count (fst (final (run_lesson item s))) = S (completed_count (fst s))
    | Raise _ =>
        completed_count (fst (final (run_lesson item s))) = completed_count (fst s)
    | OutOfFuel => False
    end /\
    module_index (fst (final (run_lesson item s))) = module_index (fst s).
Proof.
  intros H B item s. split.
  - assert (Hc := counts_one_run_lesson item s).
    assert (Ht := terminates_run_lesson item s).
    destruct (result (run_lesson item s)); auto.
  - apply keeps_index_run_lesson.
Qed.

(** ** Module Walker: what a turn changes, and how the loop ends *)

Section Inversion.
Context `{Browser}.

Lemma call_inv {R} (e : browserE R) (s s1 : state) (v : R) (t : list entry) :
  call e s = (Ok v, s1, t) -> fst s1 = fst s /\ t = [Called e (inr v)].
Proof.
  unfold call. destruct (perform R e (snd s)) as [[x | v'] w]; [discriminate |].
  intros Heq. injection Heq as Hv Hs Ht. subst. now split.
Qed.

Lemma get_locals_inv (s s1 : state) (v : locals) (t : list entry) :
  get_locals s = (Ok v, s1, t) -> v = fst s /\ s1 = s /\ t = [].
Proof. unfold get_locals. intros Heq. injection Heq as Hv Hs Ht. now subst. Qed.

Lemma ret_inv {A} (a b : A) (s s1 : state) (t : list entry) :
  ret a s = (Ok b, s1, t) -> a = b /\ s1 = s /\ t = [].
Proof. unfold ret. intros Heq. injection Heq as Hv Hs Ht. now subst. Qed.

Lemma index_inv {A} (xs : list A) (i : nat) (x : A) (s s1 : state) (t : list entry) :
  index xs i s = (Ok x, s1, t) -> nth_error xs i = Some x /\ s1 = s /\ t = [].
Proof.
  unfold index. destruct (nth_error xs i) as [y |]; [| discriminate].
  intros Heq. apply ret_inv in Heq as (-> & -> & ->). now repeat split.
Qed.

Lemma set_title_button_inv (b : option Elem) (s s1 : state) (u : unit) (t : list entry) :
  set_title_button b s = (Ok u, s1, t) ->
  module_index (fst s1) = module_index (fst s) /\ t = [].
Proof.
  unfold set_title_button. intros Heq. injection Heq as Hs Ht. subst. now split.
Qed.

(** A scan that chooses no lesson read the class of each lesson once, as
    passed, and called nothing else. *)
Lemma scan_none (items : list Elem) :
  forall (idx : nat) (s s' : state) (t : list entry),
    find_first_incomplete items idx s = (Ok None, s', t) ->
    Forall (read_as_passed t) items /\ List.length t = List.length items.
Proof.
  induction items as [| it rest IH]; intros idx s s' t Hscan.
  - apply ret_inv in Hscan as (_ & _ & ->). now split.
  - simpl in Hscan.
    apply bind_inv_ok in Hscan as (c & s1 & t1 & t2 & Hcall & Hk & ->).
    apply call_inv in Hcall as [_ ->].
    destruct (is_passed c) eqn:Hc.
    + apply IH in Hk as [Hall Hlen]. split.
      * constructor.
        -- exists c. split; [now left | exact Hc].
        -- eapply Forall_impl; [| exact Hall].
           intros x (cx & Hin & Hcx). exists cx. split; [now right | exact Hcx].
      * simpl. now rewrite Hlen.
    + apply bind_inv_ok in Hk as (q & s2 & t3 & t4 & _ & Hk & ->).
      apply bind_inv_ok in Hk as (ti & s3 & t5 & t6 & _ & Hk & ->).
      apply ret_inv in Hk as [Hk _]. discriminate.
Qed.

Lemma ensure_expanded_none (module : Elem) (s s' : state) (t : list entry) :
  ensure_expanded module s = (Ok None, s', t) ->
  exists modules,
    In (Called (PageQuerySelectorAll MODULES_SEL) (inr modules)) t /\
    (List.length modules <= module_index (fst s))%nat.
Proof.
  unfold ensure_expanded. intros Hrun.
  apply bind_inv_ok in Hrun as (c & s1 & t1 & t2 & Hc & Hk & ->).
  apply call_inv in Hc as [Hs1 _]. cbv zeta in Hk.
  destruct (PyStr.contains EXPANDED_CLASS match c with Some c0 => c0 | None => "" end).
  { apply ret_inv in Hk as [Hk _]. discriminate. }
  apply bind_inv_ok in Hk as (b & s2 & t3 & t4 & Hb & Hk & ->).
  apply call_inv in Hb as [Hs2 _].
  apply bind_inv_ok in Hk as (u & s3 & t5 & t6 & Hset & Hk & ->).
  apply set_title_button_inv in Hset as [Hs3 _].
  destruct b as [b |]; [| apply ret_inv in Hk as [Hk _]; discriminate].
  apply bind_inv_ok in Hk as (u' & s4 & t7 & t8 & Hclick & Hk & ->).
  apply call_inv in Hclick as [Hs4 _].
  apply bind_inv_ok in Hk as (modules & s5 & t9 & t10 & Hq & Hk & ->).
  apply call_inv in Hq as [Hs5 ->].
  apply bind_inv_ok in Hk as (vars & s6 & t11 & t12 & Hg & Hk & ->).
  apply get_locals_inv in Hg as (-> & -> & ->).
  destruct (List.length modules <=? module_index (fst s5))%nat eqn:E.
  - exists modules. split.
    + rewrite !in_app_iff. simpl. intuition auto.
    + apply Nat.leb_le in E. rewrite Hs5, Hs4 in E. congruence.
  - apply bind_inv_ok in Hk as (m' & s7 & t13 & t14 & _ & Hk & ->).
    apply ret_inv in Hk as [Hk _]. discriminate.
Qed.

Lemma next_lesson_none (s s' : state) (t : list entry) :
  next_lesson s = (Ok None, s', t) -> no_lesson_left (module_index (fst s)) t.
Proof.
  unfold next_lesson. intros Hrun.
  apply bind_inv_ok in Hrun as (modules & s1 & t1 & t2 & Hq & Hk & ->).
  apply call_inv in Hq as [Hs1 ->].
  apply bind_inv_ok in Hk as (vars & s2 & t3 & t4 & Hg & Hk & ->).
  apply get_locals_inv in Hg as (-> & -> & ->).
  destruct (List.length modules <=? module_index (fst s1))%nat eqn:E.
  - left. exists modules. split; [now left |].
    apply Nat.leb_le in E. now rewrite Hs1 in E.
  - apply bind_inv_ok in Hk as (module & s3 & t5 & t6 & Hi & Hk & ->).
    apply index_inv in Hi as (_ & -> & ->).
    apply bind_inv_ok in Hk as (shown & s4 & t7 & t8 & He & Hk & ->).
    destruct shown as [module' |].
    + right.
      apply bind_inv_ok in Hk as (items & s5 & t9 & t10 & Hitems & Hk & ->).
      apply call_inv in Hitems as [_ ->].
      apply bind_inv_ok in Hk as (found & s6 & t11 & t12 & Hscan & Hk & ->).
      destruct found as [[[item pos] title] |];
        [apply ret_inv in Hk as [Hk _]; discriminate |].
      apply scan_none in Hscan as [Hall _].
      exists module', items. split.
      * rewrite !in_app_iff. simpl. intuition auto.
      * eapply Forall_impl; [| exact Hall]. intros x (cx & Hin & Hcx).
        exists cx. split; [| exact Hcx].
        rewrite !in_app_iff. simpl. intuition auto.
    + left. apply ensure_expanded_none in He as (modules' & Hin & Hle).
      exists modules'. split.
      * rewrite !in_app_iff. simpl. intuition auto.
      * now rewrite Hs1 in Hle.
Qed.

Lemma drain_iter_break (s s1 : state) (t1 : list entry) :
  drain_iter s = (Ok Break, s1, t1) -> next_lesson s = (Ok None, s1, t1).
Proof.
  unfold drain_iter, drain_body, try_catch, bind, ret.
  destruct (next_lesson s) as [[[[item |] | e |] s2] t2]; simpl.
  - destruct (run_lesson item s2) as [[[u | e |] s3] t3]; simpl; discriminate.
  - intros Heq. injection Heq as <- <-. now rewrite List.app_nil_r.
  - discriminate.
  - discriminate.
Qed.
End Inversion.

Section DrainInvariants.
Context `{Browser}.

Lemma keeps_next_lesson {X} (f : locals -> X) :
  (forall b, keeps f (set_title_button b)) -> keeps f next_lesson.
Proof.
  intros Hset. unfold next_lesson, ensure_expanded.
  repeat (first [apply Hset | apply keeps_find_first_incomplete | keeps_step]).
Qed.

Lemma keeps_index_drain_iter : keeps module_index drain_iter.
Proof.
  unfold drain_iter, drain_body.
  apply keeps_try; [| intros _; apply keeps_ret].
  apply keeps_bind; [apply keeps_next_lesson; intros b s; reflexivity | intros [item |]].
  - apply keeps_bind; [apply keeps_index_run_lesson | intros _; apply keeps_ret].
  - apply keeps_ret.
Qed.

Lemma keeps_index_drain_module (fuel : nat) : keeps module_index (drain_module fuel).
Proof.
  induction fuel as [| fuel IH]; simpl.
  - apply keeps_out_of_fuel.
  - apply keeps_bind; [apply keeps_index_drain_iter | intros [|]];
      [apply keeps_ret | exact IH].
Qed.

(** A turn of the drain loop: the count stays after [Break], and moves by
    at most one. *)
Lemma drain_iter_count (s : state) :
  exists c, result (drain_iter s) = Ok c /\
            (c = Break ->
             completed_count (fst (final (drain_iter s))) = completed_count (fst s)) /\
            (completed_count (fst (final (drain_iter s))) = completed_count (fst s) \/
             completed_count (fst (final (drain_iter s))) = S (completed_count (fst s))).
Proof.
  assert (Hn : keeps completed_count next_lesson).
  { apply keeps_next_lesson. intros b s0. reflexivity. }
  specialize (Hn s). assert (Ht := terminates_next_lesson s).
  unfold drain_iter, drain_body, try_catch, bind, ret, result, final in *.
  destruct (next_lesson s) as [[[[item |] | e |] s1] t1]; simpl in *.
  - assert (Hc := counts_one_run_lesson item s1).
    assert (Hr := terminates_run_lesson item s1).
    unfold result, final in Hc, Hr.
    destruct (run_lesson item s1) as [[[u | e |] s2] t2]; simpl in *.
    + exists Continue. repeat split; [discriminate | right; congruence].
    + exists Continue. repeat split; [discriminate | left; congruence].
    + contradiction.
  - exists Break. repeat split; auto.
  - exists Continue. repeat split; [discriminate | now left].
  - contradiction.
Qed.
End DrainInvariants.

(** X7. A turn of the drain loop never raises and never moves
    [module_index]; it leaves [completed_count] as it was when it ends with
    [Break], and raises it by at most one otherwise.  The whole drain loop
    keeps [module_index] and counts at most one lesson per turn. *)
Theorem drain_loop_locals :
  forall (H : Handles) (B : Browser),
    (forall s : state,
        module_index (fst (final (drain_iter s))) = module_index (fst s) /\
        exists c, result (drain_iter s) = Ok c /\
                  (c = Break ->
                   completed_count (fst (final (drain_iter s)))
                   = completed_count (fst s)) /\
                  (completed_count (fst (final (drain_iter s)))
                   = completed_count (fst s) \/
                   completed_count (fst (final (drain_iter s)))
                   = S (completed_count (fst s)))) /\
    (forall (fuel : nat) (s : state),
        module_index (fst (final (drain_module fuel s))) = module_index (fst s) /\
        (completed_count (fst s)
         <= completed_count (fst (final (drain_module fuel s))))%nat /\
        (completed_count (fst (final (drain_module fuel s)))
         <= completed_count (fst s) + fuel)%nat).
Proof.
  intros H B. split.
  - intros s. split; [apply keeps_index_drain_iter | apply drain_iter_count].
  - intros fuel s. split; [apply keeps_index_drain_module |].
    revert s. induction fuel as [| fuel IH]; intros s.
    + unfold final. simpl. lia.
    + destruct (drain_iter_count s) as (c & Hr & _ & Hcount).
      simpl drain_module. unfold bind, result, final in *.
      destruct (drain_iter s) as [[r s1] t1]. simpl in *. subst r.
      destruct c.
      * simpl. destruct Hcount; lia.
      * specialize (IH s1).
        destruct (drain_module fuel s1) as [[r s2] t2]. simpl in *.
        destruct Hcount; lia.
Qed.

(** X8. When the scan of a module's lessons chooses none, it has read the
    class of every lesson, each once and as passed, and has called nothing
    else. *)
Theorem scan_without_choice_read_all_passed :
  forall (H : Handles) (B : Browser) (items : list Elem) (idx : nat)
         (s s' : state) (t : list entry),
    find_first_incomplete items idx s = (Ok None, s', t) ->
    Forall (read_as_passed t) items /\ List.length t = List.length items.
Proof. intros H B items. apply scan_none. Qed.

(** X9. The drain loop comes to a normal end only after a look for the
    next lesson that found none: the page listed no module at the index, or
    every lesson of the module was read as passed in that last scan.  The
    index is then as it was on entry. *)
Theorem drain_loop_ends_when_nothing_left :
  forall (H : Handles) (B : Browser) (fuel : nat) (s s' : state) (t : list entry),
    drain_module fuel s = (Ok tt, s', t) ->
    module_index (fst s') = module_index (fst s) /\
    exists pre last,
      t = pre ++ last /\ no_lesson_left (module_index (fst s)) last.
Proof.
  intros H B fuel. induction fuel as [| fuel IH]; intros s s' t Hrun.
  - discriminate.
  - split.
    { assert (Hk := keeps_index_drain_module (S fuel) s).
      unfold final in Hk. now rewrite Hrun in Hk. }
    simpl in Hrun.
    apply bind_inv_ok in Hrun as (c & s1 & t1 & t2 & Hi & Hk & ->).
    destruct c.
    + apply ret_inv in Hk as (_ & -> & ->).
      apply drain_iter_break in Hi. apply next_lesson_none in Hi.
      exists [], t1. split; [now rewrite List.app_nil_r | exact Hi].
    + assert (Hidx := keeps_index_drain_iter s). unfold final in Hidx.
      rewrite Hi in Hidx. simpl in Hidx.
      apply IH in Hk as (_ & pre & last & -> & Hlast).
      exists (t1 ++ pre), last. split; [now rewrite app_assoc |].
      now rewrite <- Hidx.
Qed.

Lemma scan_without_choice_read_all_passed_witness :
  Forall
    (read_as_passed
       (calls (find_first_incomplete [Sim.lesson_elem 0 0; Sim.lesson_elem 0 1] 0%nat
                 (Sim.init [Pages.done_module] false true true))))
    [Sim.lesson_elem 0 0; Sim.lesson_elem 0 1].
Proof.
  apply (scan_without_choice_read_all_passed Sim.handles Sim.browser
           [Sim.lesson_elem 0 0; Sim.lesson_elem 0 1] 0%nat
           (Sim.init [Pages.done_module] false true true)
           (Sim.init [Pages.done_module] false true true)).
  vm_compute. reflexivity.
Defined.

Lemma drain_loop_ends_when_nothing_left_witness :
  exists pre last,
    calls (drain_module 1 (Sim.init [Pages.stale_count] false true true)) = pre ++ last /\
    no_lesson_left 0 last.
Proof.
  apply (drain_loop_ends_when_nothing_left Sim.handles Sim.browser 1%nat
           (Sim.init [Pages.stale_count] false true true)
           (Sim.init [Pages.stale_count] false true true)).
  vm_compute. reflexivity.
Defined.

(** ** Traversal Controller: what a turn changes, and how the loop ends *)

Section TraverseInvariants.
Context `{Browser}.

Lemma steps_of_keeps {A} (m : M A) : keeps module_index m -> steps_index m.
Proof.
  intros Hm s. specialize (Hm s). destruct (result (m s)); auto.
Qed.

Lemma steps_bind {A B} (m : M A) (k : A -> M B) :
  keeps module_index m -> (forall a, steps_index (k a)) -> steps_index (bind m k).
Proof.
  intros Hm Hk s. specialize (Hm s). unfold bind, result, final in *.
  destruct (m s) as [[[a | e |] s1] t1]; simpl in *; try assumption.
  specialize (Hk a s1). unfold result, final in Hk.
  destruct (k a s1) as [[[b | e |] s2] t2]; simpl in *; rewrite <- Hm; exact Hk.
Qed.

Lemma steps_advance : steps_index (bind incr_module_index (fun _ => ret Continue)).
Proof. intros s. right. reflexivity. Qed.

Lemma steps_process_module (fuel : nat) (module : Elem) :
  steps_index (process_module fuel module).
Proof.
  unfold process_module.
  apply steps_bind; [apply keeps_call | intros button].
  apply steps_bind; [intros s; reflexivity | intros _].
  apply steps_bind; [destruct button; [apply keeps_call | apply keeps_ret] | intros _].
  apply steps_bind; [apply keeps_call | intros items].
  destruct items as [| first rest].
  - apply steps_of_keeps, keeps_ret.
  - apply steps_bind; [apply keeps_index_drain_module | intros _].
    apply steps_bind; [keeps_all | intros _].
    apply steps_advance.
Qed.

Lemma steps_visit_with_count (fuel : nat) (module : Elem) (count_text : option string) :
  steps_index (visit_with_count fuel module count_text).
Proof.
  unfold visit_with_count.
  apply steps_bind; [destruct count_text; [apply keeps_ret | apply keeps_raise] |].
  intros text. apply steps_bind; [apply keeps_lift | intros progress].
  unfold visit_module.
  destruct (module_completed (fst progress) (snd progress));
    [apply steps_advance | apply steps_process_module].
Qed.

Lemma keeps_read_module {X} (f : locals -> X) : keeps f read_module.
Proof. unfold read_module. keeps_all. Qed.

Lemma steps_traverse_body (fuel : nat) : steps_index (traverse_body fuel).
Proof.
  unfold traverse_body.
  apply steps_bind; [apply keeps_read_module | intros [[module count_text] |]].
  - apply steps_visit_with_count.
  - apply steps_of_keeps, keeps_ret.
Qed.

Lemma traverse_iter_index (fuel : nat) (s : state) :
  module_index (fst (final (traverse_iter fuel s))) = module_index (fst s) \/
  module_index (fst (final (traverse_iter fuel s))) = S (module_index (fst s)).
Proof.
  assert (Hb := steps_traverse_body fuel s).
  unfold traverse_iter, try_catch, result, final in *.
  destruct (traverse_body fuel s) as [[[c | e |] s1] t1]; simpl in *; auto.
Qed.

Lemma never_escapes_traverse_iter (fuel : nat) : never_escapes (traverse_iter fuel).
Proof.
  apply never_escapes_try. intros e s x. discriminate.
Qed.

Lemma never_breaks_bind {A} (m : M A) (k : A -> M ctl) :
  (forall a, never_breaks (k a)) -> never_breaks (bind m k).
Proof.
  intros Hk s. unfold bind, result.
  destruct (m s) as [[[a | e |] s1] t1]; simpl; try discriminate.
  specialize (Hk a s1). unfold result in Hk.
  now destruct (k a s1) as [[r s2] t2].
Qed.

Lemma never_breaks_visit_with_count (fuel : nat) (module : Elem)
      (count_text : option string) :
  never_breaks (visit_with_count fuel module count_text).
Proof.
  unfold visit_with_count, visit_module, process_module.
  repeat (apply never_breaks_bind; intros ?).
  destruct (module_completed (fst a0) (snd a0)).
  - apply never_breaks_bind. intros _ s. discriminate.
  - repeat (apply never_breaks_bind; intros ?).
    destruct a4 as [| first rest]; [intros s; discriminate |].
    repeat (apply never_breaks_bind; intros ?).
    intros s. discriminate.
Qed.

Lemma read_module_none (s s1 : state) (t : list entry) :
  read_module s = (Ok None, s1, t) ->
  fst s1 = fst s /\
  exists modules,
    t = [Called (PageQuerySelectorAll MODULES_SEL) (inr modules)] /\
    (List.length modules <= module_index (fst s))%nat.
Proof.
  unfold read_module. intros Hrun.
  apply bind_inv_ok in Hrun as (modules & s2 & t1 & t2 & Hq & Hk & ->).
  apply call_inv in Hq as [Hs2 ->].
  apply bind_inv_ok in Hk as (vars & s3 & t3 & t4 & Hg & Hk & ->).
  apply get_locals_inv in Hg as (-> & -> & ->).
  destruct (List.length modules <=? module_index (fst s2))%nat eqn:E.
  - apply ret_inv in Hk as (_ & -> & ->). split; [exact Hs2 |].
    exists modules. split; [reflexivity |].
    apply Nat.leb_le in E. now rewrite Hs2 in E.
  - apply bind_inv_ok in Hk as (module & s4 & t5 & t6 & _ & Hk & ->).
    apply bind_inv_ok in Hk as (te & s5 & t7 & t8 & _ & Hk & ->).
    apply bind_inv_ok in Hk as (tt' & s6 & t9 & t10 & _ & Hk & ->).
    apply bind_inv_ok in Hk as (ce & s7 & t11 & t12 & _ & Hk & ->).
    apply bind_inv_ok in Hk as (ct & s8 & t13 & t14 & _ & Hk & ->).
    apply ret_inv in Hk as [Hk _]. discriminate.
Qed.

Lemma traverse_iter_break (fuel : nat) (s s1 : state) (t : list entry) :
  traverse_iter fuel s = (Ok Break, s1, t) ->
  fst s1 = fst s /\
  exists modules,
    t = [Called (PageQuerySelectorAll MODULES_SEL) (inr modules)] /\
    (List.length modules <= module_index (fst s))%nat.
Proof.
  unfold traverse_iter, traverse_body, try_catch, bind.
  destruct (read_module s) as [[[[[module count_text] |] | e |] s2] t2] eqn:Hread;
    simpl.
  - assert (Hnb := never_breaks_visit_with_count fuel module count_text s2).
    unfold result in Hnb.
    destruct (visit_with_count fuel module count_text s2) as [[[[|] | e |] s3] t3];
      simpl in *; try discriminate.
    now contradiction Hnb.
  - unfold ret. intros Heq. injection Heq as <- <-.
    apply read_module_none in Hread as (Hs & modules & -> & Hle).
    split; [exact Hs |]. exists modules. now split.
  - discriminate.
  - discriminate.
Qed.
End TraverseInvariants.

(** X10. No exception leaves a turn of the outer loop.  A turn moves
    [module_index] by nothing or by one.  It ends with [break] only when the
    page, asked once for its modules, listed none at the index; the locals
    are then untouched and nothing else was called. *)
Theorem outer_turn_contains_failures :
  forall (H : Handles) (B : Browser) (fuel : nat) (s : state),
    (forall e, result (traverse_iter fuel s) <> Raise e) /\
    (module_index (fst (final (traverse_iter fuel s))) = module_index (fst s) \/
     module_index (fst (final (traverse_iter fuel s))) = S (module_index (fst s))) /\
    (forall s1 t,
        traverse_iter fuel s = (Ok Break, s1, t) ->
        fst s1 = fst s /\
        exists modules,
          t = [Called (PageQuerySelectorAll MODULES_SEL) (inr modules)] /\
          (List.length modules <= module_index (fst s))%nat).
Proof.
  intros H B fuel s. split; [| split].
  - apply never_escapes_traverse_iter.
  - apply traverse_iter_index.
  - apply traverse_iter_break.
Qed.

(** X11. No exception leaves the outer loop, and [module_index] never goes
    down in it.  When the loop comes to a normal end, the index has reached
    [total_modules], or the page, asked for its modules, listed none at the
    index the loop stopped at. *)
Theorem outer_loop_end :
  forall (H : Handles) (B : Browser) (fuel drain_fuel total_modules : nat) (s : state),
    (forall e, result (traverse fuel drain_fuel total_modules s) <> Raise e) /\
    (module_index (fst s)
     <= module_index (fst (final (traverse fuel drain_fuel total_modules s))))%nat /\
    (forall s' t,
        traverse fuel drain_fuel total_modules s = (Ok tt, s', t) ->
        (total_modules <= module_index (fst s'))%nat \/
        exists modules,
          In (Called (PageQuerySelectorAll MODULES_SEL) (inr modules)) t /\
          (List.length modules <= module_index (fst s'))%nat).
Proof.
  intros H B fuel drain_fuel total_modules.
  induction fuel as [| fuel IH]; intros s.
  - repeat split; try discriminate. unfold final. simpl. lia.
  - simpl traverse. rewrite bind_get_locals.
    destruct (module_index (fst s) <? total_modules)%nat eqn:E.
    + assert (He := never_escapes_traverse_iter drain_fuel s).
      assert (Hi := traverse_iter_index drain_fuel s).
      assert (Hb := traverse_iter_break drain_fuel s).
      unfold bind, result, final in *.
      destruct (traverse_iter drain_fuel s) as [[[[|] | e |] s1] t1]; simpl in *.
      * repeat split; try discriminate; [destruct Hi; lia |].
        intros s' t Heq. injection Heq as <- <-.
        destruct (Hb s1 t1 eq_refl) as (Hs & modules & -> & Hle).
        right. exists modules. split; [now left | now rewrite Hs].
      * destruct (IH s1) as (Hne & Hmono & Hend).
        unfold result, final in Hne, Hmono.
        destruct (traverse fuel drain_fuel total_modules s1) as [[r s2] t2] eqn:Hrest.
        simpl in *. repeat split.
        -- exact Hne.
        -- destruct Hi; lia.
        -- intros s' t Heq. injection Heq as -> <- <-.
           destruct (Hend s2 t2 eq_refl) as [Hle | (modules & Hin & Hle)];
             [now left | right].
           exists modules. split; [apply in_or_app; now right | exact Hle].
      * now contradiction (He e).
      * repeat split; try discriminate. destruct Hi; lia.
    + unfold ret, result, final. simpl. repeat split; try discriminate; [lia |].
      intros s' t Heq. injection Heq as <- _. left.
      apply Nat.ltb_ge in E. exact E.
Qed.

Lemma outer_turn_contains_failures_witness :
  exists modules : list Elem,
    calls (traverse_iter 1 (Sim.state_of (mkLocals 1 0 None)
                              (Sim.page [Pages.done_module] false true true)))
    = [Called (PageQuerySelectorAll MODULES_SEL) (inr modules)] /\
    (List.length modules <= 1)%nat.
Proof.
  apply (proj2 (proj2 (outer_turn_contains_failures Sim.handles Sim.browser 1%nat
                         (Sim.state_of (mkLocals 1 0 None)
                            (Sim.page [Pages.done_module] false true true))))
           (Sim.state_of (mkLocals 1 0 None)
              (Sim.page [Pages.done_module] false true true))).
  vm_compute. reflexivity.
Defined.

Lemma outer_loop_end_witness :
  (1 <= module_index
          (fst (final (traverse 2 1 1 (Sim.init [Pages.done_module] false true true)))))%nat \/
  exists modules : list Elem,
    In (Called (PageQuerySelectorAll MODULES_SEL) (inr modules))
       (calls (traverse 2 1 1 (Sim.init [Pages.done_module] false true true))) /\
    (List.length modules
     <= module_index
          (fst (final (traverse 2 1 1 (Sim.init [Pages.done_module] false true true)))))%nat.
Proof.
  apply (proj2 (proj2 (outer_loop_end Sim.handles Sim.browser 2%nat 1%nat 1%nat
                         (Sim.init [Pages.done_module] false true true)))).
  vm_compute. reflexivity.
Defined.

(** ** The only turn of the outer loop that does not advance *)

Section StayingTurn.
Context `{Browser}.



End StayingTurn.



(** ** Progress text: every case *)

(** X13. The parse of the progress text answers a pair or raises
    [ValueError], nothing else.  It answers (a, b) exactly when the text has
    no "/" and a = b = 0, or is, blanks around it aside, two components
    around one "/" that [int] reads as a and b.  Stripping the text first
    does not change the answer.  Digits and blanks outside ASCII count:
    "１/２" in full-width digits and "1/2" between no-break spaces are read
    as (1, 2), while the control character U+001C, which [strip] removes at
    the ends, makes [int] fail inside. *)
Theorem parse_progress_every_case :
  (forall (s : string) (e : exn), parse_progress s = inl e -> e = ValueError) /\
  (forall (s : string) (a b : Z),
      parse_progress s = inr (a, b) <->
      (PyStr.contains "/" s = false /\ a = 0 /\ b = 0) \/
      (PyStr.contains "/" s = true /\ two_integers (PyStr.decode s) = Some (a, b))) /\
  (forall s : list N, parse_points (PyStr.strip s) = parse_points s) /\
  parse_progress "１/２" = inr (1, 2) /\
  parse_points [160; 49; 47; 50; 160]%N = inr (1, 2) /\
  parse_points [28; 49; 47; 50; 28]%N = inr (1, 2) /\
  parse_points [49; 28; 47; 50]%N = inl ValueError.
Proof.
  split; [| split; [| split; [| repeat split; vm_compute; reflexivity]]].
  - intros s e. rewrite parse_progress_components.
    destruct (PyStr.contains "/" s); [| discriminate].
    destruct (two_integers (PyStr.decode s)); [discriminate | now intros [= <-]].
  - intros s a b. rewrite parse_progress_components.
    destruct (PyStr.contains "/" s).
    + destruct (two_integers (PyStr.decode s)) as [p |].
      * split.
        -- intros [= ->]. now right.
        -- intros [(Hf & _) | (_ & [= ->])]; [discriminate | reflexivity].
      * split; [discriminate | intros [(Hf & _) | (_ & Hs)]; discriminate].
    + split.
      * intros [= <- <-]. now left.
      * intros [(_ & -> & ->) | (Hf & _)]; [reflexivity | discriminate].
  - intros s. unfold parse_points. cbv zeta. unfold PyStr.strip.
    now rewrite PyStrFacts.strip_idem.
Qed.

Lemma parse_progress_every_case_witness :
  parse_progress "12 / 20" = inr (12, 20).
Proof.
  apply (proj2 (proj1 (proj2 parse_progress_every_case) "12 / 20" 12 20)).
  right. split; vm_compute; reflexivity.
Defined.

(** ** The session *)

(** X14. The login check never raises: every failure counts as "not logged
    in".  With "login" in the page's address, in any letter case, it answers
    no without a call; with a password field on the page it answers no after
    that one look.  It answers yes only when the address has no "login", no
    password field was found, the storage script ran and answered, and then
    either a user element was found, or none was, the cookies could be read,
    and the script answered yes or a cookie name holds "session", "token" or
    "auth" in any letter case, as [str.lower] has it: the Kelvin sign U+212A
    lowers to "k", so that a cookie named with it in place of the "K" of
    "TOKEN" counts, while the dotted capital I (U+0130) lowers to "i" and a
    combining dot, so that one named with it in place of the "I" of
    "SESSION" does not. *)
Theorem login_check_verdict :
  (forall (H : Handles) (B : Browser) (Ss : Session) (w : World),
    (exists b, fst (fst (check_login_status w)) = inr b) /\
    (PyStr.contains "login" (PyStr.lower (page_url w)) = true ->
     check_login_status w = (inr false, w, [])) /\
    (forall (f : Elem) (w1 : World),
        PyStr.contains "login" (PyStr.lower (page_url w)) = false ->
        perform _ (PageQuerySelector PASSWORD_SEL) w = (inr (Some f), w1) ->
        check_login_status w =
        (inr false, w1, [AskedPage (Called (PageQuerySelector PASSWORD_SEL) (inr (Some f)))])) /\
    (fst (fst (check_login_status w)) = inr true ->
     PyStr.contains "login" (PyStr.lower (page_url w)) = false /\
     exists r1 v,
       found_none r1 /\
       ((exists u,
            snd (check_login_status w) =
            [AskedPage (Called (PageQuerySelector PASSWORD_SEL) r1);
             AskedSession (PageEvaluateBool STORAGE_JS) (inr v);
             AskedPage (Called (PageQuerySelector USER_SEL) (inr (Some u)))]) \/
        (exists r2 cookies,
            found_none r2 /\ v || has_session cookies = true /\
            snd (check_login_status w) =
            [AskedPage (Called (PageQuerySelector PASSWORD_SEL) r1);
             AskedSession (PageEvaluateBool STORAGE_JS) (inr v);
             AskedPage (Called (PageQuerySelector USER_SEL) r2);
             AskedSession ContextCookies (inr cookies)])))) /\
  has_session [mkCookie "JSESSIONID" "1"] = true /\
  has_session [mkCookie "TOKEN" "1"] = true /\
  has_session [mkCookie "SESSİON" "1"] = false /\
  has_session [mkCookie "lang" "zh"] = false.
Proof.
  split; [| repeat split; vm_compute; reflexivity].
  intros H B Ss w.
  unfold check_login_status, stry, sbind, sret, page, ask, found_none.
  destruct (PyStr.contains "login" (PyStr.lower (page_url w))) eqn:Hurl; simpl.
  { split; [now eexists | split; [reflexivity | split]].
    - intros f w1 Heq. discriminate Heq.
    - intros Heq. discriminate Heq. }
  destruct (perform _ (PageQuerySelector PASSWORD_SEL) w) as [[x1 | [f |]] w1] eqn:Hpw;
    simpl.
  2: { split; [now eexists | split; [intros Heq; discriminate Heq | split]].
       - intros f' w1' _ Heq. injection Heq as <- <-. reflexivity.
       - intros Heq. discriminate Heq. }
  all: split; [| split; [intros Heq; discriminate Heq
                        | split; [intros f' w1' _ Heq; discriminate Heq |]]].
  all: destruct (attend _ (PageEvaluateBool STORAGE_JS) w1) as [[x2 | v] w2]; simpl;
    try (now eexists); try (intros Heq; discriminate Heq).
  all: destruct (perform _ (PageQuerySelector USER_SEL) w2) as [[x3 | [u |]] w3]; simpl;
    try (now eexists);
    try (intros _; split; [reflexivity |];
         eexists _, v; (split; [| left; now eexists]); eauto).
  all: destruct (attend _ ContextCookies w3) as [[x4 | cookies] w4]; simpl;
    try (now eexists); try (intros Heq; discriminate Heq).
  all: intros Hyes; injection Hyes as Hyes; split; [reflexivity |].
  all: eexists _, v;
    (split; [| right; eexists _, cookies;
               split; [| split; [exact Hyes | reflexivity]]]); eauto.
Qed.

Lemma login_check_verdict_witness :
  @check_login_status Sim.handles Sim.browser
    (SimSession.session (inr false) [] (fun _ => true))
    (SimSession.on_url "https://weiban.mycourse.cn/#/LOGIN")
  = (inr false, SimSession.on_url "https://weiban.mycourse.cn/#/LOGIN", []).
Proof.
  apply (proj1 (proj2 (proj1 login_check_verdict Sim.handles Sim.browser
                         (SimSession.session (inr false) [] (fun _ => true))
                         (SimSession.on_url "https://weiban.mycourse.cn/#/LOGIN")))).
  vm_compute. reflexivity.
Defined.

(** X15. The two clicks that lead to the course list never raise.  A
    failed click on the lab picture is tried once more by another selector
    and then let go.  The click on the course title gives up, and [main]
    returns, only after three failures in a row: the wait for the title or
    the click by its full text, then the click by part of the text, then the
    click by XPath; it goes on after the first click that works. *)
Theorem course_title_three_tries :
  forall (H : Handles) (B : Browser) (Ss : Session) (w : World),
    (exists u, fst (fst (click_lab_image w)) = inr u) /\
    (exists b, fst (fst (click_course_title w)) = inr b) /\
    (fst (fst (click_course_title w)) = inr false ->
     exists first x2 x3,
       snd (click_course_title w) =
       first ++ [AskedSession (PageClick TITLE_PART_SEL) (inl x2);
                 AskedSession (PageClick TITLE_XPATH_SEL) (inl x3)] /\
       ((exists x1,
            first = [AskedSession (PageWaitForSelector BLOCK_TITLE_SEL) (inl x1)]) \/
        (exists x1,
            first = [AskedSession (PageWaitForSelector BLOCK_TITLE_SEL) (inr tt);
                     AskedSession (PageClick TITLE_TEXT_SEL) (inl x1)]))) /\
    (fst (fst (click_course_title w)) = inr true ->
     exists pre sel,
       snd (click_course_title w) = pre ++ [AskedSession (PageClick sel) (inr tt)] /\
       (sel = TITLE_TEXT_SEL \/ sel = TITLE_PART_SEL \/ sel = TITLE_XPATH_SEL)).
Proof.
  intros H B Ss w. split; [| split; [| split]].
  - unfold click_lab_image, stry, sbind, sret, ask.
    repeat match goal with
           | |- context [attend ?R ?e ?w] =>
               destruct (attend R e w) as [[? | ?] ?]; simpl
           end; now eexists.
  - unfold click_course_title, stry, sbind, sret, ask.
    repeat match goal with
           | |- context [attend ?R ?e ?w] =>
               destruct (attend R e w) as [[? | ?] ?]; simpl
           end; now eexists.
  - unfold click_course_title, stry, sbind, sret, ask.
    repeat match goal with
           | |- context [attend ?R ?e ?w] =>
               destruct (attend R e w) as [[? | ?] ?]; simpl
           | u : unit |- _ => destruct u
           end; try discriminate; intros _;
      first [ eexists [_], _, _; split; [reflexivity | left; now eexists]
            | eexists [_; _], _, _; split; [reflexivity | right; now eexists] ].
  - unfold click_course_title, stry, sbind, sret, ask.
    repeat match goal with
           | |- context [attend ?R ?e ?w] =>
               destruct (attend R e w) as [[? | ?] ?]; simpl
           | u : unit |- _ => destruct u
           end; try discriminate; intros _;
      first [ eexists [_], _; split; [reflexivity | auto]
            | eexists [_; _], _; split; [reflexivity | auto]
            | eexists [_; _; _], _; split; [reflexivity | auto] ].
Qed.

Lemma course_title_three_tries_witness :
  exists first x2 x3,
    snd (@click_course_title Sim.handles Sim.browser
           (SimSession.session (inr false) [] (fun _ => false))
           (SimSession.on_url "https://weiban.mycourse.cn/#/"))
    = first ++ [AskedSession (PageClick TITLE_PART_SEL) (inl x2);
                AskedSession (PageClick TITLE_XPATH_SEL) (inl x3)].
Proof.
  destruct (proj1 (proj2 (proj2 (course_title_three_tries Sim.handles Sim.browser
                         (SimSession.session (inr false) [] (fun _ => false))
                         (SimSession.on_url "https://weiban.mycourse.cn/#/")))))
    as (first & x2 & x3 & Heq & _).
  - reflexivity.
  - now exists first, x2, x3.
Defined.

(** * The lesson turn, call by call *)

(** ** Which elements a turn of the drain loop touches *)

Section Provenance.
Context `{Browser}.












Lemma touches_weaken {A} (J J' : list Elem) (m : M A) :
  (forall x, In x J -> In x J') -> touches_only J m -> touches_only J' m.
Proof. intros Hsub Hm s h HJ. apply Hm. intros x Hx. apply HJ, Hsub, Hx. Qed.

(** What a look for a control teaches. *)



End Provenance.


Section TurnTouches.
Context `{Browser}.








(** The lesson that the look for the next lesson answers was listed by the
    query for the module's lessons and read as not passed, in that look. *)
Lemma next_lesson_some (s s1 : state) (item : Elem) (t1 : list entry) :
  next_lesson s = (Ok (Some item), s1, t1) -> read_as_unpassed t1 item.
Proof.
  unfold next_lesson. intros Hrun.
  apply bind_inv_ok in Hrun as (modules & s2 & t2 & t3 & _ & Hk & ->).
  apply bind_inv_ok in Hk as (vars & s3 & t4 & t5 & _ & Hk & ->).
  destruct (List.length modules <=? module_index vars)%nat;
    [apply ret_inv in Hk as [Hk _]; discriminate |].
  apply bind_inv_ok in Hk as (module & s4 & t6 & t7 & _ & Hk & ->).
  apply bind_inv_ok in Hk as (shown & s5 & t8 & t9 & _ & Hk & ->).
  destruct shown as [module' |]; [| apply ret_inv in Hk as [Hk _]; discriminate].
  apply bind_inv_ok in Hk as (items & s6 & t10 & t11 & Hitems & Hk & ->).
  apply call_inv_ok in Hitems. subst t10.
  apply bind_inv_ok in Hk as (found & s7 & t12 & t13 & Hscan & Hk & ->).
  destruct found as [[[item' pos] title] |];
    [| apply ret_inv in Hk as [Hk _]; discriminate].
  apply ret_inv in Hk as ([= ->] & _ & ->).
  apply scan_selects in Hscan as (n & c & Hn & _ & Hin & Hc & _).
  split.
  - exists module', items. split; [| eapply nth_error_In; exact Hn].
    rewrite !in_app_iff. simpl. tauto.
  - exists c. split; [| exact Hc]. rewrite !in_app_iff. tauto.
Qed.







End TurnTouches.



(** ** A video lesson *)

Section VideoLesson.
Context `{Browser}.

Lemma calls_bind_ok {A B} (m : M A) (k : A -> M B) (s s1 : state) (a : A)
      (t1 : list entry) :
  m s = (Ok a, s1, t1) -> calls (bind m k s) = t1 ++ calls (k a s1).
Proof. intros Hm. now rewrite (bind_ok _ _ _ _ _ _ Hm). Qed.

Lemma find_iframe_at (s : state) :
  find_iframe s = (Ok (frame_of_lesson (snd s)), s, []).
Proof.
  unfold find_iframe, frame_of_lesson. rewrite bind_get_world.
  now destruct (resolve_iframe (page_url (snd s)) (page_frames (snd s))).
Qed.

(** [finishWxCourse] is there at the first poll: it is called next. *)
Lemma finish_course_found_at_once (iframe : Frame) (s : state) (w : World) :
  perform _ (FrameEvaluateBool iframe FUNC_EXISTS_JS) (snd s) = (inr true, w) ->
  finish_course iframe s =
  (Ok true, (fst s, snd (perform _ (FrameEvaluate iframe FINISH_JS) w)),
   [Called (FrameEvaluateBool iframe FUNC_EXISTS_JS) (inr true);
    Called (FrameEvaluate iframe FINISH_JS)
           (fst (perform _ (FrameEvaluate iframe FINISH_JS) w))]).
Proof.
  intros Hp. unfold finish_course, bind, try_catch, call, ret. cbn [fst snd].
  rewrite Hp. cbn [fst snd].
  destruct (perform _ (FrameEvaluate iframe FINISH_JS) w) as [[x | []] w1]; reflexivity.
Qed.

(** It is there at the second poll only: it is called after that one. *)
Lemma finish_course_found_later (iframe : Frame) (s : state) (w w' : World) :
  perform _ (FrameEvaluateBool iframe FUNC_EXISTS_JS) (snd s) = (inr false, w) ->
  perform _ (FrameEvaluateBool iframe FUNC_EXISTS_JS) w = (inr true, w') ->
  finish_course iframe s =
  (Ok true, (fst s, snd (perform _ (FrameEvaluate iframe FINISH_JS) w')),
   [Called (FrameEvaluateBool iframe FUNC_EXISTS_JS) (inr false);
    Called (FrameEvaluateBool iframe FUNC_EXISTS_JS) (inr true);
    Called (FrameEvaluate iframe FINISH_JS)
           (fst (perform _ (FrameEvaluate iframe FINISH_JS) w'))]).
Proof.
  intros Hp Hp'. unfold finish_course, bind, try_catch, call, ret. cbn [fst snd].
  rewrite Hp. cbn [fst snd]. rewrite Hp'. cbn [fst snd].
  destruct (perform _ (FrameEvaluate iframe FINISH_JS) w') as [[x | []] w1]; reflexivity.
Qed.

Lemma calls_return_and_count (s : state) :
  calls (bind return_to_list (fun _ => incr_completed_count) s)
  = calls (return_to_list s).
Proof.
  unfold bind, incr_completed_count, calls.
  destruct (return_to_list s) as [[[u | e |] s1] t1]; cbn [snd];
    now rewrite ?List.app_nil_r.
Qed.

(** The calls of the Lesson Runner on a lesson whose frame shows the wifi
    hint: the lesson is opened, the hint is looked for, and the next call
    is the poll for [finishWxCourse]. *)
Lemma video_lesson_run (item : Elem) (s s1 s2 s3 : state) (t1 t2 t3 : list entry)
      (tip : Elem) (w4 : World) :
  click_item item s = (Ok tt, s1, t1) ->
  wait_for_load_state "domcontentloaded" s1 = (Ok tt, s2, t2) ->
  wait_for_load_state "networkidle" s2 = (Ok tt, s3, t3) ->
  perform _ (FrameQuerySelector (frame_of_lesson (snd s2)) WIFI_TIP_SEL) (snd s3)
  = (inr (Some tip), w4) ->
  calls (run_lesson item s) =
  t1 ++ t2 ++ t3
  ++ Called (FrameQuerySelector (frame_of_lesson (snd s2)) WIFI_TIP_SEL) (inr (Some tip))
  :: calls (finish_course (frame_of_lesson (snd s2)) (fst s3, w4))
  ++ match result (finish_course (frame_of_lesson (snd s2)) (fst s3, w4)) with
     | Ok _ =>
         calls (return_to_list
                  (final (finish_course (frame_of_lesson (snd s2)) (fst s3, w4))))
     | _ => []
     end.
Proof.
  intros Hclick Hw1 Hw2 Hq. unfold run_lesson.
  rewrite (calls_bind_ok _ _ _ _ _ _ Hclick), (calls_bind_ok _ _ _ _ _ _ Hw1).
  rewrite (calls_bind_ok _ _ _ _ _ _ (find_iframe_at s2)). cbn [app].
  rewrite (calls_bind_ok _ _ _ _ _ _ Hw2).
  do 3 f_equal.
  destruct (video_goes_to_finish _ _ _ _ Hq) as [_ Hc].
  unfold bind at 1. rewrite Hc.
  destruct (finish_course (frame_of_lesson (snd s2)) (fst s3, w4))
    as [[[b | e |] s5] t5]; unfold result, final, calls at 2 3; cbn [fst snd].
  - rewrite <- calls_return_and_count.
    destruct (bind return_to_list (fun _ => incr_completed_count) s5) as [[r s6] t6].
    reflexivity.
  - unfold calls. cbn [snd]. now rewrite List.app_nil_r.
  - unfold calls. cbn [snd]. now rewrite List.app_nil_r.
Qed.
End VideoLesson.

(** C8. When the look for the wifi hint in the lesson's frame answers an
    element, the lesson is classified a video.  The calls of the Lesson
    Runner on such a lesson are those that open it (the click on the lesson
    and the two waits), the look for the hint, and then at once those of
    the poll-and-invoke step, followed by the way back to the list: no way
    to the start button is tried.  The poll-and-invoke step starts with the
    poll and makes only [evaluate] calls; when a poll finds
    [finishWxCourse], the call of it is the next and last call of the
    step. *)
Theorem video_lesson_skips_start_button :
  forall (H : Handles) (B : Browser),
    (forall (iframe : Frame) (s : state) (tip : Elem) (w : World),
        perform _ (FrameQuerySelector iframe WIFI_TIP_SEL) (snd s) = (inr (Some tip), w) ->
        detect_video_course iframe s =
          (Ok true, (fst s, w),
           [Called (FrameQuerySelector iframe WIFI_TIP_SEL) (inr (Some tip))]) /\
        complete_in_frame iframe s =
          (result (finish_course iframe (fst s, w)),
           final (finish_course iframe (fst s, w)),
           Called (FrameQuerySelector iframe WIFI_TIP_SEL) (inr (Some tip))
           :: calls (finish_course iframe (fst s, w)))) /\
    (forall (item : Elem) (s s1 s2 s3 : state) (t1 t2 t3 : list entry)
            (tip : Elem) (w4 : World),
        click_item item s = (Ok tt, s1, t1) ->
        wait_for_load_state "domcontentloaded" s1 = (Ok tt, s2, t2) ->
        wait_for_load_state "networkidle" s2 = (Ok tt, s3, t3) ->
        perform _ (FrameQuerySelector (frame_of_lesson (snd s2)) WIFI_TIP_SEL) (snd s3)
        = (inr (Some tip), w4) ->
        calls (run_lesson item s) =
        t1 ++ t2 ++ t3
        ++ Called (FrameQuerySelector (frame_of_lesson (snd s2)) WIFI_TIP_SEL)
                  (inr (Some tip))
        :: calls (finish_course (frame_of_lesson (snd s2)) (fst s3, w4))
        ++ match result (finish_course (frame_of_lesson (snd s2)) (fst s3, w4)) with
           | Ok _ =>
               calls (return_to_list
                        (final (finish_course (frame_of_lesson (snd s2)) (fst s3, w4))))
           | _ => []
           end) /\
    (forall (iframe : Frame) (s : state) (w : World),
        perform _ (FrameEvaluateBool iframe FUNC_EXISTS_JS) (snd s) = (inr true, w) ->
        finish_course iframe s =
        (Ok true, (fst s, snd (perform _ (FrameEvaluate iframe FINISH_JS) w)),
         [Called (FrameEvaluateBool iframe FUNC_EXISTS_JS) (inr true);
          Called (FrameEvaluate iframe FINISH_JS)
                 (fst (perform _ (FrameEvaluate iframe FINISH_JS) w))])) /\
    (forall (iframe : Frame) (s : state) (w w' : World),
        perform _ (FrameEvaluateBool iframe FUNC_EXISTS_JS) (snd s) = (inr false, w) ->
        perform _ (FrameEvaluateBool iframe FUNC_EXISTS_JS) w = (inr true, w') ->
        finish_course iframe s =
        (Ok true, (fst s, snd (perform _ (FrameEvaluate iframe FINISH_JS) w')),
         [Called (FrameEvaluateBool iframe FUNC_EXISTS_JS) (inr false);
          Called (FrameEvaluateBool iframe FUNC_EXISTS_JS) (inr true);
          Called (FrameEvaluate iframe FINISH_JS)
                 (fst (perform _ (FrameEvaluate iframe FINISH_JS) w'))])) /\
    (forall iframe : Frame,
        only_calls (fun en => is_frame_evaluate en = true) (finish_course iframe)) /\
    (forall (iframe : Frame) (s : state),
        exists r rest,
          calls (finish_course iframe s)
          = Called (FrameEvaluateBool iframe FUNC_EXISTS_JS) r :: rest).
Proof.
  intros H B. split; [| split; [| split; [| split; [| split]]]].
  - intros iframe s tip w. apply video_goes_to_finish.
  - apply video_lesson_run.
  - apply finish_course_found_at_once.
  - apply finish_course_found_later.
  - apply finish_course_only_evaluates.
  - apply finish_course_polls_first.
Qed.

Lemma video_lesson_skips_start_button_witness :
  calls (run_lesson (Sim.lesson_elem 0 0) (Sim.init [Sim.one_lesson] true false true)) =
  [Called (ElemIsVisible (Sim.lesson_elem 0 0)) (inr true);
   Called (ElemScrollIntoViewIfNeeded (Sim.lesson_elem 0 0)) (inr tt);
   Called (ElemClick (Sim.lesson_elem 0 0) false) (inr tt)]
  ++ [Called (PageWaitForLoadState "domcontentloaded") (inr tt)]
  ++ [Called (PageWaitForLoadState "networkidle") (inr tt)]
  ++ Called (FrameQuerySelector Sim.lesson_frame WIFI_TIP_SEL) (inr (Some (Sim.widget 1)))
  :: [Called (FrameEvaluateBool Sim.lesson_frame FUNC_EXISTS_JS) (inr true);
      Called (FrameEvaluate Sim.lesson_frame FINISH_JS) (inr tt)]
  ++ calls (return_to_list
              (final (finish_course Sim.lesson_frame
                        (final (click_item (Sim.lesson_elem 0 0)
                                  (Sim.init [Sim.one_lesson] true false true)))))).
Proof.
  apply (proj1 (proj2 (video_lesson_skips_start_button Sim.handles Sim.browser))
           (Sim.lesson_elem 0 0)
           (Sim.init [Sim.one_lesson] true false true)
           (final (click_item (Sim.lesson_elem 0 0)
                     (Sim.init [Sim.one_lesson] true false true)))
           (final (click_item (Sim.lesson_elem 0 0)
                     (Sim.init [Sim.one_lesson] true false true)))
           (final (click_item (Sim.lesson_elem 0 0)
                     (Sim.init [Sim.one_lesson] true false true)))
           _ _ _
           (Sim.widget 1)
           (snd (final (click_item (Sim.lesson_elem 0 0)
                          (Sim.init [Sim.one_lesson] true false true)))));
    vm_compute; reflexivity.
Defined.

(** ** The four ways to the start button *)

Section StartButtonWays.
Context `{Browser}.

Lemma start_by_class_calls (iframe : Frame) (s : state) :
  match result (start_by_class iframe s) with
  | Ok true =>
      exists v,
        calls (start_by_class iframe s) =
          [Called (FrameWaitForSelector iframe BTN_START_WAIT_SEL) (inr tt);
           Called (FrameIsVisible iframe BTN_START_SEL) (inr v);
           Called (FrameClick iframe BTN_START_SEL) (inr tt)]
  | Raise e =>
      calls (start_by_class iframe s) =
        [Called (FrameWaitForSelector iframe BTN_START_WAIT_SEL) (inl e)] \/
      calls (start_by_class iframe s) =
        [Called (FrameWaitForSelector iframe BTN_START_WAIT_SEL) (inr tt);
         Called (FrameIsVisible iframe BTN_START_SEL) (inl e)] \/
      exists v,
        calls (start_by_class iframe s) =
          [Called (FrameWaitForSelector iframe BTN_START_WAIT_SEL) (inr tt);
           Called (FrameIsVisible iframe BTN_START_SEL) (inr v);
           Called (FrameClick iframe BTN_START_SEL) (inl e)]
  | _ => False
  end.
Proof.
  unfold start_by_class, result, calls, bind, call, ret.
  perform_cases; eauto.
Qed.

Lemma start_by_image_calls (iframe : Frame) (s : state) :
  match result (start_by_image iframe s) with
  | Ok true =>
      calls (start_by_image iframe s) =
        [Called (FrameWaitForSelector iframe IMG_START_SEL) (inr tt);
         Called (FrameClick iframe IMG_START_LINK_SEL) (inr tt)]
  | Raise e =>
      calls (start_by_image iframe s) =
        [Called (FrameWaitForSelector iframe IMG_START_SEL) (inl e)] \/
      calls (start_by_image iframe s) =
        [Called (FrameWaitForSelector iframe IMG_START_SEL) (inr tt);
         Called (FrameClick iframe IMG_START_LINK_SEL) (inl e)]
  | _ => False
  end.
Proof.
  unfold start_by_image, result, calls, bind, call, ret.
  perform_cases; eauto.
Qed.

Lemma start_by_pri_class_calls (iframe : Frame) (s : state) :
  match result (start_by_pri_class iframe s) with
  | Ok true =>
      calls (start_by_pri_class iframe s) =
        [Called (FrameClick iframe PRI_START_SEL) (inr tt)]
  | Raise e =>
      calls (start_by_pri_class iframe s) =
        [Called (FrameClick iframe PRI_START_SEL) (inl e)]
  | _ => False
  end.
Proof.
  unfold start_by_pri_class, result, calls, bind, call, ret.
  perform_cases; eauto.
Qed.

Lemma start_by_any_calls (iframe : Frame) (s : state) :
  match result (start_by_any iframe s) with
  | Ok true =>
      exists first rest,
        calls (start_by_any iframe s) =
          [Called (FrameQuerySelectorAll iframe ANY_START_SEL) (inr (first :: rest));
           Called (ElemClick first false) (inr tt)]
  | Ok false =>
      calls (start_by_any iframe s) =
        [Called (FrameQuerySelectorAll iframe ANY_START_SEL) (inr [])]
  | Raise e =>
      calls (start_by_any iframe s) =
        [Called (FrameQuerySelectorAll iframe ANY_START_SEL) (inl e)] \/
      exists first rest,
        calls (start_by_any iframe s) =
          [Called (FrameQuerySelectorAll iframe ANY_START_SEL) (inr (first :: rest));
           Called (ElemClick first false) (inl e)]
  | OutOfFuel => False
  end.
Proof.
  unfold start_by_any, result, calls, bind, call, ret.
  destruct (perform _ (FrameQuerySelectorAll iframe ANY_START_SEL) (snd s))
    as [[x | [| first rest]] w]; cbn [fst snd app]; [now left | reflexivity |].
  destruct (perform _ (ElemClick first false) w) as [[x | []] w1]; cbn [fst snd app];
    eauto.
Qed.

(** All four ways fail: each is tried once, in order, and the answer is
    that no button was clicked. *)
Lemma all_four_fail (iframe : Frame) (s : state) (x1 x2 x3 : exn) (w1 w2 w3 w4 : World) :
  perform _ (FrameWaitForSelector iframe BTN_START_WAIT_SEL) (snd s) = (inl x1, w1) ->
  perform _ (FrameWaitForSelector iframe IMG_START_SEL) w1 = (inl x2, w2) ->
  perform _ (FrameClick iframe PRI_START_SEL) w2 = (inl x3, w3) ->
  perform _ (FrameQuerySelectorAll iframe ANY_START_SEL) w3 = (inr [], w4) ->
  click_start_button iframe s =
  (Ok false, (fst s, w4),
   [Called (FrameWaitForSelector iframe BTN_START_WAIT_SEL) (inl x1);
    Called (FrameWaitForSelector iframe IMG_START_SEL) (inl x2);
    Called (FrameClick iframe PRI_START_SEL) (inl x3);
    Called (FrameQuerySelectorAll iframe ANY_START_SEL) (inr [])]).
Proof.
  intros H1 H2 H3 H4.
  unfold click_start_button, start_by_class, start_by_image, start_by_pri_class,
    start_by_any, try_catch, bind, call, ret.
  cbn [fst snd]. rewrite H1. cbn [fst snd]. rewrite H2. cbn [fst snd].
  rewrite H3. cbn [fst snd]. rewrite H4. reflexivity.
Qed.

Lemma drain_module_next_turn (fuel : nat) (s s2 : state) (t : list entry) :
  drain_iter s = (Ok Continue, s2, t) ->
  drain_module (S fuel) s =
  (result (drain_module fuel s2), final (drain_module fuel s2),
   t ++ calls (drain_module fuel s2)).
Proof. intros Hi. simpl drain_module. now rewrite (bind_ok _ _ _ _ _ _ Hi). Qed.
End StartButtonWays.

(** C9 (as the code has it).  The search for the start button is the chain
    of four ways tried in order: the class selector (a wait for
    ".btn-start, a.btn-start", a look whether ".btn-start" is visible, the
    click on it), the image source (a wait for the image, the click on the
    link around it), the second class (the click on ".pri-start-btn"), and
    any link or button named "start" (the query, the click on the first
    answer).  The next way is tried only when the one before failed, none
    after the first success.  The search never raises: when all four fail
    it answers that nothing was clicked, and the frame is polled for
    [finishWxCourse] all the same.  A turn of the drain loop never raises,
    and one in which a lesson was chosen ends with [Continue]: the loop
    goes on to its next turn, which scans the module again for the first
    lesson not read as passed.  On the simulated page with two open
    lessons and no start button, that is the second lesson when
    [finishWxCourse] is there to mark the first one passed, and the first
    lesson again when it is not. *)
Theorem start_button_fallback_chain :
  (forall (H : Handles) (B : Browser) (iframe : Frame),
      (forall s,
          match result (start_by_class iframe s) with
          | Ok true =>
              exists v,
                calls (start_by_class iframe s) =
                  [Called (FrameWaitForSelector iframe BTN_START_WAIT_SEL) (inr tt);
                   Called (FrameIsVisible iframe BTN_START_SEL) (inr v);
                   Called (FrameClick iframe BTN_START_SEL) (inr tt)]
          | Raise e =>
              calls (start_by_class iframe s) =
                [Called (FrameWaitForSelector iframe BTN_START_WAIT_SEL) (inl e)] \/
              calls (start_by_class iframe s) =
                [Called (FrameWaitForSelector iframe BTN_START_WAIT_SEL) (inr tt);
                 Called (FrameIsVisible iframe BTN_START_SEL) (inl e)] \/
              exists v,
                calls (start_by_class iframe s) =
                  [Called (FrameWaitForSelector iframe BTN_START_WAIT_SEL) (inr tt);
                   Called (FrameIsVisible iframe BTN_START_SEL) (inr v);
                   Called (FrameClick iframe BTN_START_SEL) (inl e)]
          | _ => False
          end) /\
      (forall s,
          match result (start_by_image iframe s) with
          | Ok true =>
              calls (start_by_image iframe s) =
                [Called (FrameWaitForSelector iframe IMG_START_SEL) (inr tt);
                 Called (FrameClick iframe IMG_START_LINK_SEL) (inr tt)]
          | Raise e =>
              calls (start_by_image iframe s) =
                [Called (FrameWaitForSelector iframe IMG_START_SEL) (inl e)] \/
              calls (start_by_image iframe s) =
                [Called (FrameWaitForSelector iframe IMG_START_SEL) (inr tt);
                 Called (FrameClick iframe IMG_START_LINK_SEL) (inl e)]
          | _ => False
          end) /\
      (forall s,
          match result (start_by_pri_class iframe s) with
          | Ok true =>
              calls (start_by_pri_class iframe s) =
                [Called (FrameClick iframe PRI_START_SEL) (inr tt)]
          | Raise e =>
              calls (start_by_pri_class iframe s) =
                [Called (FrameClick iframe PRI_START_SEL) (inl e)]
          | _ => False
          end) /\
      (forall s,
          match result (start_by_any iframe s) with
          | Ok true =>
              exists first rest,
                calls (start_by_any iframe s) =
                  [Called (FrameQuerySelectorAll iframe ANY_START_SEL)
                          (inr (first :: rest));
                   Called (ElemClick first false) (inr tt)]
          | Ok false =>
              calls (start_by_any iframe s) =
                [Called (FrameQuerySelectorAll iframe ANY_START_SEL) (inr [])]
          | Raise e =>
              calls (start_by_any iframe s) =
                [Called (FrameQuerySelectorAll iframe ANY_START_SEL) (inl e)] \/
              exists first rest,
                calls (start_by_any iframe s) =
                  [Called (FrameQuerySelectorAll iframe ANY_START_SEL)
                          (inr (first :: rest));
                   Called (ElemClick first false) (inl e)]
          | OutOfFuel => False
          end) /\
      (forall s,
          click_start_button iframe s =
          first_success [start_by_class iframe; start_by_image iframe;
                         start_by_pri_class iframe; start_by_any iframe] s) /\
      (forall (s : state) (x1 x2 x3 : exn) (w1 w2 w3 w4 : World),
          perform _ (FrameWaitForSelector iframe BTN_START_WAIT_SEL) (snd s) = (inl x1, w1) ->
          perform _ (FrameWaitForSelector iframe IMG_START_SEL) w1 = (inl x2, w2) ->
          perform _ (FrameClick iframe PRI_START_SEL) w2 = (inl x3, w3) ->
          perform _ (FrameQuerySelectorAll iframe ANY_START_SEL) w3 = (inr [], w4) ->
          click_start_button iframe s =
          (Ok false, (fst s, w4),
           [Called (FrameWaitForSelector iframe BTN_START_WAIT_SEL) (inl x1);
            Called (FrameWaitForSelector iframe IMG_START_SEL) (inl x2);
            Called (FrameClick iframe PRI_START_SEL) (inl x3);
            Called (FrameQuerySelectorAll iframe ANY_START_SEL) (inr [])])) /\
      never_raises (click_start_button iframe) /\
      (forall s,
          bind (start_course iframe false) (fun _ => finish_course iframe) s =
          (result (finish_course iframe (final (click_start_button iframe s))),
           final (finish_course iframe (final (click_start_button iframe s))),
           calls (click_start_button iframe s)
           ++ calls (finish_course iframe (final (click_start_button iframe s))))) /\
      (forall s s1 item t1,
          next_lesson s = (Ok (Some item), s1, t1) ->
          read_as_unpassed t1 item /\
          exists s2 t2, drain_iter s = (Ok Continue, s2, t1 ++ t2)) /\
      (forall fuel s s2 t,
          drain_iter s = (Ok Continue, s2, t) ->
          drain_module (S fuel) s =
          (result (drain_module fuel s2), final (drain_module fuel s2),
           t ++ calls (drain_module fuel s2))) /\
      never_raises drain_iter) /\
  (result (click_start_button Sim.lesson_frame
             (Sim.init [Pages.two_open_lessons] false false true)) = Ok false /\
   result (drain_iter (Sim.init [Pages.two_open_lessons] false false true))
   = Ok Continue /\
   Sim.touched 0 0
     (calls (drain_iter (Sim.init [Pages.two_open_lessons] false false true))) = true /\
   Sim.touched 0 1
     (calls (drain_iter (Sim.init [Pages.two_open_lessons] false false true))) = false /\
   Sim.touched 0 0
     (calls (drain_iter
               (final (drain_iter (Sim.init [Pages.two_open_lessons] false false true)))))
   = false /\
   Sim.touched 0 1
     (calls (drain_iter
               (final (drain_iter (Sim.init [Pages.two_open_lessons] false false true)))))
   = true /\
   result (next_lesson
             (final (drain_iter (Sim.init [Pages.two_open_lessons] false false true))))
   = Ok (Some (Sim.lesson_elem 0 1)) /\
   result (drain_module 3 (Sim.init [Pages.two_open_lessons] false false true)) = Ok tt /\
   result (next_lesson
             (final (drain_iter (Sim.init [Pages.two_open_lessons] false false false))))
   = Ok (Some (Sim.lesson_elem 0 0))).
Proof.
  split.
  - intros H B iframe.
    split; [| split; [| split; [| split; [| split; [| split; [| split; [| split;
      [| split; [| split]]]]]]]]].
    + apply start_by_class_calls.
    + apply start_by_image_calls.
    + apply start_by_pri_class_calls.
    + apply start_by_any_calls.
    + apply click_start_button_first_success.
    + apply all_four_fail.
    + apply never_raises_click_start_button.
    + apply start_then_finish.
    + intros s s1 item t1 Hnext. split.
      * eapply next_lesson_some; exact Hnext.
      * eapply drain_iter_continues; exact Hnext.
    + apply drain_module_next_turn.
    + apply never_raises_drain_iter.
  - repeat split; vm_compute; reflexivity.
Qed.

Lemma start_button_fallback_chain_witness :
  click_start_button Sim.lesson_frame (Sim.init [Pages.two_open_lessons] false false true)
  = (Ok false, Sim.init [Pages.two_open_lessons] false false true,
     [Called (FrameWaitForSelector Sim.lesson_frame BTN_START_WAIT_SEL)
             (inl PlaywrightError);
      Called (FrameWaitForSelector Sim.lesson_frame IMG_START_SEL) (inl PlaywrightError);
      Called (FrameClick Sim.lesson_frame PRI_START_SEL) (inl PlaywrightError);
      Called (FrameQuerySelectorAll Sim.lesson_frame ANY_START_SEL) (inr [])]).
Proof.
  apply (proj1 (proj2 (proj2 (proj2 (proj2 (proj2
           (proj1 start_button_fallback_chain Sim.handles Sim.browser Sim.lesson_frame))))))
           (Sim.init [Pages.two_open_lessons] false false true)
           PlaywrightError PlaywrightError PlaywrightError
           (Sim.page [Pages.two_open_lessons] false false true)
           (Sim.page [Pages.two_open_lessons] false false true)
           (Sim.page [Pages.two_open_lessons] false false true)
           (Sim.page [Pages.two_open_lessons] false false true));
    vm_compute; reflexivity.
Defined.

(** C9 (as the specification has it) fails.  On the simulated page with two
    open lessons, no start button and no [finishWxCourse], all four ways
    fail in the first lesson and the turn ends with [Continue]; the next
    turn, and every turn after it, selects the first lesson again.  The
    second open lesson is not reached: after six turns the loop is still
    going and has touched the first lesson only. *)
Lemma same_lesson_is_selected_again :
  result (click_start_button Sim.lesson_frame
            (Sim.init [Pages.two_open_lessons] false false false)) = Ok false /\
  result (drain_iter (Sim.init [Pages.two_open_lessons] false false false))
  = Ok Continue /\
  result (next_lesson
            (final (drain_iter (Sim.init [Pages.two_open_lessons] false false false))))
  = Ok (Some (Sim.lesson_elem 0 0)) /\
  result (drain_module 6 (Sim.init [Pages.two_open_lessons] false false false))
  = OutOfFuel /\
  Sim.touched 0 0
    (calls (drain_module 6 (Sim.init [Pages.two_open_lessons] false false false))) = true /\
  Sim.touched 0 1
    (calls (drain_module 6 (Sim.init [Pages.two_open_lessons] false false false))) = false.
Proof. repeat split; vm_compute; reflexivity. Qed.
